(** * Windows contextual search: chunk identity, hybrid retrieval, context
      assembly, query router, tool agent loop, keyword store and file lists

    A shallow embedding of the Python sources
      - [core/indexing/index_chroma.py], [core/indexing/index_bm25.py]:
        [assign_chunk_ids], and [main] of the keyword indexer;
      - [core/retrieval/bm25_db.py]: [sanitize_for_fts], [get_existing_ids],
        [add_chunks], and the tokens and the escaping of [like_scan];
      - [core/retrieval/answer.py]: [passes_before_filter], [rrf_add],
        [retrieve_hybrid], [build_context_block], [build_prompt],
        [is_file_lookup], [build_bm25_content_query];
      - [core/retrieval/hybrid_query.py]: the fusion and ranking of [main];
      - [core/agents/llm_agent.py]: [run_agent] and its two patterns;
      - [core/agents/router_agent.py]: [build_bm25_query],
        [detect_brand_tokens], [add_quotes_if_helpful], [preview],
        [print_file_list] and both branches of [route_and_run];
      - [api/server.py]: [brand_first_bm25], [files_from_bm25],
        [files_from_hybrid] and [route_endpoint] from its branch on the kind
        of question;
      - [core/utils/manage_indexes.py]: [bm25_count_for_root],
        [bm25_delete_root], [bm25_prune_missing].
    Python [int] is [Z], [str] is [string] (ASCII text), [Optional[T]] is
    [option T], a [dict] is an association list in insertion order, the
    SQLite database is a record of its two tables with the rows in
    insertion order.  The two search engines, the file system, the
    full-text table read by the retrieval, the language models, the loader
    and the splitter of documents, the JSON parser, SQLite's [LIKE] and the
    formatting of floats are parameters of the functions that use them; in
    the statements about the agent loop so are the two protocol patterns,
    which are also given as functions on ASCII text.  The score [rrf_score]
    is a Python float in the source; here it is an exact rational ([Q]), so
    rounding is not part of the model. *)

From Stdlib Require Import List String Ascii ZArith QArith Lia Lqa Bool Arith.
From Stdlib Require Import Decimal DecimalString DecimalZ DecimalPos.
From Stdlib Require Import Permutation Sorted.
Import ListNotations.

#[local] Open Scope string_scope.
#[local] Open Scope Z_scope.
#[local] Open Scope list_scope.

(** String concatenation, Python's [+] on [str]. *)
Infix "+:+" := String.append (at level 60, right associativity).

(* ====================================================================== *)
(** * Python primitives *)
(* ====================================================================== *)

(** [str(n)] for an [int]. *)
Definition py_str (z : Z) : string := NilZero.string_of_int (Z.to_int z).

(** [d.get(key, default)] on a field that may be absent. *)
Definition get_default {A : Type} (o : option A) (d : A) : A :=
  match o with
  | Some v => v
  | None => d
  end.

(** [x or ""] on an optional string. *)
Definition or_empty (o : option string) : string := get_default o "".

(** Truthiness of a string: [not s] holds exactly for the empty string. *)
Definition py_not_str (s : string) : bool :=
  match s with
  | EmptyString => true
  | String _ _ => false
  end.

(** [enumerate(l, start)] *)
Fixpoint enumerate {A : Type} (start : Z) (l : list A) : list (Z * A) :=
  match l with
  | [] => []
  | x :: rest => (start, x) :: enumerate (start + 1) rest
  end.

(** [sep.join(parts)] *)
Fixpoint py_join (sep : string) (parts : list string) : string :=
  match parts with
  | [] => ""
  | [p] => p
  | p :: rest => p +:+ sep +:+ py_join sep rest
  end.

(** [h[:limit]] on a list: a negative bound counts from the end. *)
Definition py_slice_to {A : Type} (l : list A) (limit : Z) : list A :=
  if 0 <=? limit then firstn (Z.to_nat limit) l
  else firstn (Z.to_nat (Z.of_nat (List.length l) + limit)) l.

(** [s[:limit]] on a string, for a non-negative constant bound. *)
Fixpoint str_take (n : nat) (s : string) : string :=
  match n, s with
  | O, _ => ""
  | S _, EmptyString => ""
  | S n', String c s' => String c (str_take n' s')
  end.

(** [s.lower()] on ASCII text. *)
Definition lower_char (c : ascii) : ascii :=
  let n := nat_of_ascii c in
  if ((65 <=? n) && (n <=? 90))%nat then ascii_of_nat (n + 32) else c.

Fixpoint py_lower (s : string) : string :=
  match s with
  | EmptyString => ""
  | String c s' => String (lower_char c) (py_lower s')
  end.

(** [s.startswith(p)] *)
Fixpoint starts_with (p s : string) : bool :=
  match p, s with
  | EmptyString, _ => true
  | String a p', String b s' => Ascii.eqb a b && starts_with p' s'
  | String _ _, EmptyString => false
  end.

(** [needle in s] *)
Fixpoint str_contains (needle s : string) : bool :=
  starts_with needle s ||
  match s with
  | EmptyString => false
  | String _ s' => str_contains needle s'
  end.

(** [s.replace(old, new)] for a non-empty [old]: occurrences are replaced
    from left to right, and the characters of a replaced occurrence are
    skipped ([skip] counts those still to pass over). *)
Fixpoint replace_from (old new : string) (skip : nat) (s : string) : string :=
  match s with
  | EmptyString => ""
  | String c s' =>
      match skip with
      | S k => replace_from old new k s'
      | O =>
          if starts_with old s
          then new +:+ replace_from old new (String.length old - 1) s'
          else String c (replace_from old new 0 s')
      end
  end.

Definition py_replace (s old new : string) : string := replace_from old new 0 s.

(** The character [:] does not occur in the string. *)
Fixpoint no_colon (s : string) : bool :=
  match s with
  | EmptyString => true
  | String c s' => negb (Ascii.eqb c ":") && no_colon s'
  end.

(** Split at the last [:], as [s.rpartition(":")] would. *)
Fixpoint rsplit_colon (s : string) : option (string * string) :=
  match s with
  | EmptyString => None
  | String c s' =>
      match rsplit_colon s' with
      | Some (a, b) => Some (String c a, b)
      | None => if Ascii.eqb c ":" then Some ("", s') else None
      end
  end.

(* ====================================================================== *)
(** * Chunk identity ([index_chroma.py], [index_bm25.py]) *)
(* ====================================================================== *)

(** A LangChain [Document]: the text and the metadata keys the indexers
    read or write.  A key that is absent from the dict is [None]. *)
Record Metadata : Type := mkMetadata {
  md_source : option string;
  md_page : option Z;
  md_id : option string
}.

Record Document : Type := mkDocument {
  page_content : option string;
  metadata : Metadata
}.

Definition meta_source (c : Document) : string :=
  get_default (md_source (metadata c)) "unknown_source".

Definition meta_page (c : Document) : Z :=
  get_default (md_page (metadata c)) 0.

(** [f"{source}:{page}"] *)
Definition page_key_of (c : Document) : string :=
  meta_source c +:+ ":" +:+ py_str (meta_page c).

(** [chunk.metadata["id"] = v] *)
Definition set_id (c : Document) (v : string) : Document :=
  mkDocument (page_content c)
    (mkMetadata (md_source (metadata c)) (md_page (metadata c)) (Some v)).

(** [page_key == last_page_key], where [last_page_key] starts as [None]. *)
Definition same_key (page_key : string) (last_page_key : option string) : bool :=
  match last_page_key with
  | Some k => String.eqb page_key k
  | None => false
  end.

(** The counter the loop keeps: bumped on the same key, reset otherwise. *)
Definition next_idx (page_key : string) (last_page_key : option string)
    (idx_within_page : Z) : Z :=
  if same_key page_key last_page_key then idx_within_page + 1 else 0.

Module IndexChroma.

(** The body of [for chunk in chunks], with the two loop variables
    [last_page_key] and [idx_within_page] passed along. *)
Fixpoint assign_loop (last_page_key : option string) (idx_within_page : Z)
    (chunks : list Document) : list Document :=
  match chunks with
  | [] => []
  | chunk :: rest =>
      let page_key := page_key_of chunk in
      let idx := next_idx page_key last_page_key idx_within_page in
      set_id chunk (page_key +:+ ":" +:+ py_str idx)
        :: assign_loop (Some page_key) idx rest
  end.

Definition assign_chunk_ids (chunks : list Document) : list Document :=
  assign_loop None 0 chunks.

End IndexChroma.

Module IndexBm25.

Fixpoint assign_loop (last_page_key : option string) (idx_within_page : Z)
    (chunks : list Document) : list Document :=
  match chunks with
  | [] => []
  | chunk :: rest =>
      let page_key := page_key_of chunk in
      let idx := next_idx page_key last_page_key idx_within_page in
      set_id chunk (page_key +:+ ":" +:+ py_str idx)
        :: assign_loop (Some page_key) idx rest
  end.

Definition assign_chunk_ids (chunks : list Document) : list Document :=
  assign_loop None 0 chunks.

End IndexBm25.

(** The ids a chunk list carries, in order ([""] where none is set). *)
Definition chunk_ids (chunks : list Document) : list string :=
  map (fun c => or_empty (md_id (metadata c))) chunks.

(** The pair the identity rule speaks about. *)
Definition source_page (c : Document) : string * Z :=
  (meta_source c, meta_page c).

Definition source_page_eqb (a b : Document) : bool :=
  String.eqb (meta_source a) (meta_source b) && Z.eqb (meta_page a) (meta_page b).

(** The rule in the words of the data model: the index within the page is 0
    for the first chunk and whenever [(source, page)] differs from the chunk
    just before, and one more than that chunk's index otherwise. *)
Fixpoint index_within_page (chunks : list Document) (n : nat) : Z :=
  match n with
  | O => 0
  | S m =>
      match nth_error chunks m, nth_error chunks n with
      | Some prev, Some cur =>
          if source_page_eqb cur prev then index_within_page chunks m + 1 else 0
      | _, _ => 0
      end
  end.

(** [f"{source}:{page}:{i}"] *)
Definition chunk_id_of (source : string) (page : Z) (i : Z) : string :=
  (source +:+ ":" +:+ py_str page) +:+ ":" +:+ py_str i.

(** Two chunks with the same [(source, page)] have a chunk with another
    [(source, page)] somewhere between them. *)
Definition separated (chunks : list Document) : Prop :=
  exists l1 a l2 b l3 c l4,
    chunks = l1 ++ a :: l2 ++ b :: l3 ++ c :: l4 /\
    source_page a = source_page c /\
    source_page b <> source_page a.

(** All chunks that share a [(source, page)] sit next to each other. *)
Definition contiguous (chunks : list Document) : Prop := ~ separated chunks.

(** The loop seen on page keys alone: each key with the counter value the
    loop holds when it writes that chunk's id. *)
Fixpoint run_indices (last_page_key : option string) (idx_within_page : Z)
    (keys : list string) : list (string * Z) :=
  match keys with
  | [] => []
  | k :: rest =>
      let idx := next_idx k last_page_key idx_within_page in
      (k, idx) :: run_indices (Some k) idx rest
  end.

Definition render_id (p : string * Z) : string :=
  fst p +:+ ":" +:+ py_str (snd p).

(** [separated] on the page keys the loop compares. *)
Definition separated_keys (keys : list string) : Prop :=
  exists l1 a l2 b l3 l4,
    keys = l1 ++ a :: l2 ++ b :: l3 ++ a :: l4 /\ b <> a.

(** Three chunks: page 1 of a.pdf, then b.txt, then page 1 of a.pdf again. *)
Definition doc_a : Document :=
  mkDocument (Some "alpha") (mkMetadata (Some "a.pdf") (Some 1) None).
Definition doc_b : Document :=
  mkDocument (Some "beta") (mkMetadata (Some "b.txt") None None).
Definition doc_a' : Document :=
  mkDocument (Some "gamma") (mkMetadata (Some "a.pdf") (Some 1) None).

(* ====================================================================== *)
(** * Python [dict] with string keys, in insertion order *)
(* ====================================================================== *)

Definition dict (V : Type) : Type := list (string * V).

(** [d.get(k)] *)
Fixpoint dict_get {V : Type} (k : string) (d : dict V) : option V :=
  match d with
  | [] => None
  | (k', v) :: rest => if String.eqb k k' then Some v else dict_get k rest
  end.

(** [k in d] *)
Definition dict_mem {V : Type} (k : string) (d : dict V) : bool :=
  match dict_get k d with
  | Some _ => true
  | None => false
  end.

(** [d[k] = v]: an existing key keeps its place, a new key goes last. *)
Fixpoint dict_set {V : Type} (k : string) (v : V) (d : dict V) : dict V :=
  match d with
  | [] => [(k, v)]
  | (k', v') :: rest =>
      if String.eqb k k' then (k', v) :: rest else (k', v') :: dict_set k v rest
  end.

(** [d.values()] *)
Definition dict_values {V : Type} (d : dict V) : list V := map snd d.

Definition dict_keys {V : Type} (d : dict V) : list string := map fst d.

(* ====================================================================== *)
(** * Stable descending sort: [sorted(l, key=..., reverse=True)] *)
(* ====================================================================== *)

Section Sorted.
Context {A : Type}.
Variable key : A -> Q.

(** [x] is placed before the first element whose key does not exceed its
    own, so it stays ahead of the later elements with an equal key. *)
Fixpoint insert_desc (x : A) (l : list A) : list A :=
  match l with
  | [] => [x]
  | y :: rest =>
      if Qle_bool (key y) (key x) then x :: y :: rest
      else y :: insert_desc x rest
  end.

Definition py_sorted_desc (l : list A) : list A :=
  fold_right insert_desc [] l.

(** [a] may stand before [b] in a descending order. *)
Definition score_ge (a b : A) : Prop := (key b <= key a)%Q.

End Sorted.

(* ====================================================================== *)
(** * Keyword engine rows ([bm25_db.search]) *)
(* ====================================================================== *)

(** One row of [search]: [chunk_id], [source], [page], [snippet] and the
    native [rank], which is absent on the substring fallback. *)
Record Row : Type := mkRow {
  row_chunk_id : string;
  row_source : string;
  row_page : Z;
  row_snippet : string;
  row_rank : option Q
}.

(** A naive [datetime], as a count of microseconds. *)
Definition datetime : Type := Z.

(** The two engines, [Literal["chroma", "bm25"]]. *)
Inductive Engine : Type := chroma | bm25.

(* ====================================================================== *)
(** * Hybrid retrieval and context assembly ([answer.py]) *)
(* ====================================================================== *)

Module Answer.

Definition RRF_K : Z := 60.
Definition CHROMA_K : Z := 8.
Definition BM25_K : Z := 20.
Definition FINAL_CTX : Z := 6.
Definition MAX_CHUNK_CHARS : nat := 1200.

(** Unified, fused hit from either engine. *)
Record Hit : Type := mkHit {
  chunk_id : string;
  source : string;
  page : Z;
  text : string;
  chroma_rank : option Z;
  bm25_rank : option Z;
  rrf_score : Q
}.

(** The [meta] dict passed along with each engine result:
    [{"source", "page", "text", "rank"}]. *)
Record Meta : Type := mkMeta {
  meta_src : string;
  meta_pg : Z;
  meta_text : string;
  meta_rank : Z
}.

(** [1.0 / (RRF_K + rank_1based)].  Python raises for [rank_1based = -60];
    the ranks [retrieve_hybrid] passes come from [enumerate(.., start=1)]. *)
Definition rrf_increment (rank_1based : Z) : Q :=
  1 / inject_Z (RRF_K + rank_1based).

Definition add_score (add : Q) (h : Hit) : Hit :=
  mkHit (chunk_id h) (source h) (page h) (text h)
        (chroma_rank h) (bm25_rank h) (rrf_score h + add).

Definition set_rank (engine : Engine) (rank_1based : Z) (h : Hit) : Hit :=
  match engine with
  | chroma =>
      mkHit (chunk_id h) (source h) (page h) (text h)
            (Some rank_1based) (bm25_rank h) (rrf_score h)
  | bm25 =>
      mkHit (chunk_id h) (source h) (page h) (text h)
            (chroma_rank h) (Some rank_1based) (rrf_score h)
  end.

(** The [Hit] created the first time a [chunk_id] is seen. *)
Definition fresh_hit (key : string) (meta : Meta) : Hit :=
  mkHit key (meta_src meta) (meta_pg meta) (meta_text meta) None None 0.

(** [rrf_add(score_map, key, rank_1based, engine, meta)]; the dict is
    mutated in place in the source and returned here. *)
Definition rrf_add (score_map : dict Hit) (key : string) (rank_1based : Z)
    (engine : Engine) (meta : Meta) : dict Hit :=
  let add := rrf_increment rank_1based in
  let score_map1 :=
    if dict_mem key score_map then score_map
    else dict_set key (fresh_hit key meta) score_map in
  match dict_get key score_map1 with
  | Some h => dict_set key (set_rank engine rank_1based (add_score add h)) score_map1
  | None => score_map1
  end.

(** One fusion loop: [for chunk_id, meta in lst: if not chunk_id: continue;
    rrf_add(fused, chunk_id, meta["rank"], engine, meta)]. *)
Definition fusion_loop (engine : Engine) (lst : list (string * Meta))
    (fused : dict Hit) : dict Hit :=
  fold_left
    (fun acc cm =>
       if py_not_str (fst cm) then acc
       else rrf_add acc (fst cm) (meta_rank (snd cm)) engine (snd cm))
    lst fused.

(** Both loops, semantic engine first, on an empty dict. *)
Definition fuse (chroma_meta_list bm25_meta_list : list (string * Meta)) : dict Hit :=
  fusion_loop bm25 bm25_meta_list (fusion_loop chroma chroma_meta_list []).

(** [sorted(fused.values(), key=lambda h: h.rrf_score, reverse=True)] *)
Definition rank_fused (fused : dict Hit) : list Hit :=
  py_sorted_desc rrf_score (dict_values fused).

Section Retrieval.

(** The file system, the two stores and the rows of the [chunks_fts] table
    as they are during one call. *)
Variable file_mtime : string -> option datetime.
Variable similarity_search_with_score : string -> Z -> list (Document * Q).
Variable search : string -> Z -> list Row.
Variable chunks_fts : list (string * string).

Definition passes_before_filter (source_path : string) (before : option datetime) : bool :=
  match before with
  | None => true
  | Some b =>
      match file_mtime source_path with
      | Some mtime => mtime <? b
      | None => false
      end
  end.

Definition doc_chunk_id (doc : Document) : string :=
  get_default (md_id (metadata doc)) "".

Definition doc_full (doc : Document) : string := or_empty (page_content doc).

(** First loop, the [chroma_text_by_id] accumulator. *)
Definition chroma_text_by_id_of (chroma_pairs : list (Document * Q)) : dict string :=
  fold_left
    (fun acc ip => dict_set (doc_chunk_id (fst (snd ip))) (doc_full (fst (snd ip))) acc)
    (enumerate 1 chroma_pairs) [].

(** First loop, what one result adds to [chroma_meta_list]: nothing when
    the id is empty or the file fails the date filter. *)
Definition chroma_meta_of (before_dt : option datetime)
    (ip : Z * (Document * Q)) : list (string * Meta) :=
  let idx := fst ip in
  let doc := fst (snd ip) in
  let chunk_id := doc_chunk_id doc in
  let src := meta_source doc in
  if py_not_str chunk_id || negb (passes_before_filter src before_dt) then []
  else [(chunk_id, mkMeta src (meta_page doc) (doc_full doc) idx)].

(** First loop, the [chroma_meta_list] accumulator. *)
Definition chroma_meta_list_of (before_dt : option datetime)
    (chroma_pairs : list (Document * Q)) : list (string * Meta) :=
  flat_map (chroma_meta_of before_dt) (enumerate 1 chroma_pairs).

(** Second loop, what one row adds to [bm25_meta_list] (the text is still
    a placeholder for a chunk the semantic engine did not return). *)
Definition bm25_meta_of (before_dt : option datetime)
    (chroma_text_by_id : dict string) (ir : Z * Row) : list (string * Meta) :=
  let idx := fst ir in
  let row := snd ir in
  let chunk_id := row_chunk_id row in
  let src := row_source row in
  if py_not_str chunk_id || negb (passes_before_filter src before_dt) then []
  else
    let full_text :=
      match dict_get chunk_id chroma_text_by_id with
      | Some t => t
      | None => ""
      end in
    [(chunk_id, mkMeta src (row_page row) full_text idx)].

(** Second loop, the [bm25_meta_list] accumulator. *)
Definition bm25_meta_list_of (before_dt : option datetime)
    (chroma_text_by_id : dict string) (bm25_rows : list Row) : list (string * Meta) :=
  flat_map (bm25_meta_of before_dt chroma_text_by_id) (enumerate 1 bm25_rows).

(** Second loop, the [bm25_only_ids] accumulator. *)
Definition bm25_only_ids_of (before_dt : option datetime)
    (chroma_text_by_id : dict string) (bm25_rows : list Row) : list string :=
  flat_map
    (fun row =>
       let chunk_id := row_chunk_id row in
       if py_not_str chunk_id || negb (passes_before_filter (row_source row) before_dt)
       then []
       else if dict_mem chunk_id chroma_text_by_id then [] else [chunk_id])
    bm25_rows.

(** [SELECT chunk_id, text FROM chunks_fts WHERE chunk_id IN (...)] *)
Definition fetch_texts (ids : list string) : list (string * string) :=
  filter (fun r => existsb (String.eqb (fst r)) ids) chunks_fts.

(** [{r["chunk_id"]: r["text"] for r in rows}] *)
Definition text_map_of (rows : list (string * string)) : dict string :=
  fold_left (fun acc r => dict_set (fst r) (snd r) acc) rows [].

(** The fill-in loop over [bm25_meta_list]. *)
Definition fill_texts (text_map : dict string) (lst : list (string * Meta))
    : list (string * Meta) :=
  map
    (fun cm =>
       let meta := snd cm in
       if py_not_str (meta_text meta)
       then (fst cm, mkMeta (meta_src meta) (meta_pg meta)
                       (get_default (dict_get (fst cm) text_map) "")
                       (meta_rank meta))
       else cm)
    lst.

(** The contributions of the keyword engine after the batch text fetch. *)
Definition bm25_contributions (before_dt : option datetime)
    (chroma_pairs : list (Document * Q)) (bm25_rows : list Row) : list (string * Meta) :=
  let chroma_text_by_id := chroma_text_by_id_of chroma_pairs in
  let bm25_meta_list := bm25_meta_list_of before_dt chroma_text_by_id bm25_rows in
  let bm25_only_ids := bm25_only_ids_of before_dt chroma_text_by_id bm25_rows in
  match bm25_only_ids with
  | [] => bm25_meta_list
  | _ :: _ => fill_texts (text_map_of (fetch_texts bm25_only_ids)) bm25_meta_list
  end.

(** [retrieve_hybrid] once both engines have answered. *)
Definition retrieve_from (before_dt : option datetime)
    (chroma_pairs : list (Document * Q)) (bm25_rows : list Row) : list Hit :=
  rank_fused
    (fuse (chroma_meta_list_of before_dt chroma_pairs)
          (bm25_contributions before_dt chroma_pairs bm25_rows)).

Definition retrieve_hybrid (query : string) (before_dt : option datetime)
    (ck bk : Z) : list Hit :=
  retrieve_from before_dt
    (similarity_search_with_score query ck) (search query bk).

End Retrieval.

(** [f"[{i}] source: {hit.source} | page: {hit.page} | chunk_id: {hit.chunk_id}\n{chunk_text}\n"] *)
Definition LF : string := String (ascii_of_nat 10) "".

Definition chunk_text_of (hit : Hit) : string :=
  str_take MAX_CHUNK_CHARS (text hit).

Definition context_line (i : Z) (hit : Hit) : string :=
  "[" +:+ py_str i +:+ "] source: " +:+ source hit
    +:+ " | page: " +:+ py_str (page hit)
    +:+ " | chunk_id: " +:+ chunk_id hit +:+ LF
    +:+ chunk_text_of hit +:+ LF.

(** The [lines] list built by the loop over [enumerate(chosen, start=1)]. *)
Definition context_lines (chosen : list Hit) : list string :=
  map (fun ih => context_line (fst ih) (snd ih)) (enumerate 1 chosen).

Definition build_context_block (hits : list Hit) (limit : Z) : string * list Hit :=
  let chosen := py_slice_to hits limit in
  (py_join LF (context_lines chosen), chosen).

(** File-discovery intent: some trigger phrase occurs in the lower-cased
    question. *)
Definition triggers : list string :=
  ["which file"; "what file"; "which document"; "what document";
   "which doc"; "where is the file"; "where can i find the file";
   "which note"; "which txt"; "which pdf"].

Definition is_file_lookup (question : string) : bool :=
  let q := py_lower question in
  existsb (fun trigger => str_contains trigger q) triggers.

(** [build_prompt(question, context_block)] *)
Definition build_prompt (question context_block : string) : string :=
  ("You are a careful research assistant. Answer ONLY using the " +:+
     "sources below." +:+ LF +:+
     "        If the sources do not contain the answer, say you don't " +:+
     "have enough information." +:+ LF +:+
     "        Cite sources inline using square brackets like [1] or " +:+
     "[1][3] at the end of sentences." +:+ LF +:+ LF +:+
     "        Question:" +:+ LF +:+ "        ")
  +:+ question +:+
  (LF +:+ LF +:+ "        Sources:" +:+ LF +:+ "        ")
  +:+ context_block +:+
  (LF +:+ "        ").

(** The first line of a rendered entry, up to and including its line feed. *)
Definition context_header (i : Z) (hit : Hit) : string :=
  "[" +:+ py_str i +:+ "] source: " +:+ source hit
    +:+ " | page: " +:+ py_str (page hit)
    +:+ " | chunk_id: " +:+ chunk_id hit +:+ LF.

End Answer.

(* ====================================================================== *)
(** * More Python string primitives *)
(* ====================================================================== *)

Definition LF : string := Answer.LF.

(** The double quote character. *)
Definition DQ : string := String (ascii_of_nat 34) "".

(** ASCII white space, as [str.strip()] removes it. *)
Definition is_space (c : ascii) : bool :=
  let n := nat_of_ascii c in
  ((9 <=? n) && (n <=? 13) || (28 <=? n) && (n <=? 32))%nat.

Fixpoint py_lstrip (s : string) : string :=
  match s with
  | EmptyString => ""
  | String c s' => if is_space c then py_lstrip s' else s
  end.

(** Drop trailing white space: a character stays when something other
    than white space follows it or it is not white space itself. *)
Fixpoint py_rstrip (s : string) : string :=
  match s with
  | EmptyString => ""
  | String c s' =>
      match py_rstrip s' with
      | EmptyString => if is_space c then "" else String c ""
      | t => String c t
      end
  end.

Definition py_strip (s : string) : string := py_rstrip (py_lstrip s).

(** [c * n] for a one-character string. *)
Fixpoint str_repeat (c : string) (n : nat) : string :=
  match n with
  | O => ""
  | S n' => c +:+ str_repeat c n'
  end.

(** ["=" * 100] *)
Definition RULE : string := str_repeat "=" 100.


(* ====================================================================== *)
(** * The hybrid search command ([hybrid_query.py]) *)
(* ====================================================================== *)

(** [hybrid_query.py] declares the same [Hit] and the same [rrf_add] as
    [answer.py], with a field [snippet] where [answer.py] has [text]; the
    snippet is kept here in the field [text] of the shared record. *)
Module HybridQuery.
Import Answer.

Section Main.

Variable file_mtime : string -> option datetime.
Variable similarity_search_with_score : string -> Z -> list (Document * Q).
Variable search : string -> Z -> list Row.

(** [snippet_from_text], a one-line preview made by [textwrap.shorten]. *)
Variable snippet_from_text : string -> string.

(** The uniform list [chroma_hits], every result with its 1-based rank. *)
Definition chroma_hits_of (chroma_pairs : list (Document * Q)) : list (string * Meta) :=
  map
    (fun ip =>
       let doc := fst (snd ip) in
       (doc_chunk_id doc,
        mkMeta (meta_source doc) (meta_page doc)
          (snippet_from_text (doc_full doc)) (fst ip)))
    (enumerate 1 chroma_pairs).

(** The uniform list [bm25_hits]. *)
Definition bm25_hits_of (bm25_rows : list Row) : list (string * Meta) :=
  map
    (fun ir =>
       let row := snd ir in
       (row_chunk_id row,
        mkMeta (row_source row) (row_page row) (row_snippet row) (fst ir)))
    (enumerate 1 bm25_rows).

(** One fusion loop of [main]: a result without an id or from a file that
    fails the date filter is skipped. *)
Definition fusion_loop (engine : Engine) (before_dt : option datetime)
    (lst : list (string * Meta)) (fused : dict Hit) : dict Hit :=
  fold_left
    (fun acc cm =>
       if py_not_str (fst cm) then acc
       else if negb (passes_before_filter file_mtime (meta_src (snd cm)) before_dt)
       then acc
       else rrf_add acc (fst cm) (meta_rank (snd cm)) engine (snd cm))
    lst fused.

Definition fused_of (before_dt : option datetime)
    (chroma_pairs : list (Document * Q)) (bm25_rows : list Row) : dict Hit :=
  fusion_loop bm25 before_dt (bm25_hits_of bm25_rows)
    (fusion_loop chroma before_dt (chroma_hits_of chroma_pairs) []).

(** [sorted(fused.values(), key=lambda h: h.rrf_score, reverse=True)[: args.k]] *)
Definition ranked_of (before_dt : option datetime)
    (chroma_pairs : list (Document * Q)) (bm25_rows : list Row) (k : Z) : list Hit :=
  py_slice_to (rank_fused (fused_of before_dt chroma_pairs bm25_rows)) k.

(** The list [main] logs for a query (nothing when the dict is empty). *)
Definition main_ranked (query : string) (k : Z) (before_dt : option datetime)
    (ck bk : Z) : list Hit :=
  ranked_of before_dt (similarity_search_with_score query ck) (search query bk) k.

(** The results the loops accept. *)
Definition accepts (before_dt : option datetime) (cm : string * Meta) : bool :=
  negb (py_not_str (fst cm)) &&
  passes_before_filter file_mtime (meta_src (snd cm)) before_dt.

End Main.

End HybridQuery.

(* ====================================================================== *)
(** * Vocabulary for the statements about fusion *)
(* ====================================================================== *)

Module FusionSpec.
Import Answer.

(** The contributions of one list to the chunk [k]. *)
Definition occurrences (k : string) (lst : list (string * Meta)) : list (string * Meta) :=
  filter (fun cm => String.eqb (fst cm) k) lst.

(** What one accepted contribution does to the entry of its chunk. *)
Definition bump (engine : Engine) (k : string) (o : option Hit) (cm : string * Meta)
    : option Hit :=
  let meta := snd cm in
  Some (set_rank engine (meta_rank meta)
          (add_score (rrf_increment (meta_rank meta))
             (get_default o (fresh_hit k meta)))).

(** The entry of chunk [k] after its contributions [occ] from one engine. *)
Definition hit_after (engine : Engine) (k : string) (occ : list (string * Meta))
    (o : option Hit) : option Hit :=
  fold_left (bump engine k) occ o.

(** Sum of [1/(K + p)] over a list of positions. *)
Definition rrf_sum (positions : list Z) : Q :=
  fold_right (fun p acc => (rrf_increment p + acc)%Q) 0%Q positions.

(** The last position of a list, if any: the value a rank field ends with. *)
Definition last_position (positions : list Z) : option Z :=
  fold_left (fun _ p => Some p) positions None.

(** The contribution of a rank field: nothing when the engine is absent. *)
Definition rank_increment (r : option Z) : Q :=
  match r with
  | Some p => rrf_increment p
  | None => 0%Q
  end.

(** The rank field an engine writes, and the other engine. *)
Definition rank_of (engine : Engine) (h : Hit) : option Z :=
  match engine with
  | chroma => chroma_rank h
  | bm25 => bm25_rank h
  end.

Definition other (engine : Engine) : Engine :=
  match engine with
  | chroma => bm25
  | bm25 => chroma
  end.

Definition ranks_of (occ : list (string * Meta)) : list Z :=
  map (fun cm => meta_rank (snd cm)) occ.

Definition ids_of (lst : list (string * Meta)) : list string := map fst lst.

(** Keys of a dict that starts with keys [acc] and then sees [l]. *)
Definition first_seen (acc l : list string) : list string :=
  fold_left (fun acc k => if existsb (String.eqb k) acc then acc else acc ++ [k]) l acc.

(** [x] is met in [l] before [y] is met for the first time. *)
Definition discovered_before (x y : string) (l : list string) : Prop :=
  exists d1 d2 d3,
    l = d1 ++ x :: d2 ++ y :: d3 /\ ~ In x d1 /\ ~ In y (d1 ++ x :: d2).

(** A fusion dict is keyed by the chunk id of its entries, without
    repetition and without the empty id. *)
Definition well_keyed (fused : dict Hit) : Prop :=
  NoDup (dict_keys fused) /\
  forall k h, In (k, h) fused -> chunk_id h = k /\ py_not_str k = false.

Definition nonempty_ids (lst : list (string * Meta)) : Prop :=
  Forall (fun cm => py_not_str (fst cm) = false) lst.

Section Positions.
Variable file_mtime : string -> option datetime.

(** 1-based positions at which the semantic engine returned chunk [k] from
    a file that passes the date filter. *)
Definition chroma_positions (before_dt : option datetime)
    (chroma_pairs : list (Document * Q)) (k : string) : list Z :=
  map fst
    (filter
       (fun ip =>
          String.eqb (doc_chunk_id (fst (snd ip))) k &&
          passes_before_filter file_mtime (meta_source (fst (snd ip))) before_dt)
       (enumerate 1 chroma_pairs)).

(** The same for the keyword engine. *)
Definition bm25_positions (before_dt : option datetime)
    (bm25_rows : list Row) (k : string) : list Z :=
  map fst
    (filter
       (fun ir =>
          String.eqb (row_chunk_id (snd ir)) k &&
          passes_before_filter file_mtime (row_source (snd ir)) before_dt)
       (enumerate 1 bm25_rows)).

(** The first result of the semantic engine for chunk [k] that passes the
    date filter. *)
Definition first_chroma_doc (before_dt : option datetime)
    (chroma_pairs : list (Document * Q)) (k : string) : option Document :=
  option_map fst
    (find
       (fun dd =>
          String.eqb (doc_chunk_id (fst dd)) k &&
          passes_before_filter file_mtime (meta_source (fst dd)) before_dt)
       chroma_pairs).

(** Chunk ids in the order the fusion meets them: the accepted results of
    the semantic engine in their order, then those of the keyword engine. *)
Definition accepted_chroma_ids (before_dt : option datetime)
    (chroma_pairs : list (Document * Q)) : list string :=
  map (fun dd => doc_chunk_id (fst dd))
    (filter
       (fun dd =>
          negb (py_not_str (doc_chunk_id (fst dd))) &&
          passes_before_filter file_mtime (meta_source (fst dd)) before_dt)
       chroma_pairs).

Definition accepted_bm25_ids (before_dt : option datetime)
    (bm25_rows : list Row) : list string :=
  map row_chunk_id
    (filter
       (fun row =>
          negb (py_not_str (row_chunk_id row)) &&
          passes_before_filter file_mtime (row_source row) before_dt)
       bm25_rows).

Definition discovery_order (before_dt : option datetime)
    (chroma_pairs : list (Document * Q)) (bm25_rows : list Row) : list string :=
  accepted_chroma_ids before_dt chroma_pairs ++ accepted_bm25_ids before_dt bm25_rows.

(** The score of a hit is the sum of [1/(60 + p)] over the positions at
    which the engines returned its chunk, its rank fields hold the last
    such position of each engine, and some engine returned it.  With one
    position in a single engine the score is that term; with one position
    [rs], [rk] in each it is [1/(60 + rs) + 1/(60 + rk)], more than either
    term. *)
Definition score_is_rrf_sum (before_dt : option datetime)
    (chroma_pairs : list (Document * Q)) (bm25_rows : list Row) (h : Hit) : Prop :=
  let cpos := chroma_positions before_dt chroma_pairs (chunk_id h) in
  let bpos := bm25_positions before_dt bm25_rows (chunk_id h) in
  (rrf_score h == rrf_sum cpos + rrf_sum bpos)%Q /\
  chroma_rank h = last_position cpos /\
  bm25_rank h = last_position bpos /\
  (cpos <> [] \/ bpos <> []) /\
  (forall rs, cpos = [rs] -> bpos = [] ->
     (rrf_score h == 1 / inject_Z (60 + rs))%Q) /\
  (forall rk, cpos = [] -> bpos = [rk] ->
     (rrf_score h == 1 / inject_Z (60 + rk))%Q) /\
  (forall rs rk, cpos = [rs] -> bpos = [rk] ->
     chroma_rank h = Some rs /\ bm25_rank h = Some rk /\
     (rrf_score h == 1 / inject_Z (60 + rs) + 1 / inject_Z (60 + rk))%Q /\
     (1 / inject_Z (60 + rs) < rrf_score h)%Q /\
     (1 / inject_Z (60 + rk) < rrf_score h)%Q).

(** [h1] may stand before [h2] among hits of equal score: its chunk was
    discovered first; if [h2] comes from the semantic engine so does [h1];
    and of two hits of the semantic engine, or of two keyword-only hits,
    [h1] is the one at the smaller position of that engine's list. *)
Definition ordered_by_discovery (before_dt : option datetime)
    (chroma_pairs : list (Document * Q)) (bm25_rows : list Row) (h1 h2 : Hit) : Prop :=
  discovered_before (chunk_id h1) (chunk_id h2)
    (discovery_order before_dt chroma_pairs bm25_rows) /\
  (chroma_rank h2 <> None -> chroma_rank h1 <> None) /\
  (forall r1 r2,
     chroma_positions before_dt chroma_pairs (chunk_id h1) = [r1] ->
     chroma_positions before_dt chroma_pairs (chunk_id h2) = [r2] ->
     r1 < r2) /\
  (forall r1 r2,
     chroma_rank h1 = None -> chroma_rank h2 = None ->
     bm25_positions before_dt bm25_rows (chunk_id h1) = [r1] ->
     bm25_positions before_dt bm25_rows (chunk_id h2) = [r2] ->
     r1 < r2).

(** A ranked list is in descending order of score, with ties in discovery
    order. *)
Definition sorted_with_discovery_ties (before_dt : option datetime)
    (chroma_pairs : list (Document * Q)) (bm25_rows : list Row) (out : list Hit) : Prop :=
  StronglySorted (score_ge rrf_score) out /\
  forall (l1 : list Hit) (h1 : Hit) (l2 : list Hit) (h2 : Hit) (l3 : list Hit),
    out = l1 ++ h1 :: l2 ++ h2 :: l3 ->
    (rrf_score h1 == rrf_score h2)%Q ->
    ordered_by_discovery before_dt chroma_pairs bm25_rows h1 h2.

End Positions.

End FusionSpec.

Module FusionEntry.
Import Answer FusionSpec.

(** The payload a hit carries is that of the contribution that created it. *)
Definition created_from (h : Hit) (cm : string * Meta) : Prop :=
  source h = meta_src (snd cm) /\
  page h = meta_pg (snd cm) /\
  text h = meta_text (snd cm).

(** The first contribution to a chunk, semantic engine first. *)
Definition creator (occC occB : list (string * Meta)) : option (string * Meta) :=
  match occC, occB with
  | cm :: _, _ => Some cm
  | [], cm :: _ => Some cm
  | [], [] => None
  end.

End FusionEntry.

(* ====================================================================== *)
(** * Positions in one engine's result list *)
(* ====================================================================== *)

Section PositionalDefs.
Context {X : Type}.
Variable idf : X -> string.
Variable pass : X -> bool.

Definition by_position (a b : Z * X) : Prop := fst a < fst b.

(** The ids of the results the fusion accepts, in the engine's order. *)
Definition accepted (l : list X) : list string :=
  map idf (filter (fun x => negb (py_not_str (idf x)) && pass x) l).

(** The 1-based positions of the accepted results for chunk [k]. *)
Definition positions (l : list X) (k : string) : list Z :=
  map fst (filter (fun ix => String.eqb (idf (snd ix)) k && pass (snd ix))
             (enumerate 1 l)).

End PositionalDefs.

(* ====================================================================== *)
(** * A small corpus used in the examples *)
(* ====================================================================== *)

Module Example.
Import Answer.

(** Modification times: rome.pdf at 100, late_roman.txt at 300, gone.txt
    has no readable time. *)
Definition file_mtime (path : string) : option datetime :=
  if String.eqb path "rome.pdf" then Some 100
  else if String.eqb path "late_roman.txt" then Some 300
  else None.

Definition doc_rome : Document :=
  mkDocument (Some "the Vandals captured Rome in 455")
    (mkMetadata (Some "rome.pdf") (Some 46) (Some "rome.pdf:46:0")).

Definition doc_late : Document :=
  mkDocument (Some "in AD 455, Gaiseric led the sack of Rome")
    (mkMetadata (Some "late_roman.txt") None (Some "late_roman.txt:0:3")).

Definition row_late : Row :=
  mkRow "late_roman.txt:0:3" "late_roman.txt" 0 "[Gaiseric] led" None.

Definition row_rome : Row :=
  mkRow "rome.pdf:46:0" "rome.pdf" 46 "captured [Rome]" None.

Definition row_gone : Row :=
  mkRow "gone.txt:0:0" "gone.txt" 0 "sack of [Rome]" None.

Definition row_only : Row :=
  mkRow "rome.pdf:47:0" "rome.pdf" 47 "[Rome] again" None.

(** The semantic engine answers every query with rome, then late_roman. *)
Definition similarity_search_with_score (query : string) (k : Z)
    : list (Document * Q) :=
  [(doc_rome, 1 # 10); (doc_late, 2 # 10)]%Q.

(** The keyword engine answers with late_roman, rome, gone and a chunk of
    rome.pdf that the semantic engine did not return. *)
Definition search (query : string) (k : Z) : list Row :=
  [row_late; row_rome; row_gone; row_only].

(** The full-text table has no row for the chunk [rome.pdf:47:0]. *)
Definition chunks_fts : list (string * string) :=
  [("rome.pdf:46:0", "the Vandals captured Rome in 455");
   ("gone.txt:0:0", "the sack of Rome")].

Definition hits_no_cutoff : list Hit :=
  retrieve_hybrid file_mtime similarity_search_with_score search chunks_fts
    "who captured Rome" None 8 20.

Definition hits_before_200 : list Hit :=
  retrieve_hybrid file_mtime similarity_search_with_score search chunks_fts
    "who captured Rome" (Some 200) 8 20.

(** The fused hit of [rome.pdf:46:0]: semantic rank 1, keyword rank 2. *)
Definition hit_rome : Hit :=
  mkHit "rome.pdf:46:0" "rome.pdf" 46 "the Vandals captured Rome in 455"
    (Some 1) (Some 2) (0 + 1 / inject_Z (60 + 1) + 1 / inject_Z (60 + 2))%Q.

Definition hit_late : Hit :=
  mkHit "late_roman.txt:0:3" "late_roman.txt" 0
    "in AD 455, Gaiseric led the sack of Rome" (Some 2) (Some 1)
    (0 + 1 / inject_Z (60 + 2) + 1 / inject_Z (60 + 1))%Q.

Definition hit_only : Hit :=
  mkHit "rome.pdf:47:0" "rome.pdf" 47 "" None (Some 4)
    (0 + 1 / inject_Z (60 + 4))%Q.

End Example.

(* ====================================================================== *)
(** * The tool agent loop ([llm_agent.py]) *)
(* ====================================================================== *)

Module LlmAgent.
Import Answer.

Definition MAX_STEPS_DEFAULT : Z := 4.

Definition SYSTEM_PROMPT : string :=
  "You are a helpful research assistant with tool access." +:+ LF +:+
    "Decide which tool to use and in what order. Use short reasoning " +:+
    "and act." +:+ LF +:+ LF +:+ "TOOLS(Action -> Args JSON):" +:+ LF +:+
    "- bm25_search: {" +:+ DQ +:+ "query" +:+ DQ +:+ ": str, " +:+ DQ +:+
    "k" +:+ DQ +:+ ": int?}" +:+ LF +:+ "- chroma_search: {" +:+ DQ +:+
    "query" +:+ DQ +:+ ": str, " +:+ DQ +:+ "k" +:+ DQ +:+ ": int?}" +:+ LF +:+
    "- hybrid_retrieve: {" +:+ DQ +:+ "query" +:+ DQ +:+ ": str, " +:+ DQ +:+
    "ck" +:+ DQ +:+ ": int?, " +:+ DQ +:+ "bk" +:+ DQ +:+ ": int?, " +:+ DQ +:+
    "k_ctx" +:+ DQ +:+ ": int?}" +:+ LF +:+ "- final_answer: {" +:+ DQ +:+
    "question" +:+ DQ +:+ ": str, " +:+ DQ +:+ "context_block" +:+ DQ +:+
    ": str}" +:+ LF +:+ LF +:+ "Protocol you MUST follow:" +:+ LF +:+
    "1) To call a tool, output EXACTLY:" +:+ LF +:+
    "   Action: <bm25_search|chroma_search|hybrid_retrieve|final_answer>" +:+
    LF +:+ "   Args: {" +:+ DQ +:+ "key" +:+ DQ +:+ ": " +:+ DQ +:+ "value" +:+
    DQ +:+ ", ...}" +:+ LF +:+ "2) When you are ready to answer, output:" +:+
    LF +:+ "   FinalAnswer: <final user-facing text>" +:+ LF +:+
    "3) Always choose an action. Do not ask the user to rephrase." +:+ LF +:+
    LF +:+ "Guidance:" +:+ LF +:+ "-If user asks " +:+ DQ +:+
    "which/what file/doc" +:+ DQ +:+
    ", prefer bm25_search first (you can stop there)." +:+ LF +:+
    "-If user asks who/what/when/why/how, call hybrid_retrieve then " +:+
    "final_answer." +:+ LF +:+
    "-Use at most 4 actions. Cite sources only via final_answer." +:+ LF.

(** The roles a transcript entry can have. *)
Inductive Role : Type := system | user | assistant | tool.

(** [role.upper()] *)
Definition role_upper (r : Role) : string :=
  match r with
  | system => "SYSTEM"
  | user => "USER"
  | assistant => "ASSISTANT"
  | tool => "TOOL"
  end.

Definition Transcript : Type := list (Role * string).

(** The result of a call that may raise: the message of the exception, or
    the value returned. *)
Inductive Exc (A : Type) : Type :=
| Raised (msg : string)
| Ok (a : A).
Arguments Raised {A} msg.
Arguments Ok {A} a.

(** The keys of the tool registry [TOOLS]. *)
Inductive Tool : Type := bm25_search | chroma_search | hybrid_retrieve | final_answer.

(** [TOOLS.get(tool_name)] *)
Definition TOOLS_get (tool_name : string) : option Tool :=
  if String.eqb tool_name "bm25_search" then Some bm25_search
  else if String.eqb tool_name "chroma_search" then Some chroma_search
  else if String.eqb tool_name "hybrid_retrieve" then Some hybrid_retrieve
  else if String.eqb tool_name "final_answer" then Some final_answer
  else None.

(** One row of [tool_chroma]. *)
Record ChromaRow : Type := mkChromaRow {
  cr_id : string;
  cr_source : string;
  cr_page : Z;
  cr_distance : Q
}.

(** The dict a tool returns, by tool:
    [{"rows"}], [{"rows"}], [{"context_block", "hits", "num_hits"}],
    [{"answer"}]. *)
Inductive ToolResult : Type :=
| Bm25Result (rows : list Row)
| ChromaResult (rows : list ChromaRow)
| HybridResult (context_block : string) (hits : list Hit) (num_hits : Z)
| FinalAnswerResult (answer : string).

(** What the run does to the outside, in order. *)
Inductive Event : Type :=
| ModelTurn (convo_text : string)
| ToolCall (t : Tool)
| WriterCall (prompt : string).

(** The local variables of [run_agent], and the events so far. *)
Record State : Type := mkState {
  transcript : Transcript;
  last_context_block : option string;
  last_chosen_hits : option (list Hit);
  last_bm25_rows : option (list Row);
  events : list Event
}.

(** The [return] statement by which a run ends. *)
Inductive Terminal : Type :=
| FinalAnswer (out : string)
| FallbackAnswer (out : string)
| CouldNotDecide
| OutOfSteps.

Definition COULD_NOT_DECIDE : string :=
  "I couldn't decide on a tool. Please rephrase or be more specific.".

Definition OUT_OF_STEPS : string :=
  "I ran out of steps before reaching a final answer.".

(** The string [run_agent] returns. *)
Definition returned (t : Terminal) : string :=
  match t with
  | FinalAnswer out => out
  | FallbackAnswer out => out
  | CouldNotDecide => COULD_NOT_DECIDE
  | OutOfSteps => OUT_OF_STEPS
  end.

(** What the body of the loop does: [return] or go on to the next step. *)
Inductive StepResult : Type :=
| Return (t : Terminal) (st : State)
| Continue (st : State).

(** [range(a, b)] *)
Definition py_range (a b : Z) : list Z :=
  map (fun i => a + Z.of_nat i) (seq 0 (Z.to_nat (b - a))).

(** Truthiness of an optional string and of an optional list. *)
Definition truthy_str (o : option string) : bool :=
  match o with
  | Some (String _ _) => true
  | _ => false
  end.

Definition truthy_list {A : Type} (o : option (list A)) : bool :=
  match o with
  | Some (_ :: _) => true
  | _ => false
  end.

(** [f"[{i}] {h['source']} | p{h['page']} | {h['chunk_id']}"] for each hit. *)
Definition source_lines (hits : list Hit) : list string :=
  map (fun ih =>
         "[" +:+ py_str (fst ih) +:+ "] " +:+ source (snd ih) +:+ " | p"
           +:+ py_str (page (snd ih)) +:+ " | " +:+ chunk_id (snd ih))
      (enumerate 1 hits).

(** The ANSWER / SOURCES block. *)
Definition answer_block (answer_text : string) (hits : list Hit) : string :=
  py_join LF
    ([LF +:+ RULE; "ANSWER:" +:+ LF; py_strip answer_text; LF +:+ "SOURCES:"]
       ++ source_lines hits ++ [RULE +:+ LF]).

Definition append_turn (st : State) (r : Role) (content : string) : State :=
  mkState (transcript st ++ [(r, content)]) (last_context_block st)
    (last_chosen_hits st) (last_bm25_rows st) (events st).

Definition log_event (st : State) (e : Event) : State :=
  mkState (transcript st) (last_context_block st)
    (last_chosen_hits st) (last_bm25_rows st) (events st ++ [e]).

(** The capture of state after a successful tool call. *)
Definition capture (t : Tool) (result : ToolResult) (st : State) : State :=
  match t, result with
  | hybrid_retrieve, HybridResult context_block hits _ =>
      mkState (transcript st) (Some context_block) (Some hits)
        (last_bm25_rows st) (events st)
  | bm25_search, Bm25Result rows =>
      mkState (transcript st) (last_context_block st) (last_chosen_hits st)
        (Some rows) (events st)
  | _, _ => st
  end.

Section Agent.

(** The collaborators of the loop: the chat model (its reply, stripped),
    the two protocol patterns, the JSON parser, the four tool executors
    applied to parsed arguments, the JSON printer, the answer writer, and
    the rendering of the ranked file list. *)
Variable Args : Type.
Variable llm_invoke : string -> string.
Variable FINAL_RE_search : string -> option string.
Variable ACTION_RE_search : string -> option (string * string).
Variable json_loads : string -> option Args.
Variable tool_bm25 : Args -> Exc (list Row).
Variable tool_chroma : Args -> Exc (list ChromaRow).
Variable tool_hybrid : Args -> Exc (string * list Hit * Z).
Variable tool_final_answer : Args -> Exc string.
Variable json_dumps : ToolResult -> string.
Variable call_llm_writer : string -> string.
Variable render_file_list : list Row -> string.

(** The call of the registered tool [t] on the parsed arguments. *)
Definition call_tool (t : Tool) (args : Args) : Exc ToolResult :=
  match t with
  | bm25_search =>
      match tool_bm25 args with
      | Raised e => Raised e
      | Ok rows => Ok (Bm25Result rows)
      end
  | chroma_search =>
      match tool_chroma args with
      | Raised e => Raised e
      | Ok rows => Ok (ChromaResult rows)
      end
  | hybrid_retrieve =>
      match tool_hybrid args with
      | Raised e => Raised e
      | Ok (context_block, hits, num_hits) =>
          Ok (HybridResult context_block hits num_hits)
      end
  | final_answer =>
      match tool_final_answer args with
      | Raised e => Raised e
      | Ok answer => Ok (FinalAnswerResult answer)
      end
  end.

(** The flattened transcript sent to the model. *)
Definition convo_text_of (tr : Transcript) : string :=
  py_join (LF +:+ LF)
    (map (fun rc => role_upper (fst rc) +:+ ": " +:+ snd rc) tr).

(** The text returned when the reply carries a FinalAnswer. *)
Definition format_final (final_text : string) (st : State) : string :=
  if truthy_list (last_chosen_hits st)
  then answer_block final_text (get_default (last_chosen_hits st) [])
  else if truthy_list (last_bm25_rows st)
  then render_file_list (get_default (last_bm25_rows st) [])
  else final_text.

(** The observation appended after a successful tool call. *)
Definition observation (result : ToolResult) : string :=
  let obs_str := json_dumps result in
  "Observation:" +:+
    (if (4000 <? String.length obs_str)%nat
     then str_take 4000 obs_str +:+ "...(truncated)"
     else obs_str).

(** The body of [for step in range(1, max_steps+1)]. *)
Definition agent_step (question : string) (max_steps step : Z) (st : State)
    : StepResult :=
  let convo_text := convo_text_of (transcript st) in
  let model_text := llm_invoke convo_text in
  let st := append_turn (log_event st (ModelTurn convo_text)) assistant model_text in
  match FINAL_RE_search model_text with
  | Some text => Return (FinalAnswer (format_final (py_strip text) st)) st
  | None =>
      match ACTION_RE_search model_text with
      | None =>
          if step =? max_steps then
            match last_context_block st with
            | Some (String c s) =>
                let prompt := build_prompt question (String c s) in
                let fallback_answer := call_llm_writer prompt in
                Return
                  (FallbackAnswer
                     (answer_block fallback_answer
                        (if truthy_list (last_chosen_hits st)
                         then get_default (last_chosen_hits st) [] else [])))
                  (log_event st (WriterCall prompt))
            | _ => Return CouldNotDecide st
            end
          else
            Continue
              (append_turn st tool
                 "Observation:invalid or missing Action/Args. Try again.")
      | Some (tool_group, json_group) =>
          let tool_name := py_strip tool_group in
          match json_loads json_group with
          | None =>
              Continue
                (append_turn st tool "Observation:Args JSON could not be parsed.")
          | Some args =>
              match TOOLS_get tool_name with
              | None =>
                  Continue
                    (append_turn st tool
                       ("Observation:unknown tool '" +:+ tool_name +:+ "'."))
              | Some t =>
                  let st := log_event st (ToolCall t) in
                  match call_tool t args with
                  | Raised e =>
                      Continue
                        (append_turn st tool
                           ("Observation:tool '" +:+ tool_name
                              +:+ "' errored:" +:+ e))
                  | Ok result =>
                      Continue
                        (append_turn (capture t result st) tool
                           (observation result))
                  end
              end
          end
      end
  end.

(** The [for] loop over the remaining steps, and the [return] after it. *)
Fixpoint run_steps (question : string) (max_steps : Z) (steps : list Z)
    (st : State) : Terminal * State :=
  match steps with
  | [] => (OutOfSteps, st)
  | step :: rest =>
      match agent_step question max_steps step st with
      | Return t st' => (t, st')
      | Continue st' => run_steps question max_steps rest st'
      end
  end.

Definition initial_state (question : string) : State :=
  mkState [(system, SYSTEM_PROMPT); (user, question)] None None None [].

(** [run_agent] with the state it ends in. *)
Definition run_agent_trace (question : string) (max_steps : Z) : Terminal * State :=
  run_steps question max_steps (py_range 1 (max_steps + 1)) (initial_state question).

Definition run_agent (question : string) (max_steps : Z) : string :=
  returned (fst (run_agent_trace question max_steps)).

(** The state right after the model's reply has been appended. *)
Definition after_reply (st : State) : State :=
  append_turn (log_event st (ModelTurn (convo_text_of (transcript st))))
    assistant (llm_invoke (convo_text_of (transcript st))).

End Agent.

(** The number of model turns among the events. *)
Definition model_turns (st : State) : Z :=
  Z.of_nat
    (List.length
       (filter (fun e => match e with ModelTurn _ => true | _ => false end)
          (events st))).

Definition writer_calls (st : State) : Z :=
  Z.of_nat
    (List.length
       (filter (fun e => match e with WriterCall _ => true | _ => false end)
          (events st))).

(** The transcript ends with the model's reply. *)
Definition ends_with_reply (st : State) (reply : string) : Prop :=
  exists before, transcript st = before ++ [(assistant, reply)].

(** The transcript ends with the model's reply and the observation that
    answered it. *)
Definition ends_with_observation (st : State) (reply : string) : Prop :=
  exists before obs, transcript st = before ++ [(assistant, reply); (tool, obs)].

Section Terminals.

Variable FINAL_RE_search : string -> option string.
Variable ACTION_RE_search : string -> option (string * string).
Variable call_llm_writer : string -> string.
Variable render_file_list : list Row -> string.

(** The reply carries neither a FinalAnswer nor an Action. *)
Definition unparseable (reply : string) : Prop :=
  FINAL_RE_search reply = None /\ ACTION_RE_search reply = None.

(** The reply carries an Action and no FinalAnswer. *)
Definition is_action (reply : string) : Prop :=
  FINAL_RE_search reply = None /\ ACTION_RE_search reply <> None.

(** What each way of ending a run says about the state it ends in. *)
Definition terminal_spec (question : string) (max_steps : Z)
    (t : Terminal) (st : State) : Prop :=
  match t with
  | FinalAnswer out =>
      writer_calls st = 0 /\
      exists reply text,
        ends_with_reply st reply /\ FINAL_RE_search reply = Some text /\
        out = format_final render_file_list (py_strip text) st
  | FallbackAnswer out =>
      model_turns st = max_steps /\ writer_calls st = 1 /\
      exists reply c,
        ends_with_reply st reply /\ unparseable reply /\
        last_context_block st = Some c /\ c <> "" /\
        out = answer_block (call_llm_writer (build_prompt question c))
                (if truthy_list (last_chosen_hits st)
                 then get_default (last_chosen_hits st) [] else [])
  | CouldNotDecide =>
      model_turns st = max_steps /\ writer_calls st = 0 /\
      truthy_str (last_context_block st) = false /\
      exists reply, ends_with_reply st reply /\ unparseable reply
  | OutOfSteps =>
      writer_calls st = 0 /\
      ((max_steps <= 0 /\ model_turns st = 0) \/
       (1 <= max_steps /\ model_turns st = max_steps /\
        exists reply, ends_with_observation st reply /\ is_action reply))
  end.

(** What holds of the state with which step [a] of the loop starts. *)
Definition loop_invariant (max_steps a : Z) (st : State) : Prop :=
  model_turns st = a - 1 /\ writer_calls st = 0 /\
  (a = 1 \/
   exists reply,
     ends_with_observation st reply /\ FINAL_RE_search reply = None /\
     (ACTION_RE_search reply <> None \/ a - 1 < max_steps)).

End Terminals.

End LlmAgent.

(* ====================================================================== *)
(** * The two protocol patterns on ASCII text *)
(* ====================================================================== *)

(** A reading of [FINAL_RE] and [ACTION_RE] (both with [re.DOTALL] and
    [re.IGNORECASE]) on ASCII text.  The statements about the loop hold for
    any pair of search functions; these instantiate them in the examples. *)
Module AsciiProtocol.

Definition to_lower (c : ascii) : ascii :=
  let n := nat_of_ascii c in
  if ((65 <=? n) && (n <=? 90))%nat then ascii_of_nat (n + 32) else c.

(** [\w] on ASCII. *)
Definition is_word (c : ascii) : bool :=
  let n := nat_of_ascii c in
  ((48 <=? n) && (n <=? 57) || (65 <=? n) && (n <=? 90)
   || (97 <=? n) && (n <=? 122) || (n =? 95))%nat.

(** The rest of [s] after the lower-case pattern [pat], matched without
    regard to case at the start of [s]. *)
Fixpoint ci_prefix (pat s : string) : option string :=
  match pat, s with
  | EmptyString, _ => Some s
  | String p pat', String c s' =>
      if Ascii.eqb p (to_lower c) then ci_prefix pat' s' else None
  | String _ _, EmptyString => None
  end.

(** The longest prefix whose characters satisfy [p], and the rest. *)
Fixpoint span (p : ascii -> bool) (s : string) : string * string :=
  match s with
  | EmptyString => ("", "")
  | String c s' =>
      if p c then let (a, b) := span p s' in (String c a, b) else ("", s)
  end.

Fixpoint last_char (s : string) : option ascii :=
  match s with
  | EmptyString => None
  | String c EmptyString => Some c
  | String _ s' => last_char s'
  end.

(** Up to and including the first closing brace. *)
Fixpoint upto_close (s : string) : option string :=
  match s with
  | EmptyString => None
  | String c s' =>
      if Ascii.eqb c "}" then Some "}"
      else option_map (String c) (upto_close s')
  end.

(** [\s*(?P<text>.+)] on what follows [FinalAnswer:]. *)
Definition final_group (rest : string) : option string :=
  match rest with
  | EmptyString => None
  | String _ _ =>
      match py_lstrip rest with
      | EmptyString => option_map (fun c => String c "") (last_char rest)
      | t => Some t
      end
  end.

(** [FINAL_RE.search(s)], the group [text]. *)
Fixpoint FINAL_RE_search (s : string) : option string :=
  let here :=
    match ci_prefix "finalanswer:" s with
    | Some rest => final_group rest
    | None => None
    end in
  match here, s with
  | Some t, _ => Some t
  | None, EmptyString => None
  | None, String _ s' => FINAL_RE_search s'
  end.

(** [\s*(?P<tool>\w+)\s*?\nArgs:\s*(?P<json>\{.*?})] on what follows
    [Action:]. *)
Definition action_groups (rest : string) : option (string * string) :=
  let (w, r2) := span is_word (py_lstrip rest) in
  match w with
  | EmptyString => None
  | String _ _ =>
      let (ws, r3) := span is_space r2 in
      match last_char ws with
      | Some c =>
          if Ascii.eqb c (ascii_of_nat 10) then
            match ci_prefix "args:" r3 with
            | Some r4 =>
                match py_lstrip r4 with
                | String b r5 =>
                    if Ascii.eqb b "{" then
                      option_map (fun body => (w, String "{" body)) (upto_close r5)
                    else None
                | EmptyString => None
                end
            | None => None
            end
          else None
      | None => None
      end
  end.

(** [ACTION_RE.search(s)], the groups [tool] and [json]. *)
Fixpoint ACTION_RE_search (s : string) : option (string * string) :=
  let here :=
    match ci_prefix "action:" s with
    | Some rest => action_groups rest
    | None => None
    end in
  match here, s with
  | Some g, _ => Some g
  | None, EmptyString => None
  | None, String _ s' => ACTION_RE_search s'
  end.

End AsciiProtocol.

(* ====================================================================== *)
(** * Example collaborators for the agent loop *)
(* ====================================================================== *)

Module AgentExample.
Import Answer LlmAgent.

(** [{"query": "Rome"}] *)
Definition query_args : string :=
  "{" +:+ DQ +:+ "query" +:+ DQ +:+ ": " +:+ DQ +:+ "Rome" +:+ DQ +:+ "}".

(** A model that always asks for a hybrid retrieval. *)
Definition llm_hybrid (convo_text : string) : string :=
  "Action: hybrid_retrieve" +:+ LF +:+ "Args: " +:+ query_args.

(** A model that asks for a tool outside the registry. *)
Definition llm_unknown (convo_text : string) : string :=
  "Action: web_search" +:+ LF +:+ "Args: " +:+ query_args.

(** A model whose arguments are not JSON. *)
Definition llm_bad_json (convo_text : string) : string :=
  "Action: hybrid_retrieve" +:+ LF +:+ "Args: {query: Rome}".

(** A model that asks for the keyword search. *)
Definition llm_bm25 (convo_text : string) : string :=
  "Action: bm25_search" +:+ LF +:+ "Args: " +:+ query_args.

(** [json.loads] on the argument texts of these models. *)
Definition json_loads (s : string) : option string :=
  if String.eqb s query_args then Some s else None.

Definition tool_bm25_down (args : string) : Exc (list Row) :=
  Raised "unable to open database file".

Definition tool_chroma (args : string) : Exc (list ChromaRow) := Ok [].

Definition context_rome : string :=
  fst (build_context_block [Example.hit_rome] 6).

Definition tool_hybrid (args : string) : Exc (string * list Hit * Z) :=
  Ok (context_rome, [Example.hit_rome], 1).

Definition tool_final_answer (args : string) : Exc string :=
  Ok "The Vandals captured Rome in 455. [1]".

Definition json_dumps (r : ToolResult) : string :=
  match r with
  | HybridResult _ _ _ => "{hybrid}"
  | Bm25Result _ => "{bm25}"
  | ChromaResult _ => "{chroma}"
  | FinalAnswerResult _ => "{answer}"
  end.

Definition call_llm_writer (prompt : string) : string :=
  "The Vandals captured Rome in 455. [1]".

Definition render_file_list (rows : list Row) : string := "FILES".

(** A run with the given chat model and the collaborators above. *)
Definition run (llm : string -> string) (question : string) (max_steps : Z)
    : Terminal * State :=
  run_agent_trace string llm AsciiProtocol.FINAL_RE_search
    AsciiProtocol.ACTION_RE_search json_loads tool_bm25_down tool_chroma
    tool_hybrid tool_final_answer json_dumps call_llm_writer render_file_list
    question max_steps.

Definition step_of (llm : string -> string) (question : string)
    (max_steps step : Z) (st : State) : StepResult :=
  agent_step string llm AsciiProtocol.FINAL_RE_search
    AsciiProtocol.ACTION_RE_search json_loads tool_bm25_down tool_chroma
    tool_hybrid tool_final_answer json_dumps call_llm_writer render_file_list
    question max_steps step st.

End AgentExample.

(* ====================================================================== *)
(** * The rule-based router ([router_agent.py]) and the HTTP route
      ([server.py]) *)
(* ====================================================================== *)

(** What a run of the router does to the outside, in order: a hybrid
    retrieval with its query, depths and result, a call of the generative
    model, a line printed. *)
Inductive Effect : Type :=
| Retrieved (query : string) (ck bk : Z) (hits : list Answer.Hit)
| Generated (prompt : string)
| Printed (line : string).

Definition is_generated (e : Effect) : bool :=
  match e with
  | Generated _ => true
  | _ => false
  end.

Definition is_retrieved (e : Effect) : bool :=
  match e with
  | Retrieved _ _ _ _ => true
  | _ => false
  end.

Module RouterAgent.
Import Answer.

Definition is_letter (c : ascii) : bool :=
  let n := nat_of_ascii c in
  ((65 <=? n) && (n <=? 90) || (97 <=? n) && (n <=? 122))%nat.

(** [[A-Za-z0-9_-]] *)
Definition is_brand_char (c : ascii) : bool :=
  let n := nat_of_ascii c in
  (is_letter c || (48 <=? n) && (n <=? 57) || (n =? 95) || (n =? 45))%nat.

Definition emit (cur : string) : list string :=
  if (3 <=? String.length cur)%nat then [cur] else [].

(** [BRANDY.finditer]: the matches of [[A-Za-z][A-Za-z0-9_-]{2,}], left to
    right; [cur] is the match in progress. *)
Fixpoint brandy_from (cur : string) (s : string) : list string :=
  match s with
  | EmptyString => emit cur
  | String c s' =>
      match cur with
      | EmptyString =>
          if is_letter c then brandy_from (String c "") s' else brandy_from "" s'
      | String _ _ =>
          if is_brand_char c then brandy_from (cur +:+ String c "") s'
          else emit cur ++ brandy_from "" s'
      end
  end.

Definition BRANDY_finditer (query : string) : list string := brandy_from "" query.

(** [QUOTED.findall]: the contents of the non-empty double-quoted phrases;
    [cur] is the content since the last opening quote, if one is open. *)
Fixpoint quoted_from (cur : option string) (s : string) : list string :=
  match s with
  | EmptyString => []
  | String c s' =>
      if Ascii.eqb c (ascii_of_nat 34) then
        match cur with
        | Some (String a t) => String a t :: quoted_from None s'
        | _ => quoted_from (Some "") s'
        end
      else
        match cur with
        | Some t => quoted_from (Some (t +:+ String c "")) s'
        | None => quoted_from None s'
        end
  end.

Definition QUOTED_findall (query : string) : list string := quoted_from None query.

(** Deduplicate while keeping order. *)
Fixpoint dedup_from (seen : list string) (l : list string) : list string :=
  match l with
  | [] => []
  | token :: rest =>
      if existsb (String.eqb token) seen then dedup_from seen rest
      else token :: dedup_from (token :: seen) rest
  end.

Definition detect_brand_tokens (query : string) : list string :=
  let phrases := QUOTED_findall query in
  let tokens := BRANDY_finditer query in
  dedup_from [] (phrases ++ tokens).

Definition add_quotes_if_helpful (query : string) (tokens : list string) : string :=
  fold_left
    (fun quoted token =>
       let q := DQ +:+ token +:+ DQ in
       if str_contains q quoted then quoted else py_replace quoted token q)
    tokens query.

Definition NO_CHUNKS : string :=
  LF +:+ "I couldn't retrieve any relevant chunks to answer that." +:+ LF.

(** The lines [print_answer] prints. *)
Definition print_answer (answer_text : string) (chosen_hits : list Hit) : list Effect :=
  map Printed
    ([LF +:+ RULE; "ANSWER:" +:+ LF; py_strip answer_text; LF +:+ "SOURCES:"]
       ++ LlmAgent.source_lines chosen_hits ++ [RULE +:+ LF]).

Section Router.

Variable file_mtime : string -> option datetime.
Variable similarity_search_with_score : string -> Z -> list (Document * Q).
Variable search : string -> Z -> list Row.
Variable chunks_fts : list (string * string).
Variable call_llm : string -> string.

(** The file-lookup branch of [route_and_run], a parameter of this section
    ([RouterAgentFiles.file_lookup] embeds it): the mode it returns and
    what it does. *)
Variable file_lookup_mode :
  string -> Z -> option datetime -> list string -> string * list Effect.

#[local] Abbreviation retrieve :=
  (retrieve_hybrid file_mtime similarity_search_with_score search chunks_fts).

(** Build the context, ask the model, print answer and sources. *)
Definition answer_from (question : string) (k_ctx : Z) (hits : list Hit)
    : list Effect :=
  let (context_block, chosen) := build_context_block hits k_ctx in
  let prompt := build_prompt question context_block in
  let answer_text := call_llm prompt in
  Generated prompt :: print_answer answer_text chosen.

(** The Q&A branch of [route_and_run]. *)
Definition qa_mode (question : string) (k_ctx : Z) (before_dt : option datetime)
    (brand_tokens : list string) : string * list Effect :=
  let (ck, bk) :=
    match brand_tokens with
    | [] => (8, 20)
    | _ :: _ => (6, 50)
    end in
  let hits := retrieve question before_dt ck bk in
  match hits with
  | _ :: _ =>
      ("answer", Retrieved question ck bk hits :: answer_from question k_ctx hits)
  | [] =>
      let q2 := add_quotes_if_helpful question brand_tokens in
      let ck2 := Z.max (ck - 2) 2 in
      let bk2 := Z.max bk 60 in
      let hits2 := retrieve q2 before_dt ck2 bk2 in
      match hits2 with
      | [] =>
          ("answer",
           [Retrieved question ck bk hits; Retrieved q2 ck2 bk2 hits2;
            Printed NO_CHUNKS])
      | _ :: _ =>
          ("answer",
           Retrieved question ck bk hits :: Retrieved q2 ck2 bk2 hits2
             :: answer_from question k_ctx hits2)
      end
  end.

Definition route_and_run (question : string) (k_ctx : Z)
    (before_dt : option datetime) : string * list Effect :=
  let brand_tokens := detect_brand_tokens question in
  if is_file_lookup question
  then file_lookup_mode question k_ctx before_dt brand_tokens
  else qa_mode question k_ctx before_dt brand_tokens.

End Router.

End RouterAgent.

Module Server.
Import Answer RouterAgent.

Record Citation : Type := mkCitation {
  path : string;
  cit_page : Z;
  cit_chunk_id : string
}.

Record AnswerResponse : Type := mkAnswerResponse {
  mode : string;
  answer : string;
  citations : list Citation
}.

Definition NO_CHUNKS : string := "I couldn't retrieve any relevant chunks.".

Section Route.

Variable file_mtime : string -> option datetime.
Variable similarity_search_with_score : string -> Z -> list (Document * Q).
Variable search : string -> Z -> list Row.
Variable chunks_fts : list (string * string).
Variable call_llm : string -> string.

#[local] Abbreviation retrieve :=
  (retrieve_hybrid file_mtime similarity_search_with_score search chunks_fts).

Definition respond (q : string) (k : Z) (hits : list Hit)
    : AnswerResponse * list Effect :=
  let (ctx, chosen) := build_context_block hits k in
  let prompt := build_prompt q ctx in
  let answer_text := call_llm prompt in
  (mkAnswerResponse "answer" (py_strip answer_text)
     (map (fun h => mkCitation (source h) (page h) (chunk_id h)) chosen),
   [Generated prompt]).

(** The Q&A part of [route_endpoint], from [detect_brand_tokens] on, for a
    question [q] that is not a file lookup. *)
Definition route_endpoint_qa (q : string) (k : Z) (before_dt : option datetime)
    : AnswerResponse * list Effect :=
  let brand_tokens := detect_brand_tokens q in
  let (ck_eff, bk_eff) :=
    match brand_tokens with
    | [] => (8, 20)
    | _ :: _ => (6, 50)
    end in
  let hits := retrieve q before_dt ck_eff bk_eff in
  match hits with
  | _ :: _ =>
      let (resp, eff) := respond q k hits in
      (resp, Retrieved q ck_eff bk_eff hits :: eff)
  | [] =>
      let q2 := add_quotes_if_helpful q brand_tokens in
      let ck2 := Z.max (ck_eff - 2) 2 in
      let bk2 := Z.max bk_eff 60 in
      let hits2 := retrieve q2 before_dt ck2 bk2 in
      match hits2 with
      | [] =>
          (mkAnswerResponse "answer" NO_CHUNKS [],
           [Retrieved q ck_eff bk_eff hits; Retrieved q2 ck2 bk2 hits2])
      | _ :: _ =>
          let (resp, eff) := respond q k hits2 in
          (resp, Retrieved q ck_eff bk_eff hits :: Retrieved q2 ck2 bk2 hits2 :: eff)
      end
  end.

End Route.

End Server.

Module RouterExample.
Import Answer RouterAgent.

(** Two empty stores. *)
Definition no_docs (query : string) (k : Z) : list (Document * Q) := [].
Definition no_rows (query : string) (k : Z) : list Row := [].

Definition call_llm (prompt : string) : string :=
  "The Vandals captured Rome in 455. [1]".

Definition file_lookup_mode (question : string) (k_ctx : Z)
    (before_dt : option datetime) (tokens : list string) : string * list Effect :=
  ("files", []).

Definition question : string := "who captured Rome in 455?".

Definition run_empty : string * list Effect :=
  route_and_run Example.file_mtime no_docs no_rows [] call_llm file_lookup_mode
    question 6 None.

Definition respond_empty : Server.AnswerResponse * list Effect :=
  Server.route_endpoint_qa Example.file_mtime no_docs no_rows [] call_llm
    question 6 None.

End RouterExample.

(* ====================================================================== *)
(** * Character classes and runs, as the regular expressions of the
      sources use them *)
(* ====================================================================== *)

(** Every character of [s] satisfies [p]. *)
Fixpoint all_chars (p : ascii -> bool) (s : string) : bool :=
  match s with
  | EmptyString => true
  | String c s' => p c && all_chars p s'
  end.

(** The first character exists and satisfies [p]. *)
Definition head_is (p : ascii -> bool) (s : string) : bool :=
  match s with
  | EmptyString => false
  | String c _ => p c
  end.

(** [re.sub(r"[cls]+", " ", s)]: each maximal run of characters of the
    class becomes one space, written when the run ends. *)
Fixpoint sub_runs (p : ascii -> bool) (s : string) : string :=
  match s with
  | EmptyString => ""
  | String c s' =>
      if p c then
        if head_is p s' then sub_runs p s' else String " " (sub_runs p s')
      else String c (sub_runs p s')
  end.

(** [re.findall(r"[cls]+", s)]: the maximal non-empty runs of characters
    of the class, from left to right.  A character of the class extends
    the run that starts right after it, if there is one. *)
Fixpoint runs (p : ascii -> bool) (s : string) : list string :=
  match s with
  | EmptyString => []
  | String c s' =>
      if p c then
        if head_is p s' then
          match runs p s' with
          | r :: rest => String c r :: rest
          | [] => [String c ""]
          end
        else String c "" :: runs p s'
      else runs p s'
  end.

(** [s.split()]: the maximal runs of characters that are not white space. *)
Definition py_split (s : string) : list string :=
  runs (fun c => negb (is_space c)) s.

(** [s.endswith(c)] for a one-character suffix. *)
Fixpoint ends_with_char (c : ascii) (s : string) : bool :=
  match s with
  | EmptyString => false
  | String a EmptyString => Ascii.eqb a c
  | String _ s' => ends_with_char c s'
  end.

(** [s[:-1]] *)
Fixpoint drop_last (s : string) : string :=
  match s with
  | EmptyString => ""
  | String _ EmptyString => ""
  | String a s' => String a (drop_last s')
  end.

(** [s[:limit]] on a string: a negative bound counts from the end. *)
Definition str_slice_to (s : string) (limit : Z) : string :=
  if 0 <=? limit then str_take (Z.to_nat limit) s
  else str_take (Z.to_nat (Z.of_nat (String.length s) + limit)) s.

(** [x in l] on strings. *)
Definition str_in (x : string) (l : list string) : bool :=
  existsb (String.eqb x) l.

(** [list(dict.fromkeys(l))]: the first occurrence of each string, in
    order. *)
Fixpoint fromkeys (l : list string) : list string :=
  match l with
  | [] => []
  | x :: rest => x :: filter (fun y => negb (String.eqb x y)) (fromkeys rest)
  end.

(* ====================================================================== *)
(** * The keyword store ([bm25_db.py]): query sanitation *)
(* ====================================================================== *)

Module Bm25Db.

(** The punctuation class of [sanitize_for_fts]: the characters
    - : ; , . ? ! / \ ( ) { } [ ] | ' @ * ^ ~ < > and the double quote. *)
Definition is_fts_punct (c : ascii) : bool :=
  existsb (Ascii.eqb c)
    (list_ascii_of_string "-:;,.?!/\(){}[]|'@*^~<>" ++ [ascii_of_nat 34]).

(** [sanitize_for_fts(query)]: punctuation runs to a space, white-space
    runs to a space, then [strip()]. *)
Definition sanitize_for_fts (query : string) : string :=
  let query := sub_runs is_fts_punct query in
  let query := sub_runs is_space query in
  py_strip query.

(** Every white-space character is a single space that has a character
    after it, and that character is not white space. *)
Fixpoint single_spaced (s : string) : bool :=
  match s with
  | EmptyString => true
  | String c s' =>
      (if is_space c
       then Ascii.eqb c " " && head_is (fun a => negb (is_space a)) s'
       else true)
      && single_spaced s'
  end.

(** As [single_spaced], except that the string may end in a space. *)
Fixpoint spaced (s : string) : bool :=
  match s with
  | EmptyString => true
  | String c s' =>
      (if is_space c then Ascii.eqb c " " && negb (head_is is_space s') else true)
      && spaced s'
  end.

(** The shape of a sanitized query: no character of the punctuation class,
    no white space at either end, words separated by exactly one space. *)
Definition fts_normal (s : string) : bool :=
  all_chars (fun c => negb (is_fts_punct c)) s
  && negb (head_is is_space s)
  && single_spaced s.

(** The class [[A-Za-z0-9@._-]] of [like_scan]. *)
Definition is_like_char (c : ascii) : bool :=
  let n := nat_of_ascii c in
  ((48 <=? n) && (n <=? 57) || (65 <=? n) && (n <=? 90)
   || (97 <=? n) && (n <=? 122)
   || (n =? 64) || (n =? 46) || (n =? 95) || (n =? 45))%nat.

(** The tokens [like_scan] searches for: the runs of the class, first
    occurrences only, those longer than one character, in lower case. *)
Definition like_tokens (query : option string) : list string :=
  let toks := runs is_like_char (or_empty query) in
  map py_lower
    (filter (fun t => (1 <? String.length (py_strip t))%nat) (fromkeys toks)).

(** [_esc_like(s)]: a backslash before each backslash, [%] and [_]. *)
Definition _esc_like (s : string) : string :=
  py_replace (py_replace (py_replace s "\" "\\") "%" "\%") "_" "\_".

(** What [_esc_like] makes of one character. *)
Definition esc_char (c : ascii) : string :=
  if Ascii.eqb c "\" then "\\"
  else if Ascii.eqb c "%" then "\%"
  else if Ascii.eqb c "_" then "\_"
  else String c "".

Fixpoint esc_chars (s : string) : string :=
  match s with
  | EmptyString => ""
  | String c s' => esc_char c +:+ esc_chars s'
  end.

(** How a pattern is read under [ESCAPE '\']: a backslash stands for the
    character that follows it, taken literally. *)
Fixpoint like_literal (s : string) : string :=
  match s with
  | EmptyString => ""
  | String c s' =>
      if Ascii.eqb c "\" then
        match s' with
        | String d s'' => String d (like_literal s'')
        | EmptyString => ""
        end
      else String c (like_literal s')
  end.

(** The parameters bound to the [LIKE] clauses: [f"%{_esc_like(t)}%"]. *)
Definition like_params (toks : list string) : list string :=
  map (fun t => "%" +:+ _esc_like t +:+ "%") toks.

(** ** The two tables *)

(** One row of [chunk_meta], whose primary key is [chunk_id]. *)
Record MetaRow : Type := mkMetaRow {
  mr_chunk_id : string;
  mr_source : string;
  mr_page : Z
}.

(** One row of the full-text table [chunks_fts]; [add_chunks] stores the
    page as [str(page)]. *)
Record FtsRow : Type := mkFtsRow {
  fr_chunk_id : string;
  fr_source : string;
  fr_page : string;
  fr_text : string
}.

(** The database file: both tables, rows in insertion order. *)
Record Db : Type := mkDb {
  chunk_meta : list MetaRow;
  chunks_fts : list FtsRow
}.

(** What [open_conn] finds after [clear_db]: the schema and no rows. *)
Definition empty_db : Db := mkDb [] [].

(** [get_existing_ids(conn)]; the source builds a [set], which is used for
    membership tests only. *)
Definition get_existing_ids (conn : Db) : list string :=
  map mr_chunk_id (chunk_meta conn).

(** [INSERT OR IGNORE INTO chunk_meta]: the new table and the statement's
    row count, which is 0 when the primary key is already present. *)
Definition insert_or_ignore_meta (row : MetaRow) (rows : list MetaRow)
    : list MetaRow * Z :=
  if str_in (mr_chunk_id row) (map mr_chunk_id rows) then (rows, 0)
  else (rows ++ [row], 1).

(** The body of [for chunk in chunks] in [add_chunks]; the state is the
    database and the counter [inserted]. *)
Definition add_chunk (st : Db * Z) (chunk : Document) : Db * Z :=
  let (conn, inserted) := st in
  let chunk_id := or_empty (md_id (metadata chunk)) in
  let src := meta_source chunk in
  let page := meta_page chunk in
  let text := or_empty (page_content chunk) in
  if py_not_str chunk_id then st
  else
    let (meta, rowcount) :=
      insert_or_ignore_meta (mkMetaRow chunk_id src page) (chunk_meta conn) in
    if rowcount =? 0 then (mkDb meta (chunks_fts conn), inserted)
    else
      (mkDb meta (chunks_fts conn ++ [mkFtsRow chunk_id src (py_str page) text]),
       inserted + 1).

(** [add_chunks(conn, chunks)]: the database after the commit and the
    number returned. *)
Definition add_chunks (conn : Db) (chunks : list Document) : Db * Z :=
  fold_left add_chunk chunks (conn, 0).

(** The primary key holds, and the full-text table has one row per row of
    [chunk_meta], in the same order. *)
Definition consistent (conn : Db) : Prop :=
  NoDup (get_existing_ids conn) /\
  map fr_chunk_id (chunks_fts conn) = get_existing_ids conn.

(** The id [add_chunks] reads from a chunk, when it does not skip it. *)
Definition usable_id (chunk : Document) : option string :=
  match md_id (metadata chunk) with
  | Some (String a s) => Some (String a s)
  | _ => None
  end.

(** The full-text row [add_chunks] writes for a chunk with id [cid]. *)
Definition fts_row_of (cid : string) (chunk : Document) : FtsRow :=
  mkFtsRow cid (meta_source chunk) (py_str (meta_page chunk))
    (or_empty (page_content chunk)).

Definition meta_row_of (cid : string) (chunk : Document) : MetaRow :=
  mkMetaRow cid (meta_source chunk) (meta_page chunk).

(** The chunks [add_chunks] writes, each with its id: those that carry an
    id which is neither in the table ([seen]) nor carried by an earlier
    chunk of the batch. *)
Fixpoint new_rows (seen : list string) (chunks : list Document)
    : list (string * Document) :=
  match chunks with
  | [] => []
  | chunk :: rest =>
      match usable_id chunk with
      | Some cid =>
          if str_in cid seen then new_rows seen rest
          else (cid, chunk) :: new_rows (seen ++ [cid]) rest
      | None => new_rows seen rest
      end
  end.

End Bm25Db.

(* ====================================================================== *)
(** * The keyword indexer ([index_bm25.py]): [main] *)
(* ====================================================================== *)

Module IndexBm25Main.
Import Bm25Db.

(** How [main] ends. *)
Inductive Outcome : Type :=
| NoDocuments
| UpToDate
| Inserted (inserted : Z).

Section Main.

(** The loader and the splitter of [parse_and_chunk.py]. *)
Variable load_documents : string -> list Document.
Variable split_documents : list Document -> list Document.

(** [chunk.metadata.get("id") not in have_already] *)
Definition is_new (have_already : list string) (chunk : Document) : bool :=
  match md_id (metadata chunk) with
  | Some i => negb (str_in i have_already)
  | None => true
  end.

(** [main()] with [--reset] and [--root] given: the database it leaves and
    how it ends. *)
Definition main (reset : bool) (root : string) (conn : Db) : Db * Outcome :=
  let conn := if reset then empty_db else conn in
  let docs := load_documents root in
  match docs with
  | [] => (conn, NoDocuments)
  | _ :: _ =>
      let chunks := split_documents docs in
      let chunks := IndexBm25.assign_chunk_ids chunks in
      let have_already := get_existing_ids conn in
      let new_chunks := filter (is_new have_already) chunks in
      match new_chunks with
      | [] => (conn, UpToDate)
      | _ :: _ =>
          let (conn, inserted) := add_chunks conn new_chunks in
          (conn, Inserted inserted)
      end
  end.

End Main.

End IndexBm25Main.

(* ====================================================================== *)
(** * Keyword queries built from a question
      ([router_agent.build_bm25_query], [answer.build_bm25_content_query]) *)
(* ====================================================================== *)

(** [sorted(set(l))] on strings: the distinct elements in increasing order
    of code points, built by inserting one element at a time. *)
Fixpoint insert_str (x : string) (l : list string) : list string :=
  match l with
  | [] => [x]
  | y :: rest =>
      match String.compare x y with
      | Lt => x :: y :: rest
      | Eq => y :: rest
      | Gt => y :: insert_str x rest
      end
  end.

Definition py_sorted_set (l : list string) : list string :=
  fold_right insert_str [] l.

(** [a < b] on [str]. *)
Definition str_lt (a b : string) : Prop := String.compare a b = Lt.

Module RouterAgentQuery.

Definition STOPWORDS : list string :=
  ["which"; "what"; "who"; "where"; "when"; "how"; "why";
   "file"; "document"; "doc"; "contains"; "contain"; "mentions"; "about";
   "answers"; "answer"; "info";
   "is"; "are"; "was"; "were"; "be"; "to"; "of"; "in"; "on"; "for"; "with";
   "and"; "or"; "the"; "a"; "an";
   "has"; "have"; "had"; "talk"; "talks"; "regarding"].

(** [TOKEN_RE.finditer]: the matches of [[A-Za-z0-9_-]{3,}], that is the
    maximal runs of the class that have at least three characters. *)
Definition TOKEN_RE_finditer (s : string) : list string :=
  filter (fun t => (3 <=? String.length t)%nat) (runs RouterAgent.is_brand_char s).

(** The body of the loop over the matches; the state is the list [tokens]
    and the set [seen_tokens]. *)
Definition token_step (st : list string * list string) (token : string)
    : list string * list string :=
  let (tokens, seen_tokens) := st in
  if str_in token STOPWORDS then st
  else if str_in token seen_tokens then st
  else
    let seen_tokens := token :: seen_tokens in
    let tokens := tokens ++ [token] in
    if ends_with_char "s" token then (tokens, seen_tokens)
    else
      let plural := token +:+ "s" in
      if str_in plural seen_tokens then (tokens, seen_tokens)
      else (tokens ++ [plural], plural :: seen_tokens).

(** The list [tokens] when the loop ends. *)
Definition query_tokens (freeform : string) : list string :=
  fst (fold_left token_step (TOKEN_RE_finditer (py_lower freeform)) ([], [])).

(** [build_bm25_query(freeform)] *)
Definition build_bm25_query (freeform : string) : string :=
  match query_tokens freeform with
  | [] => freeform
  | tokens => py_join " OR " tokens
  end.

(** A match that is not a glue word. *)
Definition kept (freeform token : string) : Prop :=
  In token (TOKEN_RE_finditer (py_lower freeform)) /\
  str_in token STOPWORDS = false.

(** [preview(text, max_len)] *)
Definition preview (text : option string) (max_len : Z) : string :=
  let t := py_replace (or_empty text) LF " " in
  if Z.of_nat (String.length t) <=? max_len then t
  else str_slice_to t max_len +:+ "...".

End RouterAgentQuery.

Module AnswerQuery.

Definition STOPWORDS : list string :=
  ["the"; "a"; "an"; "and"; "or"; "of"; "to"; "in"; "on"; "for"; "with";
   "about"; "which"; "what"; "where"; "who"; "whom"; "whose"; "how"; "when";
   "is"; "are"; "was"; "were"; "be"; "been"; "being"; "do"; "does"; "did";
   "has"; "have"; "had"; "this"; "that"; "these"; "those"; "it"; "its";
   "into"; "from"; "by"; "at"; "as"; "than"; "then"; "there"; "their";
   "them"; "he"; "she"; "we"; "you"; "your"; "my"; "our"; "me"; "us";
   "info"; "information"; "file"; "files"; "document"; "documents"; "doc";
   "docs"].

(** The characters the pattern of [build_bm25_content_query] keeps:
    digits, ASCII letters and the accented letters of code points 192 to
    214, 216 to 246 and 248 to 255. *)
Definition is_kept_char (c : ascii) : bool :=
  let n := nat_of_ascii c in
  ((48 <=? n) && (n <=? 57) || (65 <=? n) && (n <=? 90)
   || (97 <=? n) && (n <=? 122)
   || (192 <=? n) && (n <=? 214) || (216 <=? n) && (n <=? 246)
   || (248 <=? n) && (n <=? 255))%nat.

(** The normalized question: lower case, every run of other characters
    turned into one space. *)
Definition normalize (query : string) : string :=
  sub_runs (fun c => negb (is_kept_char c)) (py_lower query).

(** The tokens kept: at least three characters, not a stop word. *)
Definition content_tokens (query : string) : list string :=
  filter (fun token =>
            (3 <=? String.length token)%nat && negb (str_in token STOPWORDS))
    (py_split (normalize query)).

(** The singular forms added: [token[:-1]] for each token that ends in
    [s] and has more than three characters. *)
Definition singulars (tokens : list string) : list string :=
  map drop_last
    (filter (fun token =>
               ends_with_char "s" token && (3 <? String.length token)%nat)
       tokens).

(** The terms joined in the result, [sorted(expanded)]. *)
Definition content_terms (query : string) : list string :=
  let tokens := content_tokens query in
  py_sorted_set (tokens ++ singulars tokens).

(** [build_bm25_content_query(query)] *)
Definition build_bm25_content_query (query : string) : string :=
  match content_tokens query with
  | [] => normalize query
  | _ :: _ => py_join " OR " (content_terms query)
  end.

(** An ASCII capital letter. *)
Definition is_upper (c : ascii) : bool :=
  let n := nat_of_ascii c in ((65 <=? n) && (n <=? 90))%nat.

End AnswerQuery.

(* ====================================================================== *)
(** * Grouping, [max] and sorting on tuple keys *)
(* ====================================================================== *)

(** [by_src.setdefault(k, []).append(v)], and [by_src[k].append(v)] on a
    [defaultdict(list)]. *)
Definition setdefault_append {V : Type} (k : string) (v : V)
    (d : dict (list V)) : dict (list V) :=
  match dict_get k d with
  | Some group => dict_set k (group ++ [v]) d
  | None => dict_set k [v] d
  end.

(** The loop [for v in l: by_src.setdefault(key(v), []).append(v)] on an
    empty dict. *)
Definition group_by {V : Type} (key : V -> string) (l : list V) : dict (list V) :=
  fold_left (fun d v => setdefault_append (key v) v d) l [].

(** [max(l, key=...)]: the first element with the largest key; [None]
    stands for the [ValueError] on an empty list. *)
Fixpoint max_from {A : Type} (key : A -> Q) (best : A) (l : list A) : A :=
  match l with
  | [] => best
  | x :: rest =>
      max_from key (if Qle_bool (key x) (key best) then best else x) rest
  end.

Definition py_max {A : Type} (key : A -> Q) (l : list A) : option A :=
  match l with
  | [] => None
  | x :: rest => Some (max_from key x rest)
  end.

(** A list of results of which none failed. *)
Fixpoint all_some {A : Type} (l : list (option A)) : option (list A) :=
  match l with
  | [] => Some []
  | None :: _ => None
  | Some x :: rest => option_map (cons x) (all_some rest)
  end.

(** [a <= b] on tuples [(bool, float)]: [False] before [True], then the
    numbers. *)
Definition tuple_le (a b : bool * Q) : bool :=
  match fst a, fst b with
  | false, true => true
  | true, false => false
  | _, _ => Qle_bool (snd a) (snd b)
  end.

Section SortedBy.
Context {A K : Type}.
Variable key : A -> K.
Variable le : K -> K -> bool.

(** [sorted(l, key=key, reverse=True)] for keys compared by [le]: as
    [insert_desc], an element is placed before the first one whose key
    does not exceed its own. *)
Fixpoint insert_desc_by (x : A) (l : list A) : list A :=
  match l with
  | [] => [x]
  | y :: rest =>
      if le (key y) (key x) then x :: y :: rest
      else y :: insert_desc_by x rest
  end.

Definition py_sorted_desc_by (l : list A) : list A :=
  fold_right insert_desc_by [] l.

End SortedBy.

(* ====================================================================== *)
(** * File lists of the HTTP route ([server.py]) *)
(* ====================================================================== *)

Module ServerFiles.
Import Answer.

(** [FileHit] of [api/schemas.py]. *)
Record FileHit : Type := mkFileHit {
  fh_path : string;
  top_page : Z;
  fh_preview : string;
  rrf : Q;
  has_bm25 : bool
}.

(** The [FileHit] of one group of keyword rows; [group[0]] raises on an
    empty group. *)
Definition file_of_rows (item : string * list Row) : option FileHit :=
  let (src, group) := item in
  match group with
  | [] => None
  | first :: _ =>
      Some (mkFileHit src (row_page first) (str_take 160 (row_snippet first))
              0 true)
  end.

(** [files_from_bm25(rows)] *)
Definition files_from_bm25 (rows : list Row) : option (list FileHit) :=
  let by_src := group_by row_source rows in
  option_map
    (py_sorted_desc_by (fun f => (has_bm25 f, inject_Z (- top_page f))) tuple_le)
    (all_some (map file_of_rows by_src)).

Definition has_rank (h : Hit) : bool :=
  match bm25_rank h with
  | Some _ => true
  | None => false
  end.

(** The [FileHit] of one group of fused hits. *)
Definition file_of_hits (item : string * list Hit) : option FileHit :=
  let (src, group) := item in
  match py_max rrf_score group with
  | None => None
  | Some best =>
      Some (mkFileHit src (page best)
              (str_take 160 (py_replace (text best) LF " "))
              (rrf_score best) (existsb has_rank group))
  end.

(** [files_from_hybrid(hits)] *)
Definition files_from_hybrid (hits : list Hit) : option (list FileHit) :=
  let by_src := group_by source hits in
  option_map
    (py_sorted_desc_by (fun f => (has_bm25 f, rrf f)) tuple_le)
    (all_some (map file_of_hits by_src)).

(** The rows, or hits, of one file. *)
Definition rows_of (src : string) (rows : list Row) : list Row :=
  filter (fun r => String.eqb (row_source r) src) rows.

Definition hits_of (src : string) (hits : list Hit) : list Hit :=
  filter (fun h => String.eqb (source h) src) hits.

(** [a] may stand before [b] in the list of [files_from_hybrid]: a file
    with a keyword hit is never behind one without, and of two files that
    agree on that the one with the higher score comes first. *)
Definition file_before (a b : FileHit) : Prop :=
  (has_bm25 b = true -> has_bm25 a = true) /\
  (has_bm25 a = has_bm25 b -> (rrf b <= rrf a)%Q).

End ServerFiles.

(* ====================================================================== *)
(** * Counting the tool executions of the agent loop ([llm_agent.py]) *)
(* ====================================================================== *)

(** The number of tool executions among the events of a run. *)
Definition tool_calls (st : LlmAgent.State) : Z :=
  Z.of_nat
    (List.length
       (filter (fun e => match e with LlmAgent.ToolCall _ => true | _ => false end)
          (LlmAgent.events st))).

(* ====================================================================== *)
(** * The file-lookup branch of the router ([router_agent.route_and_run]) *)
(* ====================================================================== *)

Module RouterAgentFiles.
Import Answer RouterAgent RouterAgentQuery.

(** The characters outside ASCII that [print_file_list] prints, in their
    UTF-8 encoding: the signs for "about" and "check", and the two curly
    quotes. *)
Definition utf8 (a b c : nat) : string :=
  String (ascii_of_nat a) (String (ascii_of_nat b) (String (ascii_of_nat c) "")).
Definition APPROX : string := utf8 226 137 136.
Definition CHECK : string := utf8 226 156 147.
Definition LDQ : string := utf8 226 128 156.
Definition RDQ : string := utf8 226 128 157.

(** The object built from a keyword row, with the fields the printer
    reads: [SimpleNamespace(source=..., page=int(row["page"]),
    text=row.get("snippet") or "", rrf_score=0.0, bm25_rank=1,
    chroma_rank=None, chunk_id=row["chunk_id"])]. *)
Definition fake_hit (row : Row) : Hit :=
  mkHit (row_chunk_id row) (row_source row) (row_page row) (row_snippet row)
    None (Some 1) 0.

(** [any(h.bm25_rank is not None for h in hs)] *)
Definition any_bm25 (hs : list Hit) : bool :=
  existsb (fun h => match bm25_rank h with Some _ => true | None => false end) hs.

(** The variants built from the strong tokens: each token quoted, and its
    singular (for a token in [s] longer than three characters) or plural. *)
Definition variants_of (strong : list string) : list string :=
  flat_map
    (fun t =>
       [DQ +:+ t +:+ DQ;
        if ends_with_char "s" t && (3 <? String.length t)%nat
        then DQ +:+ drop_last t +:+ DQ
        else DQ +:+ t +:+ "s" +:+ DQ])
    strong.

(** [sorted(by_src.items(), key=lambda kv: len(kv[1]), reverse=True)[:10]] *)
Definition rank_by_count (by_src : dict (list Hit)) : list (string * list Hit) :=
  py_slice_to
    (py_sorted_desc (fun kv => inject_Z (Z.of_nat (List.length (snd kv)))) by_src)
    10.

(** The key [score_file(kv[1])]; the score of the best hit is 0 only for
    a list without hits, which the grouping never builds. *)
Definition score_file (hits : list Hit) : bool * Q :=
  (any_bm25 hits,
   match py_max rrf_score hits with
   | Some best => rrf_score best
   | None => 0%Q
   end).

(** [sorted(by_src.items(), key=lambda kv: score_file(kv[1]),
    reverse=True)[:10]] *)
Definition rank_by_score (by_src : dict (list Hit)) : list (string * list Hit) :=
  py_slice_to (py_sorted_desc_by (fun kv => score_file (snd kv)) tuple_le by_src) 10.

Section Files.

Variable file_mtime : string -> option datetime.
Variable similarity_search_with_score : string -> Z -> list (Document * Q).
Variable search : string -> Z -> list Row.
Variable chunks_fts : list (string * string).

(** [f"{x:.4f}"] on a float. *)
Variable format_4f : Q -> string.

#[local] Abbreviation retrieve :=
  (retrieve_hybrid file_mtime similarity_search_with_score search chunks_fts).

(** The two lines [print_file_list] prints for the file at place [i]. *)
Definition file_lines (i : Z) (kv : string * list Hit) : list string :=
  let (src, hs) := kv in
  match py_max rrf_score hs with
  | None => []
  | Some best =>
      [py_str i +:+ ". " +:+ src +:+ "  (page" +:+ APPROX +:+ py_str (page best)
         +:+ ", RRF=" +:+ format_4f (rrf_score best) +:+ ", "
         +:+ (if any_bm25 hs then "BM25" +:+ CHECK else "BM25-") +:+ " )";
       "   e.g., " +:+ LDQ +:+ preview (Some (text best)) 160 +:+ RDQ]
  end.

(** [print_file_list(files_ranked)] *)
Definition print_file_list (files_ranked : list (string * list Hit)) : list Effect :=
  map Printed
    ([LF +:+ RULE; "FILES (most relevant first):" +:+ LF]
       ++ flat_map (fun ikv => file_lines (fst ikv) (snd ikv))
            (enumerate 1 files_ranked)
       ++ [RULE +:+ LF]).

(** [if before_dt: bm25_rows = [row for row in bm25_rows if
    passes_before_filter(row["source"], before_dt)]] *)
Definition filter_rows (before_dt : option datetime) (bm25_rows : list Row)
    : list Row :=
  match before_dt with
  | Some _ =>
      filter (fun row => passes_before_filter file_mtime (row_source row) before_dt)
        bm25_rows
  | None => bm25_rows
  end.

(** The files of the keyword rows, ranked by their number of rows. *)
Definition files_of_rows (bm25_rows : list Row) : list (string * list Hit) :=
  rank_by_count (group_by source (map fake_hit bm25_rows)).

(** The keyword rows of the first pass: the brand-first query, then the
    general query when that found nothing, then the date filter. *)
Definition first_pass_rows (question : string) (before_dt : option datetime)
    (brand_tokens : list string) : list Row :=
  let strong :=
    filter (fun token => negb (str_in (py_lower token) STOPWORDS)) brand_tokens in
  let bm_query :=
    match strong with
    | _ :: _ => py_join " OR " (fromkeys (variants_of strong))
    | [] => build_bm25_query question
    end in
  let bm25_rows := search bm_query 100 in
  let bm25_rows :=
    match bm25_rows, strong with
    | [], _ :: _ => search (build_bm25_query question) 100
    | _, _ => bm25_rows
    end in
  filter_rows before_dt bm25_rows.

(** The file-lookup branch of [route_and_run]: the mode returned and what
    the branch does. *)
Definition file_lookup (question : string) (k_ctx : Z)
    (before_dt : option datetime) (brand_tokens : list string)
    : string * list Effect :=
  match first_pass_rows question before_dt brand_tokens with
  | (_ :: _) as bm25_rows => ("files", print_file_list (files_of_rows bm25_rows))
  | [] =>
      let brand_tokens := detect_brand_tokens question in
      let (ck, bk) :=
        match brand_tokens with
        | [] => (2, 80)
        | _ :: _ => (1, 100)
        end in
      let hits := retrieve question before_dt ck bk in
      match hits with
      | _ :: _ =>
          ("files",
           Retrieved question ck bk hits
             :: print_file_list (rank_by_score (group_by source hits)))
      | [] =>
          let q2 := add_quotes_if_helpful question brand_tokens in
          let bk2 := Z.max bk 120 in
          let hits2 := retrieve q2 before_dt ck bk2 in
          match hits2 with
          | _ :: _ =>
              ("files",
               Retrieved question ck bk hits :: Retrieved q2 ck bk2 hits2
                 :: print_file_list (rank_by_score (group_by source hits2)))
          | [] =>
              match filter_rows before_dt (search q2 100) with
              | (_ :: _) as bm25_rows =>
                  ("files",
                   Retrieved question ck bk hits :: Retrieved q2 ck bk2 hits2
                     :: print_file_list (files_of_rows bm25_rows))
              | [] =>
                  ("files",
                   [Retrieved question ck bk hits; Retrieved q2 ck bk2 hits2;
                    Printed (LF +:+ "No results." +:+ LF)])
              end
          end
      end
  end.

(** [route_and_run] with both branches. *)
Definition route_and_run (call_llm : string -> string) (question : string)
    (k_ctx : Z) (before_dt : option datetime) : string * list Effect :=
  RouterAgent.route_and_run file_mtime similarity_search_with_score search
    chunks_fts call_llm file_lookup question k_ctx before_dt.

End Files.

End RouterAgentFiles.

(* ====================================================================== *)
(** * Removing a folder from the keyword store ([manage_indexes.py]) *)
(* ====================================================================== *)

Module ManageIndexes.
Import Bm25Db.

Section Store.

(** [source LIKE pattern], as SQLite evaluates it. *)
Variable sql_like : string -> string -> bool.

(** [Path(s).exists()] *)
Variable path_exists : string -> bool.

(** [f"{root.replace('%','%%')}%"] *)
Definition like_of (root : string) : string :=
  py_replace root "%" "%%" +:+ "%".

(** The condition [source LIKE ?] on a row of [chunk_meta]. *)
Definition under_root (root : string) (r : MetaRow) : bool :=
  sql_like (mr_source r) (like_of root).

(** [bm25_count_for_root(root)], when the query does not fail. *)
Definition bm25_count_for_root (root : string) (conn : Db) : Z :=
  Z.of_nat (List.length (filter (under_root root) (chunk_meta conn))).

(** [DELETE FROM chunks_fts WHERE chunk_id IN (SELECT chunk_id FROM
    chunk_meta WHERE cond)] followed by [DELETE FROM chunk_meta WHERE
    cond]: the database left and the row count of the second statement. *)
Definition delete_where (cond : MetaRow -> bool) (conn : Db) : Db * Z :=
  let ids := map mr_chunk_id (filter cond (chunk_meta conn)) in
  let fts := filter (fun r => negb (str_in (fr_chunk_id r) ids)) (chunks_fts conn) in
  let meta := filter (fun r => negb (cond r)) (chunk_meta conn) in
  (mkDb meta fts, Z.of_nat (List.length (filter cond (chunk_meta conn)))).

(** [bm25_delete_root(root)] *)
Definition bm25_delete_root (root : string) (conn : Db) : Db * Z :=
  delete_where (under_root root) conn.

(** The sources [bm25_prune_missing] removes: those under the root that
    are no longer on disk. *)
Definition to_prune (root : string) (conn : Db) : list string :=
  let sources :=
    fromkeys (map mr_source (filter (under_root root) (chunk_meta conn))) in
  filter (fun s => negb (path_exists s)) sources.

(** The body of [for s in to_prune]. *)
Definition prune_source (st : Db * Z) (s : string) : Db * Z :=
  let (conn, pruned_total) := st in
  let (conn, rowcount) := delete_where (fun r => String.eqb (mr_source r) s) conn in
  (conn, pruned_total + rowcount).

(** [bm25_prune_missing(root)] *)
Definition bm25_prune_missing (root : string) (conn : Db) : Db * Z :=
  fold_left prune_source (to_prune root conn) (conn, 0).

End Store.

End ManageIndexes.

(* ====================================================================== *)
(** * The file-lookup part of the HTTP route ([server.route_endpoint]) *)
(* ====================================================================== *)

Module ServerRoute.
Import Answer RouterAgent RouterAgentQuery ServerFiles.

(** The quoted terms [brand_first_bm25] builds: each token, then its plural
    when it does not end in [s], or its singular when it does and has more
    than three characters. *)
Definition brand_terms (brand_tokens : list string) : list string :=
  flat_map
    (fun t =>
       (DQ +:+ t +:+ DQ)
         :: (if negb (ends_with_char "s" t) then [DQ +:+ t +:+ "s" +:+ DQ]
             else if (3 <? String.length t)%nat then [DQ +:+ drop_last t +:+ DQ]
             else []))
    brand_tokens.

(** What the endpoint returns: one of the two response models, or the
    exception a failing list construction would raise. *)
Inductive Response : Type :=
| FilesResponse (mode : string) (files : list FileHit)
| Answered (response : Server.AnswerResponse)
| Raised.

Definition files_response (files : option (list FileHit)) : Response :=
  match files with
  | Some files => FilesResponse "files" files
  | None => Raised
  end.

Section Route.

Variable file_mtime : string -> option datetime.
Variable similarity_search_with_score : string -> Z -> list (Document * Q).
Variable search : string -> Z -> list Row.
Variable chunks_fts : list (string * string).
Variable call_llm : string -> string.

#[local] Abbreviation retrieve :=
  (retrieve_hybrid file_mtime similarity_search_with_score search chunks_fts).

(** [brand_first_bm25(question, before_dt, workspace)] *)
Definition brand_first_bm25 (question : string) (before_dt : option datetime)
    : list Row :=
  let brand_tokens := detect_brand_tokens question in
  let bm_q :=
    match brand_tokens with
    | _ :: _ => py_join " OR " (fromkeys (brand_terms brand_tokens))
    | [] => build_bm25_query question
    end in
  let rows := search bm_q 100 in
  match before_dt with
  | Some _ =>
      filter (fun r => passes_before_filter file_mtime (row_source r) before_dt) rows
  | None => rows
  end.

(** The file-lookup branch of [route_endpoint]. *)
Definition route_files (q : string) (before_dt : option datetime)
    : Response * list Effect :=
  match brand_first_bm25 q before_dt with
  | (_ :: _) as rows => (files_response (files_from_bm25 rows), [])
  | [] =>
      let hits := retrieve q before_dt 2 100 in
      match hits with
      | [] => (FilesResponse "files" [], [Retrieved q 2 100 hits])
      | _ :: _ => (files_response (files_from_hybrid hits), [Retrieved q 2 100 hits])
      end
  end.

(** [route_endpoint] from its branch on [is_file_lookup(q)], for a
    question [q] that is not empty and a date that parsed. *)
Definition route_endpoint (q : string) (k : Z) (before_dt : option datetime)
    : Response * list Effect :=
  if is_file_lookup q then route_files q before_dt
  else
    let (response, effects) :=
      Server.route_endpoint_qa file_mtime similarity_search_with_score search
        chunks_fts call_llm q k before_dt in
    (Answered response, effects).

End Route.

End ServerRoute.

(* ====================================================================== *)
(** * Facts about the Python primitives *)
(* ====================================================================== *)

Lemma append_assoc (a b c : string) : (a +:+ b) +:+ c = a +:+ (b +:+ c).
Proof.
  induction a as [|x a IH]; simpl; [reflexivity | now rewrite IH].
Qed.

Lemma uint_string_no_colon (d : uint) :
  no_colon (NilEmpty.string_of_uint d) = true.
Proof.
  induction d; simpl; auto.
Qed.

Lemma py_str_no_colon (z : Z) : no_colon (py_str z) = true.
Proof.
  unfold py_str, NilZero.string_of_int, NilZero.string_of_uint.
  destruct (Z.to_int z) as [d|d]; destruct d; simpl;
    auto using uint_string_no_colon.
Qed.

Lemma to_int_not_nil (z : Z) : Z.to_int z <> Pos Nil /\ Z.to_int z <> Neg Nil.
Proof.
  destruct z as [|p|p]; simpl; split; try discriminate;
    intros [= H]; now apply (Unsigned.to_uint_nonnil p).
Qed.

Lemma py_str_inj (a b : Z) : py_str a = py_str b -> a = b.
Proof.
  unfold py_str. intros H.
  apply DecimalZ.to_int_inj.
  destruct (to_int_not_nil a) as [Ha1 Ha2], (to_int_not_nil b) as [Hb1 Hb2].
  pose proof (NilZero.isi _ Ha1 Ha2) as Ea.
  pose proof (NilZero.isi _ Hb1 Hb2) as Eb.
  rewrite H in Ea. rewrite Ea in Eb. now injection Eb.
Qed.

Lemma rsplit_no_colon (t : string) :
  no_colon t = true -> rsplit_colon t = None.
Proof.
  induction t as [|c t IH]; simpl; [reflexivity|].
  intros H. apply andb_true_iff in H as [Hc Ht].
  rewrite (IH Ht). apply negb_true_iff in Hc. now rewrite Hc.
Qed.

Lemma rsplit_append (s t : string) :
  no_colon t = true -> rsplit_colon (s +:+ ":" +:+ t) = Some (s, t).
Proof.
  intros Ht. induction s as [|c s IH]; simpl.
  - now rewrite (rsplit_no_colon t Ht).
  - simpl in IH. now rewrite IH.
Qed.

(** A key [source:page] determines both [source] and [page]. *)
Lemma keyed_inj (s1 s2 : string) (p1 p2 : Z) :
  s1 +:+ ":" +:+ py_str p1 = s2 +:+ ":" +:+ py_str p2 -> s1 = s2 /\ p1 = p2.
Proof.
  intros H.
  pose proof (rsplit_append s1 _ (py_str_no_colon p1)) as E1.
  pose proof (rsplit_append s2 _ (py_str_no_colon p2)) as E2.
  rewrite H in E1. rewrite E1 in E2. injection E2 as -> Hp.
  split; [reflexivity | now apply py_str_inj].
Qed.

Lemma render_id_inj (p q : string * Z) : render_id p = render_id q -> p = q.
Proof.
  destruct p as [k i], q as [k' i']. unfold render_id; simpl.
  intros H. apply keyed_inj in H as [-> ->]. reflexivity.
Qed.

Lemma page_key_eq_iff (a b : Document) :
  page_key_of a = page_key_of b <-> source_page a = source_page b.
Proof.
  unfold page_key_of, source_page. split.
  - intros H. apply keyed_inj in H as [-> ->]. reflexivity.
  - intros [= -> ->]. reflexivity.
Qed.

Lemma source_page_eqb_spec (a b : Document) :
  source_page_eqb a b = String.eqb (page_key_of a) (page_key_of b).
Proof.
  unfold source_page_eqb.
  destruct (String.eqb_spec (page_key_of a) (page_key_of b)) as [E|N].
  - apply page_key_eq_iff in E. injection E as -> ->.
    now rewrite String.eqb_refl, Z.eqb_refl.
  - apply andb_false_iff.
    destruct (String.eqb_spec (meta_source a) (meta_source b)) as [Es|]; [|now left].
    right. apply Z.eqb_neq. intros Ep. apply N.
    apply page_key_eq_iff. unfold source_page. now rewrite Es, Ep.
Qed.

(* ====================================================================== *)
(** * Chunk identity *)
(* ====================================================================== *)

Lemma pipelines_same_loop (last : option string) (idx : Z) (chunks : list Document) :
  IndexBm25.assign_loop last idx chunks = IndexChroma.assign_loop last idx chunks.
Proof.
  revert last idx. induction chunks as [|c rest IH]; intros; simpl;
    [reflexivity | now rewrite IH].
Qed.

Lemma assign_loop_length (last : option string) (idx : Z) (chunks : list Document) :
  List.length (IndexChroma.assign_loop last idx chunks) = List.length chunks.
Proof.
  revert last idx. induction chunks as [|c rest IH]; intros; simpl;
    [reflexivity | now rewrite IH].
Qed.

(** The ids the loop writes are the rendered pairs of [run_indices]. *)
Lemma assign_loop_ids (last : option string) (idx : Z) (chunks : list Document) :
  chunk_ids (IndexChroma.assign_loop last idx chunks) =
  map render_id (run_indices last idx (map page_key_of chunks)).
Proof.
  revert last idx. induction chunks as [|c rest IH]; intros; simpl;
    [reflexivity|].
  unfold chunk_ids in IH. now rewrite IH.
Qed.

(** Each output chunk is the input chunk with the rendered pair as its id. *)
Lemma assign_loop_nth (last : option string) (idx : Z) (chunks : list Document)
    (n : nat) (c : Document) :
  nth_error chunks n = Some c ->
  exists i,
    nth_error (run_indices last idx (map page_key_of chunks)) n
      = Some (page_key_of c, i) /\
    nth_error (IndexChroma.assign_loop last idx chunks) n
      = Some (set_id c (page_key_of c +:+ ":" +:+ py_str i)).
Proof.
  revert last idx n. induction chunks as [|d rest IH]; intros last idx n Hn.
  - destruct n; discriminate.
  - destruct n as [|n]; simpl in *.
    + injection Hn as <-. eexists. split; reflexivity.
    + apply IH; assumption.
Qed.

Lemma set_id_page_key (c : Document) (v : string) :
  page_key_of (set_id c v) = page_key_of c.
Proof. reflexivity. Qed.

Lemma set_id_twice (c : Document) (v w : string) :
  set_id (set_id c v) w = set_id c w.
Proof. reflexivity. Qed.

Lemma assign_loop_idem (last last' : option string) (idx idx' : Z)
    (chunks : list Document) :
  IndexChroma.assign_loop last idx (IndexChroma.assign_loop last' idx' chunks)
  = IndexChroma.assign_loop last idx chunks.
Proof.
  revert last last' idx idx'. induction chunks as [|c rest IH]; intros; simpl;
    [reflexivity|].
  rewrite set_id_page_key, set_id_twice, IH. reflexivity.
Qed.

(** Consecutive counter values obey the bump-or-reset rule. *)
Lemma run_indices_step (last : option string) (idx : Z) (keys : list string)
    (m : nat) (k k' : string) (i i' : Z) :
  nth_error (run_indices last idx keys) m = Some (k, i) ->
  nth_error (run_indices last idx keys) (S m) = Some (k', i') ->
  i' = next_idx k' (Some k) i.
Proof.
  revert last idx m. induction keys as [|x rest IH]; intros last idx m H0 H1.
  - destruct m; discriminate.
  - destruct m as [|m]; simpl in *.
    + injection H0 as <- <-.
      destruct rest as [|y rest']; simpl in H1; [discriminate|].
      now injection H1 as <- <-.
    + eapply IH; eassumption.
Qed.

Lemma run_indices_head (keys : list string) (k : string) (i : Z) :
  nth_error (run_indices None 0 keys) 0 = Some (k, i) -> i = 0.
Proof.
  destruct keys; simpl; [discriminate|]. now intros [= _ <-].
Qed.

Lemma assign_index_rule (chunks : list Document) (n : nat) (c : Document) (i : Z) :
  nth_error chunks n = Some c ->
  nth_error (run_indices None 0 (map page_key_of chunks)) n
    = Some (page_key_of c, i) ->
  i = index_within_page chunks n.
Proof.
  revert c i. induction n as [|m IH]; intros c i Hc Hi.
  - now apply run_indices_head in Hi.
  - assert (Hlt : (m < List.length chunks)%nat).
    { apply Nat.lt_le_incl. apply nth_error_Some. now rewrite Hc. }
    destruct (nth_error chunks m) as [p|] eqn:Hp;
      [|apply nth_error_None in Hp; lia].
    destruct (assign_loop_nth None 0 chunks m p Hp) as [j [Hj _]].
    rewrite (run_indices_step _ _ _ _ _ _ _ _ Hj Hi).
    cbn [index_within_page]. rewrite Hp, Hc.
    rewrite source_page_eqb_spec. unfold next_idx, same_key.
    rewrite (IH p j eq_refl Hj). reflexivity.
Qed.

(** The ids depend on the [(source, page)] sequence only. *)
Lemma ids_from_source_page (cs1 cs2 : list Document) :
  map source_page cs1 = map source_page cs2 ->
  chunk_ids (IndexChroma.assign_chunk_ids cs1)
  = chunk_ids (IndexChroma.assign_chunk_ids cs2).
Proof.
  intros H. unfold IndexChroma.assign_chunk_ids.
  rewrite !assign_loop_ids. f_equal. f_equal.
  revert cs2 H. induction cs1 as [|a r1 IH]; intros [|b r2] H;
    try discriminate; [reflexivity|].
  cbn [map] in *. injection H as Hs Hp Hr.
  f_equal; [|now apply IH].
  unfold page_key_of. now rewrite Hs, Hp.
Qed.

(** ** C8 *)

(** C8. [assign_chunk_ids] gives the chunk at position [n] the id
    [source:page:i], with [i = 0] for the first chunk and whenever
    [(source, page)] differs from the chunk just before it, and that chunk's
    index plus one otherwise; it changes nothing else in the chunk.  The ids
    are a function of the ordered [(source, page)] sequence alone, running
    the function again on its own output or on the same input gives the same
    result, and the Chroma and the BM25 indexer compute the same function. *)
Theorem assign_chunk_ids_identity_rule :
  forall chunks : list Document,
    (forall n c, nth_error chunks n = Some c ->
       nth_error (IndexChroma.assign_chunk_ids chunks) n =
         Some (set_id c (chunk_id_of (meta_source c) (meta_page c)
                           (index_within_page chunks n)))) /\
    List.length (IndexChroma.assign_chunk_ids chunks) = List.length chunks /\
    (forall chunks', map source_page chunks' = map source_page chunks ->
       chunk_ids (IndexChroma.assign_chunk_ids chunks')
       = chunk_ids (IndexChroma.assign_chunk_ids chunks)) /\
    IndexChroma.assign_chunk_ids (IndexChroma.assign_chunk_ids chunks)
      = IndexChroma.assign_chunk_ids chunks /\
    IndexBm25.assign_chunk_ids chunks = IndexChroma.assign_chunk_ids chunks.
Proof.
  intros chunks. split; [|split; [|split; [|split]]].
  - intros n c Hc.
    destruct (assign_loop_nth None 0 chunks n c Hc) as [i [Hi Ho]].
    unfold IndexChroma.assign_chunk_ids. rewrite Ho.
    rewrite (assign_index_rule chunks n c i Hc Hi). reflexivity.
  - apply assign_loop_length.
  - intros chunks' H. now apply ids_from_source_page.
  - apply assign_loop_idem.
  - apply pipelines_same_loop.
Qed.

(** ** Distinct ids and contiguity *)

Lemma run_indices_keys (last : option string) (idx : Z) (keys : list string) :
  map fst (run_indices last idx keys) = keys.
Proof.
  revert last idx. induction keys as [|k rest IH]; intros; simpl;
    [reflexivity | now rewrite IH].
Qed.

Lemma run_indices_in_key (last : option string) (idx : Z) (keys : list string)
    (k : string) (x : Z) :
  In (k, x) (run_indices last idx keys) -> In k keys.
Proof.
  intros H. rewrite <- (run_indices_keys last idx keys).
  change k with (fst (k, x)). now apply in_map.
Qed.

Lemma run_indices_split (last : option string) (idx : Z)
    (l : list string) (k : string) (l' : list string) :
  exists last' idx' j,
    run_indices last idx (l ++ k :: l')
    = run_indices last idx l ++ (k, j) :: run_indices (Some k) j l' /\
    j = next_idx k last' idx'.
Proof.
  revert last idx. induction l as [|c l IH]; intros last idx; simpl.
  - exists last, idx, (next_idx k last idx). split; reflexivity.
  - destruct (IH (Some c) (next_idx c last idx)) as (last' & idx' & j & E & Hj).
    exists last', idx', j. rewrite E. split; [reflexivity | assumption].
Qed.

(** Whenever a key follows a different key (or nothing), some chunk with
    that key gets counter 0. *)
Lemma run_indices_reset (last : option string) (idx : Z)
    (l : list string) (a : string) (l' : list string) :
  last <> Some a ->
  In (a, 0) (run_indices last idx (l ++ a :: l')).
Proof.
  revert last idx. induction l as [|c l IH]; intros last idx Hlast.
  - simpl. left. unfold next_idx, same_key.
    destruct last as [k|]; [|reflexivity].
    destruct (String.eqb_spec a k) as [->|]; [now elim Hlast | reflexivity].
  - cbn [app run_indices].
    destruct (String.eqb_spec c a) as [->|Hca].
    + left. unfold next_idx, same_key.
      destruct last as [k|]; [|reflexivity].
      destruct (String.eqb_spec a k) as [->|]; [now elim Hlast | reflexivity].
    + right. apply IH. intros [= E]. now apply Hca.
Qed.

Lemma NoDup_app_disjoint {A : Type} (l l' : list A) (x : A) :
  NoDup (l ++ l') -> In x l -> In x l' -> False.
Proof.
  induction l as [|y l IH]; simpl; intros Hnd Hl Hl'; [assumption|].
  inversion Hnd as [|? ? Hnotin Hnd']; subst.
  destruct Hl as [->|Hl].
  - apply Hnotin. apply in_or_app. now right.
  - now apply IH.
Qed.

Lemma separated_keys_dup (keys : list string) :
  separated_keys keys -> ~ NoDup (run_indices None 0 keys).
Proof.
  intros (l1 & a & l2 & b & l3 & l4 & -> & Hba) Hnd.
  replace (l1 ++ a :: l2 ++ b :: l3 ++ a :: l4)
    with ((l1 ++ a :: l2) ++ b :: (l3 ++ a :: l4)) in Hnd
    by (rewrite <- app_assoc; reflexivity).
  destruct (run_indices_split None 0 (l1 ++ a :: l2) b (l3 ++ a :: l4))
    as (last' & idx' & j & E & _).
  rewrite E in Hnd.
  apply (NoDup_app_disjoint _ _ (a, 0) Hnd).
  - apply run_indices_reset. discriminate.
  - right. apply run_indices_reset. intros [= E']. now apply Hba.
Qed.

Lemma separated_keys_cons (k : string) (keys : list string) :
  separated_keys keys -> separated_keys (k :: keys).
Proof.
  intros (l1 & a & l2 & b & l3 & l4 & -> & Hba).
  exists (k :: l1), a, l2, b, l3, l4. split; [reflexivity | assumption].
Qed.

(** Within an unbroken run the counter only grows. *)
Lemma run_indices_grow (k : string) (rest : list string) (i x : Z) :
  ~ separated_keys (k :: rest) ->
  In (k, x) (run_indices (Some k) i rest) -> i < x.
Proof.
  revert i. induction rest as [|k2 rest2 IH]; intros i Hsep Hin.
  - destruct Hin.
  - destruct (String.eqb_spec k2 k) as [->|Hk].
    + cbn [run_indices] in Hin. unfold next_idx, same_key in Hin.
      rewrite String.eqb_refl in Hin.
      destruct Hin as [[= <-]|Hin]; [lia|].
      assert (i + 1 < x); [|lia].
      apply IH; [|assumption].
      intros Hs. apply Hsep. now apply separated_keys_cons.
    + exfalso. apply Hsep.
      apply run_indices_in_key in Hin.
      destruct Hin as [E|Hin]; [now elim Hk|].
      apply in_split in Hin as (l3 & l4 & ->).
      exists [], k, [], k2, l3, l4. split; [reflexivity | assumption].
Qed.

Lemma contiguous_keys_nodup (last : option string) (idx : Z) (keys : list string) :
  ~ separated_keys keys -> NoDup (run_indices last idx keys).
Proof.
  revert last idx. induction keys as [|k rest IH]; intros last idx Hsep.
  - constructor.
  - cbn [run_indices]. constructor.
    + intros Hin. apply run_indices_grow in Hin; [lia | assumption].
    + apply IH. intros Hs. apply Hsep. now apply separated_keys_cons.
Qed.

Lemma nodup_run_indices_iff (keys : list string) :
  NoDup (run_indices None 0 keys) <-> ~ separated_keys keys.
Proof.
  split.
  - intros Hnd Hs. now apply (separated_keys_dup keys Hs).
  - apply contiguous_keys_nodup.
Qed.

Lemma NoDup_map_render (l : list (string * Z)) :
  NoDup (map render_id l) <-> NoDup l.
Proof.
  split.
  - apply NoDup_map_inv.
  - induction l as [|p l IH]; intros Hnd; simpl; [constructor|].
    inversion Hnd as [|? ? Hnotin Hnd']; subst. constructor; [|now apply IH].
    intros Hin. apply in_map_iff in Hin as (q & Hq & Hin).
    apply render_id_inj in Hq. now subst.
Qed.

Lemma separated_iff_keys (chunks : list Document) :
  separated chunks <-> separated_keys (map page_key_of chunks).
Proof.
  split.
  - intros (l1 & a & l2 & b & l3 & c & l4 & -> & Hac & Hba).
    exists (map page_key_of l1), (page_key_of a), (map page_key_of l2),
      (page_key_of b), (map page_key_of l3), (map page_key_of l4).
    split.
    + rewrite !map_app; cbn [map]. rewrite !map_app; cbn [map].
      rewrite !map_app; cbn [map].
      apply page_key_eq_iff in Hac. now rewrite Hac.
    + intros E. apply Hba. now apply page_key_eq_iff.
  - intros (k1 & ka & k2 & kb & k3 & k4 & E & Hba).
    apply map_eq_app in E as (l1 & r1 & -> & <- & E).
    apply map_eq_cons in E as (a & r2 & -> & <- & E).
    apply map_eq_app in E as (l2 & r3 & -> & <- & E).
    apply map_eq_cons in E as (b & r4 & -> & <- & E).
    apply map_eq_app in E as (l3 & r5 & -> & <- & E).
    apply map_eq_cons in E as (c & l4 & -> & Hc & <-).
    exists l1, a, l2, b, l3, c, l4. split; [reflexivity|]. split.
    + apply page_key_eq_iff. now symmetry.
    + intros E. apply Hba. now apply page_key_eq_iff.
Qed.

(** ** C9 *)

(** C9. The ids [assign_chunk_ids] writes are pairwise distinct exactly when
    all chunks with the same [(source, page)] are contiguous; in the sequence
    a.pdf page 1, b.txt, a.pdf page 1 the counter is reset and both chunks of
    a.pdf receive the id [a.pdf:1:0]. *)
Theorem assign_chunk_ids_distinct_iff_contiguous :
  (forall chunks : list Document,
     NoDup (chunk_ids (IndexChroma.assign_chunk_ids chunks)) <-> contiguous chunks) /\
  (forall chunks : list Document,
     NoDup (chunk_ids (IndexBm25.assign_chunk_ids chunks)) <-> contiguous chunks) /\
  (separated [doc_a; doc_b; doc_a'] /\
   doc_a <> doc_a' /\
   chunk_ids (IndexChroma.assign_chunk_ids [doc_a; doc_b; doc_a'])
     = ["a.pdf:1:0"; "b.txt:0:0"; "a.pdf:1:0"]).
Proof.
  assert (H : forall chunks : list Document,
     NoDup (chunk_ids (IndexChroma.assign_chunk_ids chunks)) <-> contiguous chunks).
  { intros chunks. unfold IndexChroma.assign_chunk_ids, contiguous.
    rewrite assign_loop_ids, NoDup_map_render, nodup_run_indices_iff.
    now rewrite separated_iff_keys. }
  split; [exact H|]. split.
  - intros chunks. unfold IndexBm25.assign_chunk_ids.
    rewrite pipelines_same_loop. apply H.
  - split; [|split].
    + exists [], doc_a, [], doc_b, [], doc_a', [].
      split; [reflexivity|]. split; [reflexivity | discriminate].
    + discriminate.
    + reflexivity.
Qed.

(* ====================================================================== *)
(** * The stable descending sort *)
(* ====================================================================== *)

Section SortedFacts.
Context {A : Type}.
Variable key : A -> Q.

Lemma insert_desc_perm (x : A) (l : list A) :
  Permutation (insert_desc key x l) (x :: l).
Proof.
  induction l as [|y rest IH]; simpl; [reflexivity|].
  destruct (Qle_bool (key y) (key x)); [reflexivity|].
  rewrite IH. apply perm_swap.
Qed.

Lemma py_sorted_desc_perm (l : list A) : Permutation (py_sorted_desc key l) l.
Proof.
  induction l as [|x rest IH]; simpl; [reflexivity|].
  rewrite insert_desc_perm. now constructor.
Qed.

Lemma insert_desc_sorted (x : A) (l : list A) :
  StronglySorted (score_ge key) l -> StronglySorted (score_ge key) (insert_desc key x l).
Proof.
  induction l as [|y rest IH]; intros Hs; simpl.
  - repeat constructor.
  - inversion Hs as [|? ? Hrest Hall]; subst.
    destruct (Qle_bool (key y) (key x)) eqn:E.
    + apply Qle_bool_iff in E. constructor; [assumption|].
      constructor; [exact E|].
      eapply Forall_impl; [|exact Hall].
      intros b Hb. unfold score_ge in *. now apply Qle_trans with (key y).
    + constructor; [now apply IH|].
      assert (Hlt : (key x < key y)%Q).
      { apply Qnot_le_lt. intros Hle. apply Qle_bool_iff in Hle. congruence. }
      apply Forall_forall. intros b Hb.
      apply (Permutation_in _ (insert_desc_perm x rest)) in Hb.
      destruct Hb as [<-|Hb].
      * unfold score_ge. now apply Qlt_le_weak.
      * rewrite Forall_forall in Hall. now apply Hall.
Qed.

Lemma py_sorted_desc_sorted (l : list A) :
  StronglySorted (score_ge key) (py_sorted_desc key l).
Proof.
  induction l as [|x rest IH]; simpl; [constructor | now apply insert_desc_sorted].
Qed.

(** Stability: among the elements with one given key value the sort keeps
    the order of its input. *)
Lemma insert_desc_filter (q : Q) (x : A) (l : list A) :
  filter (fun a => Qeq_bool (key a) q) (insert_desc key x l)
  = filter (fun a => Qeq_bool (key a) q) (x :: l).
Proof.
  induction l as [|y rest IH]; [reflexivity|].
  cbn [insert_desc].
  destruct (Qle_bool (key y) (key x)) eqn:E; [reflexivity|].
  cbn [filter] in *. rewrite IH.
  destruct (Qeq_bool (key x) q) eqn:Ex; [|reflexivity].
  destruct (Qeq_bool (key y) q) eqn:Ey; [|reflexivity].
  exfalso. apply Qeq_bool_iff in Ex, Ey.
  assert (Hle : (key y <= key x)%Q) by (rewrite Ex, Ey; apply Qle_refl).
  apply Qle_bool_iff in Hle. congruence.
Qed.

Lemma py_sorted_desc_stable (q : Q) (l : list A) :
  filter (fun a => Qeq_bool (key a) q) (py_sorted_desc key l)
  = filter (fun a => Qeq_bool (key a) q) l.
Proof.
  induction l as [|x rest IH]; [reflexivity|].
  cbn [py_sorted_desc fold_right]. rewrite insert_desc_filter.
  cbn [filter]. fold (py_sorted_desc key rest). now rewrite IH.
Qed.

End SortedFacts.

(** If [x] comes before [y] in a filtered list, it does so in the list. *)
Lemma filter_order {A : Type} (p : A -> bool) (l a b c : list A) (x y : A) :
  filter p l = a ++ x :: b ++ y :: c ->
  exists a' b' c', l = a' ++ x :: b' ++ y :: c'.
Proof.
  revert a. induction l as [|z l IH]; intros a H.
  - destruct a; discriminate.
  - cbn [filter] in H. destruct (p z).
    + destruct a as [|a0 a].
      * injection H as <- H.
        assert (Hy : In y (filter p l)).
        { rewrite H. apply in_or_app. right. now left. }
        apply filter_In in Hy as [Hy _].
        apply in_split in Hy as (b' & c' & ->).
        exists [], b', c'. reflexivity.
      * injection H as <- H.
        destruct (IH a H) as (a' & b' & c' & ->).
        exists (z :: a'), b', c'. reflexivity.
    + destruct (IH a H) as (a' & b' & c' & ->).
      exists (z :: a'), b', c'. reflexivity.
Qed.

(* ====================================================================== *)
(** * The insertion-ordered dict *)
(* ====================================================================== *)

Section DictFacts.
Context {V : Type}.

Lemma dict_get_set (k k' : string) (v : V) (d : dict V) :
  dict_get k (dict_set k' v d) = if String.eqb k k' then Some v else dict_get k d.
Proof.
  induction d as [|[k0 v0] rest IH]; simpl.
  - reflexivity.
  - destruct (String.eqb_spec k' k0) as [->|Hk']; simpl.
    + destruct (String.eqb k k0); reflexivity.
    + rewrite IH. destruct (String.eqb_spec k k0) as [->|]; [|reflexivity].
      destruct (String.eqb_spec k0 k'); [congruence | reflexivity].
Qed.

Lemma dict_mem_in_keys (k : string) (d : dict V) :
  dict_mem k d = existsb (String.eqb k) (dict_keys d).
Proof.
  unfold dict_mem. induction d as [|[k0 v0] rest IH]; simpl; [reflexivity|].
  destruct (String.eqb k k0); [reflexivity | exact IH].
Qed.

Lemma dict_mem_true_iff (k : string) (d : dict V) :
  dict_mem k d = true <-> In k (dict_keys d).
Proof.
  rewrite dict_mem_in_keys, existsb_exists. split.
  - intros (x & Hx & E). apply String.eqb_eq in E. now subst.
  - intros H. exists k. split; [assumption | apply String.eqb_refl].
Qed.

Lemma dict_keys_set (k : string) (v : V) (d : dict V) :
  dict_keys (dict_set k v d)
  = if dict_mem k d then dict_keys d else dict_keys d ++ [k].
Proof.
  unfold dict_mem. induction d as [|[k0 v0] rest IH]; simpl; [reflexivity|].
  destruct (String.eqb k k0); simpl; [reflexivity|].
  rewrite IH. destruct (dict_get k rest); reflexivity.
Qed.

Lemma dict_get_in (k : string) (v : V) (d : dict V) :
  dict_get k d = Some v -> In (k, v) d.
Proof.
  induction d as [|[k0 v0] rest IH]; simpl; [discriminate|].
  destruct (String.eqb_spec k k0) as [->|].
  - intros [= ->]. now left.
  - intros H. right. now apply IH.
Qed.

Lemma dict_in_get (k : string) (v : V) (d : dict V) :
  NoDup (dict_keys d) -> In (k, v) d -> dict_get k d = Some v.
Proof.
  induction d as [|[k0 v0] rest IH]; simpl; intros Hnd Hin; [destruct Hin|].
  inversion Hnd as [|? ? Hnotin Hnd']; subst.
  destruct Hin as [[= -> ->]|Hin].
  - now rewrite String.eqb_refl.
  - destruct (String.eqb_spec k k0) as [->|]; [|now apply IH].
    exfalso. apply Hnotin. change k0 with (fst (k0, v)).
    now apply in_map.
Qed.

Lemma dict_get_none (k : string) (d : dict V) :
  dict_get k d = None <-> ~ In k (dict_keys d).
Proof.
  rewrite <- dict_mem_true_iff. unfold dict_mem.
  destruct (dict_get k d); split; intros H; try discriminate; try reflexivity.
  now elim H.
Qed.

End DictFacts.

(* ====================================================================== *)
(** * Reciprocal rank fusion *)
(* ====================================================================== *)

Section FusionFacts.
Import Answer FusionSpec.

Lemma rrf_add_get (k : string) (sm : dict Hit) (key : string) (r : Z)
    (e : Engine) (m : Meta) :
  dict_get k (rrf_add sm key r e m)
  = if String.eqb k key then bump e key (dict_get key sm) (key, mkMeta (meta_src m) (meta_pg m) (meta_text m) r)
    else dict_get k sm.
Proof.
  unfold rrf_add, dict_mem, bump; cbn [snd meta_rank].
  destruct (dict_get key sm) as [h|] eqn:Hget.
  - rewrite Hget, dict_get_set. reflexivity.
  - rewrite dict_get_set, String.eqb_refl, !dict_get_set.
    destruct (String.eqb k key); reflexivity.
Qed.

Lemma rrf_add_keys (sm : dict Hit) (key : string) (r : Z) (e : Engine) (m : Meta) :
  dict_keys (rrf_add sm key r e m)
  = if dict_mem key sm then dict_keys sm else dict_keys sm ++ [key].
Proof.
  unfold rrf_add. destruct (dict_mem key sm) eqn:Hmem.
  - unfold dict_mem in Hmem. destruct (dict_get key sm) eqn:Hget; [|discriminate].
    rewrite dict_keys_set. unfold dict_mem. now rewrite Hget.
  - rewrite dict_get_set, String.eqb_refl, dict_keys_set.
    unfold dict_mem at 1. rewrite dict_get_set, String.eqb_refl.
    rewrite dict_keys_set. now rewrite Hmem.
Qed.

Lemma rrf_add_well_keyed (sm : dict Hit) (key : string) (r : Z) (e : Engine) (m : Meta) :
  py_not_str key = false -> well_keyed sm -> well_keyed (rrf_add sm key r e m).
Proof.
  intros Hkey [Hnd Hent].
  assert (Hnd' : NoDup (dict_keys (rrf_add sm key r e m))).
  { rewrite rrf_add_keys. destruct (dict_mem key sm) eqn:Hmem; [assumption|].
    apply NoDup_app; [assumption | repeat constructor; intros [] |].
    intros a Ha [<-|[]]. apply dict_mem_true_iff in Ha. congruence. }
  split; [exact Hnd'|].
  intros k h Hin. apply (dict_in_get _ _ _ Hnd') in Hin.
  rewrite rrf_add_get in Hin.
  destruct (String.eqb_spec k key) as [->|Hk].
  - split; [|assumption]. unfold bump in Hin. injection Hin as <-.
    destruct (dict_get key sm) as [h0|] eqn:Hget; cbn [get_default].
    + apply dict_get_in, Hent in Hget as [<- _]. now destruct e.
    + now destruct e.
  - apply dict_get_in in Hin. now apply Hent.
Qed.

Lemma fusion_loop_well_keyed (e : Engine) (lst : list (string * Meta)) (sm : dict Hit) :
  well_keyed sm -> well_keyed (fusion_loop e lst sm).
Proof.
  revert sm. induction lst as [|cm rest IH]; intros sm Hwk; [exact Hwk|].
  unfold fusion_loop in *. cbn [fold_left]. apply IH.
  destruct (py_not_str (fst cm)) eqn:E; [assumption|].
  now apply rrf_add_well_keyed.
Qed.

Lemma well_keyed_empty : well_keyed [].
Proof. split; [constructor | intros k h []]. Qed.

Lemma fuse_well_keyed (C B : list (string * Meta)) : well_keyed (fuse C B).
Proof.
  unfold fuse. apply fusion_loop_well_keyed, fusion_loop_well_keyed, well_keyed_empty.
Qed.

Lemma py_not_str_false_neq (k k' : string) :
  py_not_str k = false -> py_not_str k' = true -> String.eqb k' k = false.
Proof.
  destruct k, k'; simpl; intros; try discriminate; reflexivity.
Qed.

(** The entry of a chunk after a fusion loop depends on the contributions
    to that chunk alone. *)
Lemma fusion_loop_get (e : Engine) (k : string) (lst : list (string * Meta))
    (sm : dict Hit) :
  py_not_str k = false ->
  dict_get k (fusion_loop e lst sm)
  = hit_after e k (occurrences k lst) (dict_get k sm).
Proof.
  intros Hk. revert sm. induction lst as [|[c m] rest IH]; intros sm; [reflexivity|].
  unfold fusion_loop in *. cbn [fold_left fst snd occurrences filter].
  rewrite IH. fold (occurrences k rest).
  destruct (py_not_str c) eqn:Ec.
  - now rewrite (py_not_str_false_neq k c Hk Ec).
  - rewrite rrf_add_get. rewrite (String.eqb_sym k c).
    destruct (String.eqb_spec c k) as [->|]; [|reflexivity].
    unfold hit_after. cbn [fold_left]. reflexivity.
Qed.

Lemma fuse_get (k : string) (C B : list (string * Meta)) :
  py_not_str k = false ->
  dict_get k (fuse C B)
  = hit_after bm25 k (occurrences k B) (hit_after chroma k (occurrences k C) None).
Proof.
  intros Hk. unfold fuse. now rewrite !fusion_loop_get.
Qed.

Lemma fusion_loop_keys (e : Engine) (lst : list (string * Meta)) (sm : dict Hit) :
  nonempty_ids lst ->
  dict_keys (fusion_loop e lst sm) = first_seen (dict_keys sm) (ids_of lst).
Proof.
  intros Hne. revert sm. induction Hne as [|[c m] rest Hc Hrest IH]; intros sm;
    [reflexivity|].
  unfold fusion_loop, first_seen in *. cbn [fold_left fst snd ids_of map].
  cbn [fst] in Hc. rewrite Hc, IH, rrf_add_keys, dict_mem_in_keys. reflexivity.
Qed.

Lemma first_seen_app (acc l l' : list string) :
  first_seen acc (l ++ l') = first_seen (first_seen acc l) l'.
Proof. unfold first_seen. apply fold_left_app. Qed.

Lemma fuse_keys (C B : list (string * Meta)) :
  nonempty_ids C -> nonempty_ids B ->
  dict_keys (fuse C B) = first_seen [] (ids_of C ++ ids_of B).
Proof.
  intros HC HB. unfold fuse.
  rewrite (fusion_loop_keys bm25 B _ HB), (fusion_loop_keys chroma C _ HC).
  now rewrite first_seen_app.
Qed.

End FusionFacts.

Section HitAfterFacts.
Import Answer FusionSpec FusionEntry.

Lemma last_from (ps : list Z) (o : option Z) :
  fold_left (fun _ p => Some p) ps o
  = match last_position ps with Some q => Some q | None => o end.
Proof.
  unfold last_position. revert o. induction ps as [|x ps IH]; intros o;
    [reflexivity|].
  cbn [fold_left]. rewrite (IH (Some x)), (IH (Some x)) at 1.
  destruct (fold_left (fun _ p => Some p) ps None); reflexivity.
Qed.

Lemma last_position_cons (p : Z) (ps : list Z) :
  last_position (p :: ps)
  = match last_position ps with Some q => Some q | None => Some p end.
Proof. unfold last_position at 1. cbn [fold_left]. apply last_from. Qed.

Lemma rank_of_set_rank (e : Engine) (r : Z) (h : Hit) :
  rank_of e (set_rank e r h) = Some r /\
  rank_of (other e) (set_rank e r h) = rank_of (other e) h.
Proof. destruct e; split; reflexivity. Qed.

(** Contributions to an existing entry leave its payload alone: they add
    their increments to the score and overwrite the engine's own rank. *)
Lemma hit_after_some (e : Engine) (k : string) (occ : list (string * Meta)) (h : Hit) :
  exists h',
    hit_after e k occ (Some h) = Some h' /\
    chunk_id h' = chunk_id h /\ source h' = source h /\
    page h' = page h /\ text h' = text h /\
    (rrf_score h' == rrf_score h + rrf_sum (ranks_of occ))%Q /\
    rank_of e h' = match last_position (ranks_of occ) with
                   | Some p => Some p
                   | None => rank_of e h
                   end /\
    rank_of (other e) h' = rank_of (other e) h.
Proof.
  revert h. induction occ as [|[c m] rest IH]; intros h.
  - exists h. cbn. repeat split; try reflexivity. lra.
  - unfold hit_after. cbn [fold_left]. unfold bump at 2. cbn [snd get_default].
    destruct (IH (set_rank e (meta_rank m) (add_score (rrf_increment (meta_rank m)) h)))
      as (h' & E & Hid & Hsrc & Hpg & Htx & Hsc & Hr & Ho).
    exists h'. unfold hit_after in E. rewrite E.
    split; [reflexivity|].
    destruct (rank_of_set_rank e (meta_rank m)
                (add_score (rrf_increment (meta_rank m)) h)) as [R1 R2].
    rewrite Hid, Hsrc, Hpg, Htx, Hsc, Hr, Ho, R1, R2.
    cbn [ranks_of map snd rrf_sum fold_right]. fold (ranks_of rest).
    fold (rrf_sum (ranks_of rest)). rewrite last_position_cons.
    repeat split; try (now destruct e).
    + destruct e; cbn; lra.
    + destruct (last_position (ranks_of rest)); reflexivity.
Qed.

(** The first contribution to a chunk creates its entry. *)
Lemma hit_after_none (e : Engine) (k : string) (cm : string * Meta)
    (rest : list (string * Meta)) :
  exists h',
    hit_after e k (cm :: rest) None = Some h' /\
    chunk_id h' = k /\ created_from h' cm /\
    (rrf_score h' == rrf_sum (ranks_of (cm :: rest)))%Q /\
    rank_of e h' = last_position (ranks_of (cm :: rest)) /\
    rank_of (other e) h' = None.
Proof.
  destruct cm as [c m].
  unfold hit_after. cbn [fold_left]. unfold bump at 2. cbn [snd get_default].
  destruct (hit_after_some e k rest
              (set_rank e (meta_rank m)
                 (add_score (rrf_increment (meta_rank m)) (fresh_hit k m))))
    as (h' & E & Hid & Hsrc & Hpg & Htx & Hsc & Hr & Ho).
  exists h'. unfold hit_after in E. rewrite E. split; [reflexivity|].
  destruct (rank_of_set_rank e (meta_rank m)
              (add_score (rrf_increment (meta_rank m)) (fresh_hit k m))) as [R1 R2].
  unfold created_from. rewrite Hid, Hsrc, Hpg, Htx, Hsc, Hr, Ho, R1, R2.
  cbn [ranks_of map snd rrf_sum fold_right]. fold (ranks_of rest).
  fold (rrf_sum (ranks_of rest)). rewrite last_position_cons.
  repeat split; try (now destruct e).
  all: try (destruct e; cbn; lra).
  all: destruct (last_position (ranks_of rest)); reflexivity.
Qed.

Lemma hit_after_nil (e : Engine) (k : string) (o : option Hit) :
  hit_after e k [] o = o.
Proof. reflexivity. Qed.

(** What the entry of a chunk in the fusion dict looks like. *)
Lemma fuse_entry (k : string) (C B : list (string * Meta)) (h : Hit) :
  py_not_str k = false ->
  dict_get k (fuse C B) = Some h ->
  chunk_id h = k /\
  (rrf_score h == rrf_sum (ranks_of (occurrences k C))
                  + rrf_sum (ranks_of (occurrences k B)))%Q /\
  chroma_rank h = last_position (ranks_of (occurrences k C)) /\
  bm25_rank h = last_position (ranks_of (occurrences k B)) /\
  exists cm, creator (occurrences k C) (occurrences k B) = Some cm /\
             created_from h cm.
Proof.
  intros Hk. rewrite (fuse_get k C B Hk).
  destruct (occurrences k C) as [|c occC].
  - rewrite hit_after_nil.
    destruct (occurrences k B) as [|b occB]; [discriminate|].
    destruct (hit_after_none bm25 k b occB)
      as (h' & E & Hid & Hcr & Hsc & Hr & Ho).
    rewrite E. intros [= <-]. cbn [rank_of other] in Hr, Ho.
    repeat split; try assumption.
    + rewrite Hsc. cbn. lra.
    + exists b. split; [reflexivity | assumption].
  - destruct (hit_after_none chroma k c occC)
      as (h0 & E0 & Hid0 & Hcr0 & Hsc0 & Hr0 & Ho0).
    rewrite E0.
    destruct (hit_after_some bm25 k (occurrences k B) h0)
      as (h' & E & Hid & Hsrc & Hpg & Htx & Hsc & Hr & Ho).
    rewrite E. intros [= <-]. cbn [rank_of other] in *.
    repeat split.
    + congruence.
    + rewrite Hsc, Hsc0. reflexivity.
    + congruence.
    + rewrite Hr, Ho0. destruct (last_position (ranks_of (occurrences k B))); reflexivity.
    + exists c. split; [reflexivity|].
      destruct Hcr0 as (S1 & S2 & S3). unfold created_from. repeat split; congruence.
Qed.

(** An entry exists exactly for the chunks that received a contribution. *)
Lemma fuse_get_some (k : string) (C B : list (string * Meta)) :
  py_not_str k = false ->
  (occurrences k C <> [] \/ occurrences k B <> []) ->
  exists h, dict_get k (fuse C B) = Some h.
Proof.
  intros Hk Hocc. rewrite (fuse_get k C B Hk).
  destruct (occurrences k C) as [|c occC].
  - destruct (occurrences k B) as [|b occB]; [destruct Hocc; congruence|].
    destruct (hit_after_none bm25 k b occB) as (h' & E & _). eauto.
  - destruct (hit_after_none chroma k c occC) as (h0 & E0 & _). rewrite E0.
    destruct (hit_after_some bm25 k (occurrences k B) h0) as (h' & E & _). eauto.
Qed.

End HitAfterFacts.

(* ====================================================================== *)
(** * From the engine results to the contributions *)
(* ====================================================================== *)

Section RetrievalFacts.
Import Answer FusionSpec FusionEntry.

Variable file_mtime : string -> option datetime.
Variable chunks_fts : list (string * string).

#[local] Abbreviation passes := (passes_before_filter file_mtime).

Lemma skip_cond_false (k src : string) (before : option datetime) :
  py_not_str k || negb (passes src before) = false <->
  py_not_str k = false /\ passes src before = true.
Proof.
  rewrite orb_false_iff, negb_false_iff. reflexivity.
Qed.

(** ** Semantic engine *)

Lemma chroma_meta_nonempty (before : option datetime) (l : list (Z * (Document * Q))) :
  nonempty_ids (flat_map (chroma_meta_of file_mtime before) l).
Proof.
  unfold nonempty_ids. induction l as [|ip l IH]; cbn [flat_map]; [constructor|].
  apply Forall_app. split; [|exact IH].
  unfold chroma_meta_of.
  destruct (py_not_str _ || negb _) eqn:E; [constructor|].
  apply skip_cond_false in E as [E _]. repeat constructor. exact E.
Qed.

Lemma chroma_meta_passes (before : option datetime) (l : list (Z * (Document * Q)))
    (k : string) (m : Meta) :
  In (k, m) (flat_map (chroma_meta_of file_mtime before) l) ->
  passes (meta_src m) before = true.
Proof.
  intros H. apply in_flat_map in H as (ip & _ & H).
  unfold chroma_meta_of in H.
  destruct (py_not_str _ || negb _) eqn:E; [destruct H|].
  apply skip_cond_false in E as [_ E].
  destruct H as [[= <- <-]|[]]. exact E.
Qed.

Lemma chroma_occurrences (before : option datetime) (k : string)
    (l : list (Z * (Document * Q))) :
  py_not_str k = false ->
  occurrences k (flat_map (chroma_meta_of file_mtime before) l)
  = map (fun ip => (k, mkMeta (meta_source (fst (snd ip))) (meta_page (fst (snd ip)))
                         (doc_full (fst (snd ip))) (fst ip)))
      (filter (fun ip => String.eqb (doc_chunk_id (fst (snd ip))) k &&
                         passes (meta_source (fst (snd ip))) before) l).
Proof.
  intros Hk. unfold occurrences.
  induction l as [|ip l IH]; [reflexivity|].
  cbn [flat_map filter]. rewrite filter_app, IH.
  unfold chroma_meta_of.
  destruct (String.eqb_spec (doc_chunk_id (fst (snd ip))) k) as [E|N].
  - rewrite E, Hk. cbn [orb andb].
    destruct (passes _ before); cbn [negb filter fst app map].
    + now rewrite String.eqb_refl.
    + reflexivity.
  - cbn [andb].
    destruct (py_not_str _ || negb _); cbn [filter fst app]; [reflexivity|].
    destruct (String.eqb_spec (doc_chunk_id (fst (snd ip))) k); [contradiction|].
    reflexivity.
Qed.

Lemma chroma_ranks (before : option datetime) (k : string)
    (chroma_pairs : list (Document * Q)) :
  py_not_str k = false ->
  ranks_of (occurrences k (chroma_meta_list_of file_mtime before chroma_pairs))
  = chroma_positions file_mtime before chroma_pairs k.
Proof.
  intros Hk. unfold chroma_meta_list_of, chroma_positions, ranks_of.
  rewrite (chroma_occurrences before k _ Hk), map_map. reflexivity.
Qed.

Lemma find_enumerate {X : Type} (p : X -> bool) (s : Z) (l : list X) :
  option_map snd (find (fun ix => p (snd ix)) (enumerate s l)) = find p l.
Proof.
  revert s. induction l as [|x l IH]; intros s; [reflexivity|].
  cbn [enumerate find snd]. destruct (p x); [reflexivity | apply IH].
Qed.

Lemma filter_head_find {X : Type} (p : X -> bool) (l : list X) :
  match find p l with
  | Some x => exists rest, filter p l = x :: rest
  | None => filter p l = []
  end.
Proof.
  induction l as [|y l IH]; [reflexivity|].
  cbn [find filter]. destruct (p y); [eauto | exact IH].
Qed.

(** The creating contribution of the semantic engine carries the payload
    of its first accepted result for the chunk. *)
Lemma chroma_first_occurrence (before : option datetime) (k : string)
    (chroma_pairs : list (Document * Q)) :
  py_not_str k = false ->
  match first_chroma_doc file_mtime before chroma_pairs k with
  | Some doc =>
      exists r rest,
        occurrences k (chroma_meta_list_of file_mtime before chroma_pairs)
        = (k, mkMeta (meta_source doc) (meta_page doc) (doc_full doc) r) :: rest
  | None => occurrences k (chroma_meta_list_of file_mtime before chroma_pairs) = []
  end.
Proof.
  intros Hk. unfold chroma_meta_list_of, first_chroma_doc.
  rewrite (chroma_occurrences before k _ Hk).
  rewrite <- (find_enumerate
    (fun dd => String.eqb (doc_chunk_id (fst dd)) k &&
               passes (meta_source (fst dd)) before) 1 chroma_pairs).
  pose proof (filter_head_find
    (fun ip : Z * (Document * Q) =>
       String.eqb (doc_chunk_id (fst (snd ip))) k &&
       passes (meta_source (fst (snd ip))) before) (enumerate 1 chroma_pairs)) as H.
  destruct (find _ (enumerate 1 chroma_pairs)) as [ip|]; cbn [option_map].
  - destruct H as (rest & ->). cbn [map]. eauto.
  - now rewrite H.
Qed.

(** ** Keyword engine *)

Lemma fill_texts_occurrences (tm : dict string) (k : string) (lst : list (string * Meta)) :
  occurrences k (fill_texts tm lst) = fill_texts tm (occurrences k lst).
Proof.
  unfold occurrences, fill_texts. induction lst as [|[c m] lst IH]; [reflexivity|].
  cbn [map filter fst snd].
  assert (E : fst (if py_not_str (meta_text m)
                   then (c, mkMeta (meta_src m) (meta_pg m)
                              (get_default (dict_get c tm) "") (meta_rank m))
                   else (c, m)) = c) by (destruct (py_not_str _); reflexivity).
  rewrite E. destruct (String.eqb c k); cbn [map fst snd]; now rewrite IH.
Qed.

Lemma fill_texts_ranks (tm : dict string) (lst : list (string * Meta)) :
  ranks_of (fill_texts tm lst) = ranks_of lst.
Proof.
  unfold ranks_of, fill_texts. rewrite map_map. apply map_ext.
  intros [c m]. cbn [snd fst]. destruct (py_not_str _); reflexivity.
Qed.

Lemma fill_texts_ids (tm : dict string) (lst : list (string * Meta)) :
  ids_of (fill_texts tm lst) = ids_of lst.
Proof.
  unfold ids_of, fill_texts. rewrite map_map. apply map_ext.
  intros [c m]. cbn [snd fst]. destruct (py_not_str _); reflexivity.
Qed.

Lemma fill_texts_in (tm : dict string) (lst : list (string * Meta))
    (k : string) (m : Meta) :
  In (k, m) (fill_texts tm lst) ->
  exists m0, In (k, m0) lst /\ meta_src m = meta_src m0 /\
             meta_pg m = meta_pg m0 /\ meta_rank m = meta_rank m0.
Proof.
  unfold fill_texts. intros H. apply in_map_iff in H as ([c m0] & E & Hin).
  cbn [fst snd] in E. destruct (py_not_str _); injection E as <- <-; eauto.
Qed.

Lemma bm25_meta_nonempty (before : option datetime) (tb : dict string)
    (l : list (Z * Row)) :
  nonempty_ids (flat_map (bm25_meta_of file_mtime before tb) l).
Proof.
  unfold nonempty_ids. induction l as [|ir l IH]; cbn [flat_map]; [constructor|].
  apply Forall_app. split; [|exact IH].
  unfold bm25_meta_of.
  destruct (py_not_str _ || negb _) eqn:E; [constructor|].
  apply skip_cond_false in E as [E _]. repeat constructor. exact E.
Qed.

Lemma bm25_meta_passes (before : option datetime) (tb : dict string)
    (l : list (Z * Row)) (k : string) (m : Meta) :
  In (k, m) (flat_map (bm25_meta_of file_mtime before tb) l) ->
  passes (meta_src m) before = true.
Proof.
  intros H. apply in_flat_map in H as (ir & _ & H).
  unfold bm25_meta_of in H.
  destruct (py_not_str _ || negb _) eqn:E; [destruct H|].
  apply skip_cond_false in E as [_ E].
  destruct H as [[= <- <-]|[]]. exact E.
Qed.

Lemma bm25_occurrences (before : option datetime) (tb : dict string) (k : string)
    (l : list (Z * Row)) :
  py_not_str k = false ->
  occurrences k (flat_map (bm25_meta_of file_mtime before tb) l)
  = map (fun ir => (k, mkMeta (row_source (snd ir)) (row_page (snd ir))
                         (match dict_get k tb with Some t => t | None => "" end)
                         (fst ir)))
      (filter (fun ir => String.eqb (row_chunk_id (snd ir)) k &&
                         passes (row_source (snd ir)) before) l).
Proof.
  intros Hk. unfold occurrences.
  induction l as [|ir l IH]; [reflexivity|].
  cbn [flat_map filter]. rewrite filter_app, IH.
  unfold bm25_meta_of.
  destruct (String.eqb_spec (row_chunk_id (snd ir)) k) as [E|N].
  - rewrite E, Hk. cbn [orb andb].
    destruct (passes _ before); cbn [negb filter fst app map].
    + now rewrite String.eqb_refl.
    + reflexivity.
  - cbn [andb].
    destruct (py_not_str _ || negb _); cbn [filter fst app]; [reflexivity|].
    destruct (String.eqb_spec (row_chunk_id (snd ir)) k); [contradiction|].
    reflexivity.
Qed.

Lemma bm25_contributions_ranks (before : option datetime) (k : string)
    (chroma_pairs : list (Document * Q)) (bm25_rows : list Row) :
  py_not_str k = false ->
  ranks_of (occurrences k
              (bm25_contributions file_mtime chunks_fts before chroma_pairs bm25_rows))
  = bm25_positions file_mtime before bm25_rows k.
Proof.
  intros Hk. unfold bm25_contributions.
  assert (H : ranks_of (occurrences k
                (bm25_meta_list_of file_mtime before
                   (chroma_text_by_id_of chroma_pairs) bm25_rows))
              = bm25_positions file_mtime before bm25_rows k).
  { unfold bm25_meta_list_of, bm25_positions, ranks_of.
    rewrite (bm25_occurrences before _ k _ Hk), map_map. reflexivity. }
  destruct (bm25_only_ids_of _ _ _ _); [exact H|].
  now rewrite fill_texts_occurrences, fill_texts_ranks.
Qed.

Lemma bm25_contributions_nonempty (before : option datetime)
    (chroma_pairs : list (Document * Q)) (bm25_rows : list Row) :
  nonempty_ids (bm25_contributions file_mtime chunks_fts before chroma_pairs bm25_rows).
Proof.
  unfold bm25_contributions.
  pose proof (bm25_meta_nonempty before (chroma_text_by_id_of chroma_pairs)
                (enumerate 1 bm25_rows)) as H.
  fold (bm25_meta_list_of file_mtime before (chroma_text_by_id_of chroma_pairs) bm25_rows) in H.
  destruct (bm25_only_ids_of _ _ _ _); [exact H|].
  unfold nonempty_ids in *. rewrite Forall_forall in *.
  intros [c m] Hin. apply fill_texts_in in Hin as (m0 & Hin & _).
  exact (H _ Hin).
Qed.

Lemma bm25_contributions_passes (before : option datetime)
    (chroma_pairs : list (Document * Q)) (bm25_rows : list Row)
    (k : string) (m : Meta) :
  In (k, m) (bm25_contributions file_mtime chunks_fts before chroma_pairs bm25_rows) ->
  passes (meta_src m) before = true.
Proof.
  unfold bm25_contributions, bm25_meta_list_of.
  destruct (bm25_only_ids_of _ _ _ _); intros Hin.
  - eapply bm25_meta_passes; eassumption.
  - apply fill_texts_in in Hin as (m0 & Hin & -> & _).
    eapply bm25_meta_passes; eassumption.
Qed.

(** ** The ranked output *)

Lemma rank_fused_in (C B : list (string * Meta)) (h : Hit) :
  In h (rank_fused (fuse C B)) <->
  py_not_str (chunk_id h) = false /\ dict_get (chunk_id h) (fuse C B) = Some h.
Proof.
  unfold rank_fused.
  destruct (fuse_well_keyed C B) as [Hnd Hent].
  split.
  - intros Hin. apply (Permutation_in _ (py_sorted_desc_perm rrf_score _)) in Hin.
    unfold dict_values in Hin. apply in_map_iff in Hin as ([k h'] & E & Hin).
    cbn [snd] in E. subst h'. destruct (Hent _ _ Hin) as [Hid Hk]. subst k.
    split; [exact Hk | now apply dict_in_get].
  - intros [_ Hget]. apply dict_get_in in Hget.
    apply (Permutation_in _ (Permutation_sym (py_sorted_desc_perm rrf_score _))).
    unfold dict_values. apply in_map_iff. exists (chunk_id h, h). now split.
Qed.

Lemma retrieve_from_in (before : option datetime)
    (chroma_pairs : list (Document * Q)) (bm25_rows : list Row) (h : Hit) :
  In h (retrieve_from file_mtime chunks_fts before chroma_pairs bm25_rows) <->
  py_not_str (chunk_id h) = false /\
  dict_get (chunk_id h)
    (fuse (chroma_meta_list_of file_mtime before chroma_pairs)
          (bm25_contributions file_mtime chunks_fts before chroma_pairs bm25_rows))
  = Some h.
Proof. apply rank_fused_in. Qed.

End RetrievalFacts.

(* ====================================================================== *)
(** * The fusion of [hybrid_query.py] *)
(* ====================================================================== *)

Section HybridQueryFacts.
Import Answer FusionSpec FusionEntry.

Variable file_mtime : string -> option datetime.
Variable snippet_from_text : string -> string.

#[local] Abbreviation accepts := (HybridQuery.accepts file_mtime).
#[local] Abbreviation chroma_hits := (HybridQuery.chroma_hits_of snippet_from_text).

(** The loops of [main] are the loops of [retrieve_hybrid] on the accepted
    results. *)
Lemma hq_fusion_loop (e : Engine) (before : option datetime)
    (lst : list (string * Meta)) (sm : dict Hit) :
  HybridQuery.fusion_loop file_mtime e before lst sm
  = fusion_loop e (filter (accepts before) lst) sm.
Proof.
  revert sm. induction lst as [|cm lst IH]; intros sm; [reflexivity|].
  unfold HybridQuery.fusion_loop, fusion_loop in *.
  cbn [fold_left filter]. unfold HybridQuery.accepts at 1.
  destruct (py_not_str (fst cm)) eqn:Ek; cbn [negb andb]; [apply IH|].
  destruct (passes_before_filter file_mtime (meta_src (snd cm)) before);
    cbn [negb fold_left]; [|apply IH].
  rewrite Ek. apply IH.
Qed.

Lemma hq_fused (before : option datetime) (cp : list (Document * Q)) (br : list Row) :
  HybridQuery.fused_of file_mtime snippet_from_text before cp br
  = fuse (filter (accepts before) (chroma_hits cp))
         (filter (accepts before) (HybridQuery.bm25_hits_of br)).
Proof.
  unfold HybridQuery.fused_of, fuse. now rewrite !hq_fusion_loop.
Qed.

Lemma hq_accepted_nonempty (before : option datetime) (lst : list (string * Meta)) :
  nonempty_ids (filter (accepts before) lst).
Proof.
  unfold nonempty_ids. apply Forall_forall. intros cm Hin.
  apply filter_In in Hin as [_ H]. unfold HybridQuery.accepts in H.
  apply andb_true_iff in H as [H _]. now apply negb_true_iff in H.
Qed.

Lemma hq_chroma_ranks (before : option datetime) (k : string)
    (cp : list (Document * Q)) :
  py_not_str k = false ->
  ranks_of (occurrences k (filter (accepts before) (chroma_hits cp)))
  = chroma_positions file_mtime before cp k.
Proof.
  intros Hk. unfold HybridQuery.chroma_hits_of, chroma_positions, occurrences, ranks_of.
  induction (enumerate 1 cp) as [|ip l IH]; [reflexivity|].
  cbn [map filter fst snd]. unfold HybridQuery.accepts at 1. cbn [fst snd meta_src].
  destruct (String.eqb_spec (doc_chunk_id (fst (snd ip))) k) as [E|N].
  - rewrite E, Hk. cbn [negb andb].
    destruct (passes_before_filter file_mtime (meta_source (fst (snd ip))) before);
      cbn [filter fst map snd meta_rank]; [|exact IH].
    rewrite String.eqb_refl. cbn [map snd meta_rank]. now rewrite IH.
  - cbn [andb].
    destruct (negb _ && _); cbn [filter fst]; [|exact IH].
    destruct (String.eqb_spec (doc_chunk_id (fst (snd ip))) k); [contradiction|].
    exact IH.
Qed.

Lemma hq_bm25_ranks (before : option datetime) (k : string) (br : list Row) :
  py_not_str k = false ->
  ranks_of (occurrences k (filter (accepts before) (HybridQuery.bm25_hits_of br)))
  = bm25_positions file_mtime before br k.
Proof.
  intros Hk. unfold HybridQuery.bm25_hits_of, bm25_positions, occurrences, ranks_of.
  induction (enumerate 1 br) as [|ir l IH]; [reflexivity|].
  cbn [map filter fst snd]. unfold HybridQuery.accepts at 1. cbn [fst snd meta_src].
  destruct (String.eqb_spec (row_chunk_id (snd ir)) k) as [E|N].
  - rewrite E, Hk. cbn [negb andb].
    destruct (passes_before_filter file_mtime (row_source (snd ir)) before);
      cbn [filter fst map snd meta_rank]; [|exact IH].
    rewrite String.eqb_refl. cbn [map snd meta_rank]. now rewrite IH.
  - cbn [andb].
    destruct (negb _ && _); cbn [filter fst]; [|exact IH].
    destruct (String.eqb_spec (row_chunk_id (snd ir)) k); [contradiction|].
    exact IH.
Qed.

Lemma hq_chroma_ids (before : option datetime) (cp : list (Document * Q)) :
  ids_of (filter (accepts before) (chroma_hits cp))
  = accepted_chroma_ids file_mtime before cp.
Proof.
  unfold HybridQuery.chroma_hits_of, accepted_chroma_ids, ids_of. generalize 1.
  induction cp as [|[doc dist] cp IH]; intros s; [reflexivity|].
  cbn [enumerate map filter fst snd]. unfold HybridQuery.accepts at 1.
  cbn [fst snd meta_src].
  destruct (negb _ && _); cbn [map fst]; now rewrite IH.
Qed.

Lemma hq_bm25_ids (before : option datetime) (br : list Row) :
  ids_of (filter (accepts before) (HybridQuery.bm25_hits_of br))
  = accepted_bm25_ids file_mtime before br.
Proof.
  unfold HybridQuery.bm25_hits_of, accepted_bm25_ids, ids_of. generalize 1.
  induction br as [|row br IH]; intros s; [reflexivity|].
  cbn [enumerate map filter fst snd]. unfold HybridQuery.accepts at 1.
  cbn [fst snd meta_src].
  destruct (negb _ && _); cbn [map fst]; now rewrite IH.
Qed.

(** [l[:k]] is a prefix of [l]. *)
Lemma py_slice_to_prefix {X : Type} (l : list X) (k : Z) :
  exists n, py_slice_to l k = firstn n l.
Proof. unfold py_slice_to. destruct (0 <=? k); eauto. Qed.

Lemma py_slice_to_rest {X : Type} (l : list X) (k : Z) :
  exists rest, l = py_slice_to l k ++ rest.
Proof.
  destruct (py_slice_to_prefix l k) as [n ->].
  exists (skipn n l). now rewrite firstn_skipn.
Qed.

End HybridQueryFacts.

(* ====================================================================== *)
(** * Claims about the fused score *)
(* ====================================================================== *)

Section ScoreClaims.
Import Answer FusionSpec FusionEntry.

Lemma enumerate_ge {X : Type} (s : Z) (l : list X) (i : Z) (x : X) :
  In (i, x) (enumerate s l) -> s <= i.
Proof.
  revert s. induction l as [|y l IH]; intros s H; [destruct H|].
  destruct H as [[= <- _]|H]; [lia|]. apply IH in H. lia.
Qed.

Lemma chroma_positions_ge (fm : string -> option datetime) (before : option datetime)
    (cp : list (Document * Q)) (k : string) (p : Z) :
  In p (chroma_positions fm before cp k) -> 1 <= p.
Proof.
  unfold chroma_positions. intros H.
  apply in_map_iff in H as ([i x] & <- & H). apply filter_In in H as [H _].
  now apply enumerate_ge in H.
Qed.

Lemma bm25_positions_ge (fm : string -> option datetime) (before : option datetime)
    (br : list Row) (k : string) (p : Z) :
  In p (bm25_positions fm before br k) -> 1 <= p.
Proof.
  unfold bm25_positions. intros H.
  apply in_map_iff in H as ([i x] & <- & H). apply filter_In in H as [H _].
  now apply enumerate_ge in H.
Qed.

Lemma rrf_increment_pos (p : Z) : 1 <= p -> (0 < rrf_increment p)%Q.
Proof.
  intros Hp. unfold rrf_increment, Qdiv. rewrite Qmult_1_l.
  apply Qinv_lt_0_compat. unfold RRF_K.
  change 0%Q with (inject_Z 0). rewrite <- Zlt_Qlt. lia.
Qed.

Lemma rrf_increment_60 (p : Z) : rrf_increment p = (1 / inject_Z (60 + p))%Q.
Proof. reflexivity. Qed.

Lemma ranks_nonempty_nil (occ : list (string * Meta)) :
  ranks_of occ = [] -> occ = [].
Proof. destruct occ; [reflexivity | discriminate]. Qed.

Lemma ranks_nonempty (occ : list (string * Meta)) :
  ranks_of occ <> [] <-> occ <> [].
Proof. destruct occ; cbn; split; intros H; congruence. Qed.

(** The entry of a returned hit, in terms of the engine positions. *)
Lemma retrieve_from_entry (fm : string -> option datetime)
    (fts : list (string * string)) (before : option datetime)
    (cp : list (Document * Q)) (br : list Row) (h : Hit) :
  In h (retrieve_from fm fts before cp br) ->
  py_not_str (chunk_id h) = false /\
  (rrf_score h == rrf_sum (chroma_positions fm before cp (chunk_id h))
                  + rrf_sum (bm25_positions fm before br (chunk_id h)))%Q /\
  chroma_rank h = last_position (chroma_positions fm before cp (chunk_id h)) /\
  bm25_rank h = last_position (bm25_positions fm before br (chunk_id h)) /\
  exists cm,
    creator (occurrences (chunk_id h) (chroma_meta_list_of fm before cp))
            (occurrences (chunk_id h) (bm25_contributions fm fts before cp br))
    = Some cm /\ created_from h cm.
Proof.
  intros Hin. apply retrieve_from_in in Hin as [Hk Hget].
  apply (fuse_entry _ _ _ _ Hk) in Hget as (_ & Hsc & Hcr & Hbr & Hcm).
  rewrite (chroma_ranks fm before _ cp Hk) in Hsc, Hcr.
  rewrite (bm25_contributions_ranks fm fts before _ cp br Hk) in Hsc, Hbr.
  repeat split; assumption.
Qed.

(** The entry of a chunk in a fusion dict whose contribution lists carry
    the engine positions satisfies the score rule. *)
Lemma entry_score (fm : string -> option datetime) (before : option datetime)
    (cp : list (Document * Q)) (br : list Row)
    (C B : list (string * Meta)) (h : Hit) :
  (forall k, py_not_str k = false ->
             ranks_of (occurrences k C) = chroma_positions fm before cp k) ->
  (forall k, py_not_str k = false ->
             ranks_of (occurrences k B) = bm25_positions fm before br k) ->
  In h (rank_fused (fuse C B)) ->
  score_is_rrf_sum fm before cp br h.
Proof.
  intros HC HB Hin. apply rank_fused_in in Hin as [Hk Hget].
  apply (fuse_entry _ _ _ _ Hk) in Hget as (_ & Hsc & Hcr & Hbr & cm & Hcm & _).
  assert (Hne : chroma_positions fm before cp (chunk_id h) <> [] \/
                bm25_positions fm before br (chunk_id h) <> []).
  { rewrite <- (HC _ Hk), <- (HB _ Hk), !ranks_nonempty. unfold creator in Hcm.
    destruct (occurrences (chunk_id h) C); [|left; discriminate].
    destruct (occurrences (chunk_id h) B); [discriminate | right; discriminate]. }
  rewrite (HC _ Hk) in Hsc, Hcr. rewrite (HB _ Hk) in Hsc, Hbr.
  unfold score_is_rrf_sum.
  set (cpos := chroma_positions fm before cp (chunk_id h)) in *.
  set (bpos := bm25_positions fm before br (chunk_id h)) in *.
  split; [exact Hsc|]. split; [exact Hcr|]. split; [exact Hbr|].
  split; [exact Hne|]. split; [|split].
  - intros rs Ec Eb. rewrite Hsc, Ec, Eb. cbn [rrf_sum fold_right].
    rewrite rrf_increment_60. lra.
  - intros rk Ec Eb. rewrite Hsc, Ec, Eb. cbn [rrf_sum fold_right].
    rewrite rrf_increment_60. lra.
  - intros rs rk Ec Eb.
    assert (Hrs : (0 < rrf_increment rs)%Q).
    { apply rrf_increment_pos, (chroma_positions_ge fm before cp (chunk_id h)).
      fold cpos. rewrite Ec. now left. }
    assert (Hrk : (0 < rrf_increment rk)%Q).
    { apply rrf_increment_pos, (bm25_positions_ge fm before br (chunk_id h)).
      fold bpos. rewrite Eb. now left. }
    rewrite Hcr, Hbr, Hsc, Ec, Eb. cbn [rrf_sum fold_right last_position fold_left].
    rewrite !rrf_increment_60 in *.
    repeat split; lra.
Qed.

(** ** C1 *)

(** C1. For every query, the score of each hit that [retrieve_hybrid]
    returns, and of each hit the hybrid search command ranks, is the sum of
    [1/(60 + p)] over the positions [p] (1-based, in the engine's own result
    list) at which the semantic and the keyword engine returned that chunk
    from a file that passes the date filter, and at least one engine did.
    A chunk that only one engine returned, at position [r], has score
    [1/(60 + r)]; a chunk that the semantic engine returned at [rs] and the
    keyword engine at [rk] has both ranks recorded and score
    [1/(60 + rs) + 1/(60 + rk)], strictly more than either term alone. *)
Theorem rrf_score_is_sum_of_reciprocal_ranks :
  forall (file_mtime : string -> option datetime)
         (similarity_search_with_score : string -> Z -> list (Document * Q))
         (search : string -> Z -> list Row)
         (query : string) (before_dt : option datetime) (ck bk : Z) (h : Hit),
    (forall chunks_fts : list (string * string),
       In h (retrieve_hybrid file_mtime similarity_search_with_score search
               chunks_fts query before_dt ck bk) ->
       score_is_rrf_sum file_mtime before_dt
         (similarity_search_with_score query ck) (search query bk) h) /\
    (forall (snippet_from_text : string -> string) (k : Z),
       In h (HybridQuery.main_ranked file_mtime similarity_search_with_score
               search snippet_from_text query k before_dt ck bk) ->
       score_is_rrf_sum file_mtime before_dt
         (similarity_search_with_score query ck) (search query bk) h).
Proof.
  intros fm sim srch query before ck bk h. split.
  - intros fts Hin. unfold retrieve_hybrid, retrieve_from in Hin.
    eapply entry_score; [| |exact Hin].
    + intros k Hk. now apply chroma_ranks.
    + intros k Hk. now apply bm25_contributions_ranks.
  - intros snip k Hin. unfold HybridQuery.main_ranked, HybridQuery.ranked_of in Hin.
    destruct (py_slice_to_rest
                (rank_fused (HybridQuery.fused_of fm snip before
                               (sim query ck) (srch query bk))) k) as [rest E].
    assert (Hin' : In h (rank_fused (HybridQuery.fused_of fm snip before
                                       (sim query ck) (srch query bk))))
      by (rewrite E; apply in_or_app; now left).
    rewrite hq_fused in Hin'.
    eapply entry_score; [| |exact Hin'].
    + intros k' Hk. now apply hq_chroma_ranks.
    + intros k' Hk. now apply hq_bm25_ranks.
Qed.

Lemma rrf_score_is_sum_of_reciprocal_ranks_witness :
  In Example.hit_rome Example.hits_no_cutoff /\
  (rrf_score Example.hit_rome == 1 / inject_Z (60 + 1) + 1 / inject_Z (60 + 2))%Q.
Proof.
  assert (Hin : In Example.hit_rome Example.hits_no_cutoff)
    by (vm_compute; tauto).
  split; [exact Hin|].
  pose proof (proj1 (rrf_score_is_sum_of_reciprocal_ranks
                Example.file_mtime Example.similarity_search_with_score
                Example.search "who captured Rome" None 8 20 Example.hit_rome)
                Example.chunks_fts Hin) as H.
  destruct H as (_ & _ & _ & _ & _ & _ & H).
  apply (H 1 2); reflexivity.
Defined.

End ScoreClaims.

(* ====================================================================== *)
(** * Claims about the temporal filter and the payload of a hit *)
(* ====================================================================== *)

Section FilterClaims.
Import Answer FusionSpec FusionEntry.

Lemma occurrences_head_in (k : string) (lst : list (string * Meta))
    (cm : string * Meta) (rest : list (string * Meta)) :
  occurrences k lst = cm :: rest -> In cm lst /\ fst cm = k.
Proof.
  intros H. assert (Hin : In cm (occurrences k lst)) by (rewrite H; now left).
  unfold occurrences in Hin. apply filter_In in Hin as [Hin E].
  apply String.eqb_eq in E. now split.
Qed.

Lemma creator_in (k : string) (C B : list (string * Meta)) (cm : string * Meta) :
  creator (occurrences k C) (occurrences k B) = Some cm ->
  (In cm C \/ In cm B) /\ fst cm = k.
Proof.
  unfold creator.
  destruct (occurrences k C) as [|c occC] eqn:EC.
  - destruct (occurrences k B) as [|b occB] eqn:EB; [discriminate|].
    intros [= <-]. apply occurrences_head_in in EB as [H1 H2]. split; [now right | exact H2].
  - intros [= <-]. apply occurrences_head_in in EC as [H1 H2]. split; [now left | exact H2].
Qed.

Lemma enumerate_in {X : Type} (s : Z) (l : list X) (x : X) :
  In x l -> exists i, In (i, x) (enumerate s l).
Proof.
  revert s. induction l as [|y l IH]; intros s H; [destruct H|].
  destruct H as [->|H].
  - exists s. now left.
  - destruct (IH (s + 1) H) as [i Hi]. exists i. now right.
Qed.

Lemma positions_nonempty_occ (k : string) (C B : list (string * Meta)) :
  ranks_of (occurrences k C) <> [] \/ ranks_of (occurrences k B) <> [] ->
  occurrences k C <> [] \/ occurrences k B <> [].
Proof. rewrite !ranks_nonempty. tauto. Qed.

(** A chunk with an accepted result in either list has a hit in the output. *)
Lemma retrieve_from_exists (fm : string -> option datetime)
    (fts : list (string * string)) (before : option datetime)
    (cp : list (Document * Q)) (br : list Row) (k : string) :
  py_not_str k = false ->
  chroma_positions fm before cp k <> [] \/ bm25_positions fm before br k <> [] ->
  exists h, In h (retrieve_from fm fts before cp br) /\ chunk_id h = k.
Proof.
  intros Hk Hpos.
  rewrite <- (chroma_ranks fm before k cp Hk) in Hpos.
  rewrite <- (bm25_contributions_ranks fm fts before k cp br Hk) in Hpos.
  apply positions_nonempty_occ in Hpos.
  destruct (fuse_get_some k _ _ Hk Hpos) as [h Hget].
  pose proof (fuse_entry k _ _ h Hk Hget) as (Hid & _).
  exists h. split; [|exact Hid].
  apply retrieve_from_in. rewrite Hid. now split.
Qed.

Lemma chroma_positions_of_result (fm : string -> option datetime)
    (before : option datetime) (cp : list (Document * Q))
    (doc : Document) (dist : Q) :
  In (doc, dist) cp ->
  passes_before_filter fm (meta_source doc) before = true ->
  chroma_positions fm before cp (doc_chunk_id doc) <> [].
Proof.
  intros Hin Hp. destruct (enumerate_in 1 cp _ Hin) as [i Hi].
  unfold chroma_positions. intros E.
  assert (H : In i (map fst (filter
     (fun ip : Z * (Document * Q) =>
        String.eqb (doc_chunk_id (fst (snd ip))) (doc_chunk_id doc) &&
        passes_before_filter fm (meta_source (fst (snd ip))) before)
     (enumerate 1 cp)))).
  { apply in_map_iff. exists (i, (doc, dist)). split; [reflexivity|].
    apply filter_In. split; [exact Hi|]. cbn [fst snd].
    now rewrite String.eqb_refl, Hp. }
  rewrite E in H. destruct H.
Qed.

Lemma bm25_positions_of_result (fm : string -> option datetime)
    (before : option datetime) (br : list Row) (row : Row) :
  In row br ->
  passes_before_filter fm (row_source row) before = true ->
  bm25_positions fm before br (row_chunk_id row) <> [].
Proof.
  intros Hin Hp. destruct (enumerate_in 1 br _ Hin) as [i Hi].
  unfold bm25_positions. intros E.
  assert (H : In i (map fst (filter
     (fun ir : Z * Row =>
        String.eqb (row_chunk_id (snd ir)) (row_chunk_id row) &&
        passes_before_filter fm (row_source (snd ir)) before)
     (enumerate 1 br)))).
  { apply in_map_iff. exists (i, row). split; [reflexivity|].
    apply filter_In. split; [exact Hi|]. cbn [fst snd].
    now rewrite String.eqb_refl, Hp. }
  rewrite E in H. destruct H.
Qed.

(** The source of a returned hit passed the filter. *)
Lemma retrieve_from_source_passes (fm : string -> option datetime)
    (fts : list (string * string)) (before : option datetime)
    (cp : list (Document * Q)) (br : list Row) (h : Hit) :
  In h (retrieve_from fm fts before cp br) ->
  passes_before_filter fm (source h) before = true.
Proof.
  intros Hin.
  destruct (retrieve_from_entry fm fts before cp br h Hin)
    as (_ & _ & _ & _ & cm & Hcm & (Hsrc & _)).
  apply creator_in in Hcm as [[HC|HB] _]; rewrite Hsrc; destruct cm as [c m].
  - eapply chroma_meta_passes. exact HC.
  - eapply bm25_contributions_passes. exact HB.
Qed.

(** ** C3 *)

(** C3. Under a cutoff date [D] every hit that [retrieve_hybrid] returns
    comes from a file whose modification time is available and strictly
    earlier than [D].  Without a cutoff the filter accepts every path, and
    every result of either engine that carries a chunk id has a hit in the
    output. *)
Theorem temporal_filter_strict_and_fail_closed :
  forall (file_mtime : string -> option datetime)
         (similarity_search_with_score : string -> Z -> list (Document * Q))
         (search : string -> Z -> list Row)
         (chunks_fts : list (string * string))
         (query : string) (ck bk : Z),
    (forall (D : datetime) (h : Hit),
       In h (retrieve_hybrid file_mtime similarity_search_with_score search
               chunks_fts query (Some D) ck bk) ->
       file_mtime (source h) <> None /\
       exists t, file_mtime (source h) = Some t /\ t < D) /\
    (forall path : string, passes_before_filter file_mtime path None = true) /\
    (forall (doc : Document) (dist : Q),
       In (doc, dist) (similarity_search_with_score query ck) ->
       doc_chunk_id doc <> "" ->
       exists h,
         In h (retrieve_hybrid file_mtime similarity_search_with_score search
                 chunks_fts query None ck bk) /\
         chunk_id h = doc_chunk_id doc) /\
    (forall row : Row,
       In row (search query bk) ->
       row_chunk_id row <> "" ->
       exists h,
         In h (retrieve_hybrid file_mtime similarity_search_with_score search
                 chunks_fts query None ck bk) /\
         chunk_id h = row_chunk_id row).
Proof.
  intros fm sim srch fts query ck bk. unfold retrieve_hybrid.
  split; [|split; [|split]].
  - intros D h Hin. apply retrieve_from_source_passes in Hin.
    unfold passes_before_filter in Hin.
    destruct (fm (source h)) as [t|]; [|discriminate].
    split; [discriminate|]. exists t. split; [reflexivity|].
    now apply Z.ltb_lt.
  - reflexivity.
  - intros doc dist Hin Hne.
    apply retrieve_from_exists.
    + destruct (doc_chunk_id doc); [congruence | reflexivity].
    + left. eapply chroma_positions_of_result; [exact Hin | reflexivity].
  - intros row Hin Hne.
    apply retrieve_from_exists.
    + destruct (row_chunk_id row); [congruence | reflexivity].
    + right. eapply bm25_positions_of_result; [exact Hin | reflexivity].
Qed.

End FilterClaims.

Section PayloadClaims.
Import Answer FusionSpec FusionEntry.

Lemma fold_dict_set_keys {X V : Type} (f : X -> string) (g : X -> V)
    (l : list X) (acc : dict V) (k : string) :
  In k (dict_keys (fold_left (fun a x => dict_set (f x) (g x) a) l acc)) ->
  In k (dict_keys acc) \/ In k (map f l).
Proof.
  revert acc. induction l as [|x l IH]; intros acc H; [now left|].
  cbn [fold_left] in H. apply IH in H as [H|H].
  - rewrite dict_keys_set in H. destruct (dict_mem (f x) acc); [now left|].
    apply in_app_or in H as [H|[<-|[]]]; [now left|]. right. now left.
  - right. now right.
Qed.

Lemma map_snd_enumerate {X Y : Type} (g : X -> Y) (s : Z) (l : list X) :
  map (fun ix => g (snd ix)) (enumerate s l) = map g l.
Proof.
  revert s. induction l as [|x l IH]; intros s; [reflexivity|].
  cbn [enumerate map snd]. now rewrite IH.
Qed.

Lemma chroma_text_by_id_none (cp : list (Document * Q)) (k : string) :
  ~ In k (map (fun dd => doc_chunk_id (fst dd)) cp) ->
  dict_get k (chroma_text_by_id_of cp) = None.
Proof.
  intros Hk. apply dict_get_none. intros Hin.
  unfold chroma_text_by_id_of in Hin.
  apply (fold_dict_set_keys
           (fun ip : Z * (Document * Q) => doc_chunk_id (fst (snd ip)))
           (fun ip : Z * (Document * Q) => doc_full (fst (snd ip)))) in Hin.
  destruct Hin as [[]|Hin].
  rewrite (map_snd_enumerate (fun dd : Document * Q => doc_chunk_id (fst dd))) in Hin.
  contradiction.
Qed.

Lemma text_map_none (fts : list (string * string)) (ids : list string) (k : string) :
  (forall t, ~ In (k, t) fts) ->
  dict_get k (text_map_of (fetch_texts fts ids)) = None.
Proof.
  intros Hk. apply dict_get_none. intros Hin. unfold text_map_of in Hin.
  apply (fold_dict_set_keys (fun r : string * string => fst r)
           (fun r : string * string => snd r)) in Hin.
  destruct Hin as [[]|Hin].
  apply in_map_iff in Hin as ([k' t] & E & Hin). cbn [fst] in E. subst k'.
  unfold fetch_texts in Hin. apply filter_In in Hin as [Hin _].
  exact (Hk t Hin).
Qed.

Lemma chroma_positions_absent (fm : string -> option datetime)
    (before : option datetime) (cp : list (Document * Q)) (k : string) :
  ~ In k (map (fun dd => doc_chunk_id (fst dd)) cp) ->
  chroma_positions fm before cp k = [].
Proof.
  intros Hk. unfold chroma_positions.
  destruct (filter _ (enumerate 1 cp)) as [|ip rest] eqn:E; [reflexivity|].
  exfalso. assert (Hin : In ip (filter
     (fun ip : Z * (Document * Q) =>
        String.eqb (doc_chunk_id (fst (snd ip))) k &&
        passes_before_filter fm (meta_source (fst (snd ip))) before)
     (enumerate 1 cp))) by (rewrite E; now left).
  apply filter_In in Hin as [Hin Hc]. apply andb_true_iff in Hc as [Hc _].
  apply String.eqb_eq in Hc. apply Hk.
  rewrite <- (map_snd_enumerate (fun dd : Document * Q => doc_chunk_id (fst dd)) 1 cp).
  apply in_map_iff. exists ip. now split.
Qed.

Lemma bm25_only_ids_in (fm : string -> option datetime) (before : option datetime)
    (tb : dict string) (br : list Row) (row : Row) :
  In row br -> py_not_str (row_chunk_id row) = false ->
  passes_before_filter fm (row_source row) before = true ->
  dict_get (row_chunk_id row) tb = None ->
  In (row_chunk_id row) (bm25_only_ids_of fm before tb br).
Proof.
  intros Hin Hk Hp Hget. unfold bm25_only_ids_of.
  apply in_flat_map. exists row. split; [exact Hin|].
  rewrite Hk, Hp. cbn [orb negb]. unfold dict_mem. rewrite Hget. now left.
Qed.

(** The contributions of the keyword engine to a chunk that neither the
    semantic engine nor the full-text table knows carry the empty text. *)
Lemma bm25_contributions_empty_text (fm : string -> option datetime)
    (fts : list (string * string)) (before : option datetime)
    (cp : list (Document * Q)) (br : list Row) (k : string) (cm : string * Meta) :
  py_not_str k = false ->
  ~ In k (map (fun dd => doc_chunk_id (fst dd)) cp) ->
  (forall t, ~ In (k, t) fts) ->
  In cm (occurrences k (bm25_contributions fm fts before cp br)) ->
  meta_text (snd cm) = "".
Proof.
  intros Hk Habs Hfts Hin.
  pose proof (chroma_text_by_id_none cp k Habs) as Hnone.
  unfold bm25_contributions in Hin.
  assert (H0 : forall cm0,
             In cm0 (occurrences k (bm25_meta_list_of fm before
                                      (chroma_text_by_id_of cp) br)) ->
             fst cm0 = k /\ meta_text (snd cm0) = "").
  { intros cm0 H. unfold bm25_meta_list_of in H.
    rewrite (bm25_occurrences fm before _ k _ Hk), Hnone in H.
    apply in_map_iff in H as (ir & <- & _). now split. }
  destruct (bm25_only_ids_of _ _ _ _) as [|i ids].
  - now apply H0.
  - rewrite fill_texts_occurrences in Hin. unfold fill_texts in Hin.
    apply in_map_iff in Hin as (cm0 & <- & Hin0).
    destruct (H0 cm0 Hin0) as [Hf Ht]. rewrite Ht. cbn [py_not_str snd meta_text].
    rewrite Hf, (text_map_none fts (i :: ids) k Hfts). reflexivity.
Qed.

Lemma retrieve_from_no_rows (fm : string -> option datetime)
    (fts : list (string * string)) (before : option datetime)
    (cp : list (Document * Q)) :
  bm25_contributions fm fts before cp [] = [].
Proof. reflexivity. Qed.

(** ** C10 *)

(** C10. In [retrieve_hybrid], a returned hit whose chunk the semantic
    engine returned (from a file that passes the date filter) carries the
    source, page and full text of the first such semantic result; compared
    with the hit the semantic results alone produce, the keyword engine's
    contributions change only [bm25_rank], which becomes the keyword
    position, and [rrf_score], to which their increments are added.  A chunk
    that only the keyword engine returned and for which the full-text table
    has no row is still returned, with the empty string as text. *)
Theorem hit_keeps_first_discoverer_payload :
  forall (file_mtime : string -> option datetime)
         (similarity_search_with_score : string -> Z -> list (Document * Q))
         (search : string -> Z -> list Row)
         (chunks_fts : list (string * string))
         (query : string) (before_dt : option datetime) (ck bk : Z),
    (forall (h : Hit) (doc : Document),
       In h (retrieve_hybrid file_mtime similarity_search_with_score search
               chunks_fts query before_dt ck bk) ->
       first_chroma_doc file_mtime before_dt
         (similarity_search_with_score query ck) (chunk_id h) = Some doc ->
       source h = meta_source doc /\
       page h = meta_page doc /\
       text h = doc_full doc /\
       exists h0,
         In h0 (retrieve_from file_mtime chunks_fts before_dt
                  (similarity_search_with_score query ck) []) /\
         chunk_id h0 = chunk_id h /\
         source h = source h0 /\ page h = page h0 /\ text h = text h0 /\
         chroma_rank h = chroma_rank h0 /\
         bm25_rank h0 = None /\
         bm25_rank h = last_position
                         (bm25_positions file_mtime before_dt (search query bk)
                            (chunk_id h)) /\
         (rrf_score h == rrf_score h0
                         + rrf_sum (bm25_positions file_mtime before_dt
                                      (search query bk) (chunk_id h)))%Q) /\
    (forall row : Row,
       In row (search query bk) ->
       row_chunk_id row <> "" ->
       passes_before_filter file_mtime (row_source row) before_dt = true ->
       ~ In (row_chunk_id row)
            (map (fun dd => doc_chunk_id (fst dd)) (similarity_search_with_score query ck)) ->
       (forall t, ~ In (row_chunk_id row, t) chunks_fts) ->
       exists h,
         In h (retrieve_hybrid file_mtime similarity_search_with_score search
                 chunks_fts query before_dt ck bk) /\
         chunk_id h = row_chunk_id row /\
         text h = "" /\
         chroma_rank h = None).
Proof.
  intros fm sim srch fts query before ck bk. unfold retrieve_hybrid.
  set (cp := sim query ck). set (br := srch query bk). split.
  - intros h doc Hin Hdoc.
    pose proof Hin as Hin'. apply retrieve_from_in in Hin' as [Hk Hget].
    pose proof (chroma_first_occurrence fm before (chunk_id h) cp Hk) as Hocc.
    rewrite Hdoc in Hocc. destruct Hocc as (r & rest & Hocc).
    rewrite (fuse_get _ _ _ Hk), Hocc in Hget.
    destruct (hit_after_none chroma (chunk_id h)
                (chunk_id h, mkMeta (meta_source doc) (meta_page doc) (doc_full doc) r)
                rest)
      as (h0 & E0 & Hid0 & (S1 & S2 & S3) & Hsc0 & Hr0 & Ho0).
    rewrite E0 in Hget.
    destruct (hit_after_some bm25 (chunk_id h) 
                (occurrences (chunk_id h) (bm25_contributions fm fts before cp br)) h0)
      as (h' & E & Hid & Hsrc & Hpg & Htx & Hsc & Hr & Ho).
    rewrite E in Hget. injection Hget as ->.
    cbn [rank_of other snd meta_src meta_pg meta_text] in *.
    rewrite (bm25_contributions_ranks fm fts before _ cp br Hk) in Hsc, Hr.
    rewrite Hsrc, Hpg, Htx, S1, S2, S3.
    split; [reflexivity|]. split; [reflexivity|]. split; [reflexivity|].
    exists h0. split.
    { apply retrieve_from_in. rewrite Hid0. split; [exact Hk|].
      rewrite retrieve_from_no_rows, (fuse_get _ _ _ Hk), Hocc.
      cbn [occurrences filter]. rewrite hit_after_nil. exact E0. }
    rewrite Hr, Ho0.
    repeat split; try congruence; try exact Hsc.
    destruct (last_position (bm25_positions fm before br (chunk_id h))); reflexivity.
  - intros row Hin Hne Hp Habs Hfts.
    assert (Hk : py_not_str (row_chunk_id row) = false)
      by (destruct (row_chunk_id row); [congruence | reflexivity]).
    destruct (retrieve_from_exists fm fts before cp br (row_chunk_id row) Hk)
      as (h & Hh & Hid).
    { right. now apply bm25_positions_of_result. }
    exists h. split; [exact Hh|]. split; [exact Hid|].
    destruct (retrieve_from_entry fm fts before cp br h Hh)
      as (_ & _ & Hcr & _ & cm & Hcm & (_ & _ & Htx)).
    rewrite Hid in *.
    rewrite (chroma_positions_absent fm before cp _ Habs) in Hcr.
    split; [|exact Hcr].
    rewrite Htx.
    assert (HC : occurrences (row_chunk_id row) (chroma_meta_list_of fm before cp) = []).
    { apply ranks_nonempty_nil. rewrite (chroma_ranks fm before _ cp Hk).
      now apply chroma_positions_absent. }
    rewrite HC in Hcm. unfold creator in Hcm.
    destruct (occurrences _ (bm25_contributions _ _ _ _ _)) as [|b occB] eqn:EB;
      [discriminate|].
    injection Hcm as <-.
    apply (bm25_contributions_empty_text fm fts before cp br (row_chunk_id row) b Hk Habs Hfts).
    rewrite EB. now left.
Qed.

(** In the example corpus the chunk [rome.pdf:47:0] is known to the keyword
    engine alone and has no row in the full-text table: it is returned with
    the empty text.  Under the cutoff 200 only the chunks of rome.pdf
    (modified at 100) remain. *)
Example keyword_only_hit_example :
  In Example.hit_only Example.hits_no_cutoff /\
  text Example.hit_only = "" /\
  map source Example.hits_before_200 = ["rome.pdf"; "rome.pdf"].
Proof. vm_compute. repeat split. right. right. right. now left. Qed.

End PayloadClaims.

(* ====================================================================== *)
(** * Order of the ranked output *)
(* ====================================================================== *)

(** Normalise nested appends. *)
Ltac reassoc :=
  repeat first [rewrite <- app_assoc | rewrite <- app_comm_cons]; try reflexivity.

Section OrderFacts.
Import Answer FusionSpec FusionEntry.

Lemma first_seen_snoc (acc l : list string) (z : string) :
  first_seen acc (l ++ [z])
  = if existsb (String.eqb z) (first_seen acc l)
    then first_seen acc l else first_seen acc l ++ [z].
Proof. unfold first_seen. now rewrite fold_left_app. Qed.

Lemma existsb_eqb_in (z : string) (l : list string) :
  existsb (String.eqb z) l = true <-> In z l.
Proof.
  rewrite existsb_exists. split.
  - intros (x & Hx & E). apply String.eqb_eq in E. now subst.
  - intros H. exists z. split; [assumption | apply String.eqb_refl].
Qed.

Lemma first_seen_in (l : list string) (k : string) :
  In k (first_seen [] l) <-> In k l.
Proof.
  revert k. induction l as [|z l IH] using rev_ind; intros k; [reflexivity|].
  rewrite first_seen_snoc, in_app_iff.
  destruct (existsb (String.eqb z) (first_seen [] l)) eqn:E.
  - apply existsb_eqb_in, IH in E. rewrite IH. split; [tauto|].
    intros [H|[<-|[]]]; assumption.
  - rewrite in_app_iff, IH. reflexivity.
Qed.

Lemma in_split_first (x : string) (l : list string) :
  In x l -> exists l1 l2, l = l1 ++ x :: l2 /\ ~ In x l1.
Proof.
  induction l as [|y l IH]; intros H; [destruct H|].
  destruct (string_dec y x) as [->|Hyx].
  - exists [], l. split; [reflexivity | intros []].
  - destruct H as [H|H]; [contradiction|].
    destruct (IH H) as (l1 & l2 & -> & Hn).
    exists (y :: l1), l2. split; [reflexivity|].
    intros [E|E]; [contradiction | now apply Hn].
Qed.

Lemma discovered_before_snoc (x y z : string) (l : list string) :
  discovered_before x y l -> discovered_before x y (l ++ [z]).
Proof.
  intros (d1 & d2 & d3 & -> & H1 & H2).
  exists d1, d2, (d3 ++ [z]). split; [|split; assumption].
  reassoc.
Qed.

(** The keys of the dict stand in the order of their first occurrence. *)
Lemma first_seen_order (l a b c : list string) (x y : string) :
  first_seen [] l = a ++ x :: b ++ y :: c -> discovered_before x y l.
Proof.
  revert a b c. induction l as [|z l IH] using rev_ind; intros a b c H.
  - destruct a; discriminate.
  - rewrite first_seen_snoc in H.
    destruct (existsb (String.eqb z) (first_seen [] l)) eqn:E.
    + apply discovered_before_snoc. eapply IH. exact H.
    + destruct (exists_last (l := y :: c)) as (c' & z' & Ec); [discriminate|].
      destruct c as [|c0 c].
      * replace (a ++ x :: b ++ [y]) with ((a ++ x :: b) ++ [y]) in H
          by reassoc.
        apply app_inj_tail in H as [HK ->].
        assert (Hx : In x l).
        { apply first_seen_in. rewrite HK. apply in_or_app. right. now left. }
        assert (Hy : ~ In y l).
        { intros Hy. apply first_seen_in, existsb_eqb_in in Hy. congruence. }
        destruct (in_split_first x l Hx) as (d1 & d2 & -> & Hd1).
        exists d1, d2, []. split; [|split; assumption].
        reassoc.
      * destruct (exists_last (l := c0 :: c)) as (c1 & z1 & Ec1); [discriminate|].
        rewrite Ec1 in H.
        replace (a ++ x :: b ++ y :: c1 ++ [z1])
          with ((a ++ x :: b ++ y :: c1) ++ [z1]) in H
          by reassoc.
        apply app_inj_tail in H as [HK _].
        apply discovered_before_snoc. eapply IH. exact HK.
Qed.

Lemma well_keyed_values_keys (F : dict Hit) :
  well_keyed F -> map chunk_id (dict_values F) = dict_keys F.
Proof.
  intros [_ Hent]. unfold dict_values, dict_keys. rewrite map_map.
  apply map_ext_in. intros [k h] Hin. cbn [fst snd].
  now destruct (Hent k h Hin).
Qed.

(** If [h1] stands before [h2] in the ranked output and their scores are
    equal, [h1]'s chunk was met first by the fusion loops. *)
Lemma rank_fused_ties (C B : list (string * Meta))
    (l1 l2 l3 : list Hit) (h1 h2 : Hit) :
  nonempty_ids C -> nonempty_ids B ->
  rank_fused (fuse C B) = l1 ++ h1 :: l2 ++ h2 :: l3 ->
  (rrf_score h1 == rrf_score h2)%Q ->
  discovered_before (chunk_id h1) (chunk_id h2) (ids_of C ++ ids_of B).
Proof.
  intros HC HB Hout Hq. unfold rank_fused in Hout.
  pose proof (py_sorted_desc_stable rrf_score (rrf_score h2)
                (dict_values (fuse C B))) as Hst.
  rewrite Hout in Hst.
  rewrite filter_app in Hst. cbn [filter] in Hst.
  rewrite filter_app in Hst. cbn [filter] in Hst.
  assert (E1 : Qeq_bool (rrf_score h1) (rrf_score h2) = true)
    by now apply Qeq_bool_iff.
  assert (E2 : Qeq_bool (rrf_score h2) (rrf_score h2) = true)
    by (apply Qeq_bool_iff; reflexivity).
  rewrite E1, E2 in Hst. symmetry in Hst.
  apply filter_order in Hst as (v1 & v2 & v3 & Hv).
  pose proof (well_keyed_values_keys _ (fuse_well_keyed C B)) as Hk.
  rewrite Hv, (fuse_keys C B HC HB) in Hk.
  rewrite map_app in Hk; cbn [map] in Hk. rewrite map_app in Hk; cbn [map] in Hk.
  symmetry in Hk. eapply first_seen_order. exact Hk.
Qed.

End OrderFacts.

(** ** Positions and discovery order within one engine *)

Section Positional.
Context {X : Type}.
Variable idf : X -> string.
Variable pass : X -> bool.

Lemma enumerate_sorted (s : Z) (l : list X) :
  StronglySorted by_position (enumerate s l).
Proof.
  revert s. induction l as [|x l IH]; intros s; [constructor|].
  cbn [enumerate]. constructor; [apply IH|].
  apply Forall_forall. intros [i y] Hin. apply enumerate_ge in Hin.
  unfold by_position; cbn [fst]. lia.
Qed.

Lemma filter_sorted {A : Type} (R : A -> A -> Prop) (p : A -> bool) (l : list A) :
  StronglySorted R l -> StronglySorted R (filter p l).
Proof.
  induction 1 as [|a l Hs IH Hall]; cbn [filter]; [constructor|].
  destruct (p a); [|exact IH]. constructor; [exact IH|].
  apply Forall_forall. intros b Hb. apply filter_In in Hb as [Hb _].
  rewrite Forall_forall in Hall. now apply Hall.
Qed.

Lemma sorted_middle {A : Type} (R : A -> A -> Prop)
    (e1 e2 e3 : list A) (a b : A) :
  StronglySorted R (e1 ++ a :: e2 ++ b :: e3) -> R a b.
Proof.
  induction e1 as [|c e1 IH]; cbn [app]; intros Hs.
  - inversion Hs as [|? ? _ Hall]; subst. rewrite Forall_forall in Hall.
    apply Hall. apply in_or_app. right. now left.
  - inversion Hs; subst. now apply IH.
Qed.

Lemma filter_map_enumerate {Y : Type} (g : X -> Y) (p : X -> bool) (s : Z) (l : list X) :
  map (fun ix => g (snd ix)) (filter (fun ix => p (snd ix)) (enumerate s l))
  = map g (filter p l).
Proof.
  revert s. induction l as [|x l IH]; intros s; [reflexivity|].
  cbn [enumerate filter snd]. destruct (p x); cbn [map snd]; now rewrite IH.
Qed.

Lemma positions_in_accepted (l : list X) (k : string) :
  py_not_str k = false ->
  (positions idf pass l k <> [] <-> In k (accepted idf pass l)).
Proof.
  intros Hk. unfold positions, accepted. split.
  - intros Hne.
    destruct (filter _ (enumerate 1 l)) as [|[i x] rest] eqn:E; [now elim Hne|].
    assert (Hin : In (i, x) (filter
       (fun ix : Z * X => String.eqb (idf (snd ix)) k && pass (snd ix))
       (enumerate 1 l))) by (rewrite E; now left).
    apply filter_In in Hin as [Hin Hc]. cbn [snd] in Hc.
    apply andb_true_iff in Hc as [Hc Hp]. apply String.eqb_eq in Hc.
    apply in_map_iff. exists x. split; [exact Hc|].
    apply filter_In. split.
    + clear -Hin. revert Hin. generalize 1. induction l as [|y l IH]; intros s H;
        [destruct H|]. destruct H as [[= _ ->]|H]; [now left | right; eauto].
    + rewrite Hc, Hk, Hp. reflexivity.
  - intros Hin Hnil. apply in_map_iff in Hin as (x & Hx & Hin).
    apply filter_In in Hin as [Hin Hc]. apply andb_true_iff in Hc as [_ Hp].
    destruct (enumerate_in 1 l x Hin) as [i Hi].
    assert (H : In i (map fst (filter
       (fun ix : Z * X => String.eqb (idf (snd ix)) k && pass (snd ix))
       (enumerate 1 l)))).
    { apply in_map_iff. exists (i, x). split; [reflexivity|].
      apply filter_In. split; [exact Hi|]. cbn [snd].
      rewrite Hx, String.eqb_refl, Hp. reflexivity. }
    rewrite Hnil in H. destruct H.
Qed.

(** Within one engine, the chunk listed once at the smaller position is
    the one whose id comes first among the accepted ids. *)
Lemma accepted_order (l : list X) (x y : string) (d1 d2 d3 : list string)
    (r1 r2 : Z) :
  py_not_str x = false -> py_not_str y = false ->
  accepted idf pass l = d1 ++ x :: d2 ++ y :: d3 ->
  positions idf pass l x = [r1] -> positions idf pass l y = [r2] ->
  r1 < r2.
Proof.
  intros Hx Hy Hacc P1 P2. unfold accepted in Hacc.
  rewrite <- (filter_map_enumerate idf
                (fun x => negb (py_not_str (idf x)) && pass x) 1 l) in Hacc.
  apply map_eq_app in Hacc as (e1 & r & Ef & _ & Hr).
  apply map_eq_cons in Hr as (ex & r' & -> & Hex & Hr).
  apply map_eq_app in Hr as (e2 & r'' & -> & _ & Hr).
  apply map_eq_cons in Hr as (ey & e3 & -> & Hey & _).
  assert (Hs : StronglySorted by_position (e1 ++ ex :: e2 ++ ey :: e3)).
  { rewrite <- Ef. apply filter_sorted, enumerate_sorted. }
  apply sorted_middle in Hs. unfold by_position in Hs.
  assert (Hmem : forall e k, In e (e1 ++ ex :: e2 ++ ey :: e3) ->
                   idf (snd e) = k -> In (fst e) (positions idf pass l k)).
  { intros e k Hin Hk. rewrite <- Ef in Hin. apply filter_In in Hin as [Hin Hc].
    apply andb_true_iff in Hc as [_ Hp].
    unfold positions. apply in_map_iff. exists e. split; [reflexivity|].
    apply filter_In. split; [exact Hin|].
    rewrite Hk, String.eqb_refl, Hp. reflexivity. }
  assert (H1 : In (fst ex) (positions idf pass l x)).
  { apply Hmem; [|exact Hex]. apply in_or_app. right. now left. }
  assert (H2 : In (fst ey) (positions idf pass l y)).
  { apply Hmem; [|exact Hey]. apply in_or_app. right. right.
    apply in_or_app. right. now left. }
  rewrite P1 in H1. rewrite P2 in H2.
  destruct H1 as [->|[]]. destruct H2 as [->|[]]. exact Hs.
Qed.

End Positional.

Lemma app_prefix_first {A : Type} (P Dc Db d3 : list A) (y : A) :
  Dc ++ Db = P ++ y :: d3 -> ~ In y P -> In y Dc ->
  exists d3', Dc = P ++ y :: d3'.
Proof.
  revert Dc. induction P as [|p P IH]; intros Dc E Hn Hy.
  - destruct Dc as [|c Dc]; [destruct Hy|]. injection E as -> _. now exists Dc.
  - destruct Dc as [|c Dc]; [destruct Hy|]. injection E as -> E.
    destruct Hy as [->|Hy]; [elim Hn; now left|].
    destruct (IH Dc E) as [d3' ->]; [intros H; apply Hn; now right | exact Hy|].
    now exists d3'.
Qed.

Lemma app_suffix_first {A : Type} (P Dc Db r : list A) (x : A) :
  Dc ++ Db = P ++ x :: r -> ~ In x Dc ->
  exists P', P = Dc ++ P' /\ Db = P' ++ x :: r.
Proof.
  revert P. induction Dc as [|c Dc IH]; intros P E Hn.
  - exists P. now split.
  - destruct P as [|p P]; cbn [app] in E.
    + injection E as -> _. elim Hn. now left.
    + injection E as -> E.
      destruct (IH P E) as (P' & -> & ->); [intros H; apply Hn; now right|].
      exists P'. now split.
Qed.

Section OrderClaims.
Import Answer FusionSpec FusionEntry.

Lemma chroma_meta_ids (fm : string -> option datetime) (before : option datetime)
    (cp : list (Document * Q)) :
  ids_of (chroma_meta_list_of fm before cp) = accepted_chroma_ids fm before cp.
Proof.
  unfold chroma_meta_list_of, accepted_chroma_ids, ids_of. generalize 1.
  induction cp as [|[doc dist] cp IH]; intros s; [reflexivity|].
  cbn [enumerate flat_map filter fst snd]. rewrite map_app, IH.
  unfold chroma_meta_of; cbn [fst snd].
  destruct (py_not_str (doc_chunk_id doc)); cbn [orb negb andb]; [reflexivity|].
  destruct (passes_before_filter fm (meta_source doc) before); reflexivity.
Qed.

Lemma bm25_meta_ids (fm : string -> option datetime) (before : option datetime)
    (tb : dict string) (br : list Row) :
  ids_of (bm25_meta_list_of fm before tb br) = accepted_bm25_ids fm before br.
Proof.
  unfold bm25_meta_list_of, accepted_bm25_ids, ids_of. generalize 1.
  induction br as [|row br IH]; intros s; [reflexivity|].
  cbn [enumerate flat_map filter fst snd]. rewrite map_app, IH.
  unfold bm25_meta_of; cbn [fst snd].
  destruct (py_not_str (row_chunk_id row)); cbn [orb negb andb]; [reflexivity|].
  destruct (passes_before_filter fm (row_source row) before); reflexivity.
Qed.

Lemma bm25_contributions_ids (fm : string -> option datetime)
    (fts : list (string * string)) (before : option datetime)
    (cp : list (Document * Q)) (br : list Row) :
  ids_of (bm25_contributions fm fts before cp br) = accepted_bm25_ids fm before br.
Proof.
  unfold bm25_contributions.
  destruct (bm25_only_ids_of _ _ _ _); [|rewrite fill_texts_ids]; apply bm25_meta_ids.
Qed.

Lemma last_position_none (ps : list Z) : last_position ps = None <-> ps = [].
Proof.
  destruct ps as [|p ps]; [split; reflexivity|].
  rewrite last_position_cons. destruct (last_position ps); split; discriminate.
Qed.

Lemma sorted_prefix {A : Type} (R : A -> A -> Prop) (l rest : list A) :
  StronglySorted R (l ++ rest) -> StronglySorted R l.
Proof.
  induction l as [|x l IH]; cbn [app]; intros Hs; [constructor|].
  inversion Hs as [|? ? Hs' Hall]; subst. constructor; [now apply IH|].
  rewrite Forall_forall in *. intros y Hy. apply Hall. apply in_or_app. now left.
Qed.

(** A prefix of the ranked fusion of contribution lists that carry the
    accepted ids and the engine positions is sorted, with ties in discovery
    order. *)
Lemma ranked_sorted_ties (fm : string -> option datetime) (before : option datetime)
    (cp : list (Document * Q)) (br : list Row)
    (C B : list (string * Meta)) (out rest : list Hit) :
  nonempty_ids C -> nonempty_ids B ->
  ids_of C = accepted_chroma_ids fm before cp ->
  ids_of B = accepted_bm25_ids fm before br ->
  (forall k, py_not_str k = false ->
             ranks_of (occurrences k C) = chroma_positions fm before cp k) ->
  rank_fused (fuse C B) = out ++ rest ->
  sorted_with_discovery_ties fm before cp br out.
Proof.
  intros HneC HneB HidC HidB HC Hfull. split.
  { apply (sorted_prefix _ out rest). rewrite <- Hfull.
    apply py_sorted_desc_sorted. }
  intros l1 h1 l2 h2 l3 Hout Hq.
  assert (Hfull' : rank_fused (fuse C B) = l1 ++ h1 :: l2 ++ h2 :: (l3 ++ rest))
    by (rewrite Hfull, Hout; reassoc).
  assert (Hentry : forall h, In h (rank_fused (fuse C B)) ->
            py_not_str (chunk_id h) = false /\
            chroma_rank h = last_position (chroma_positions fm before cp (chunk_id h))).
  { intros h Hin. apply rank_fused_in in Hin as [Hk Hget]. split; [exact Hk|].
    apply (fuse_entry _ _ _ _ Hk) in Hget as (_ & _ & Hcr & _).
    now rewrite (HC _ Hk) in Hcr. }
  destruct (Hentry h1) as [Hk1 Hc1].
  { rewrite Hfull'. apply in_or_app. right. now left. }
  destruct (Hentry h2) as [Hk2 Hc2].
  { rewrite Hfull'. apply in_or_app. right. right. apply in_or_app. right. now left. }
  assert (Hd : discovered_before (chunk_id h1) (chunk_id h2)
                 (discovery_order fm before cp br)).
  { unfold discovery_order. rewrite <- HidC, <- HidB.
    eapply rank_fused_ties; [exact HneC | exact HneB | exact Hfull' | exact Hq]. }
  split; [exact Hd|].
  destruct Hd as (d1 & d2 & d3 & Hd & Hx & Hy). unfold discovery_order in Hd.
  set (idc := fun dd : Document * Q => doc_chunk_id (fst dd)).
  set (pc := fun dd : Document * Q =>
               passes_before_filter fm (meta_source (fst dd)) before).
  set (pb := fun row : Row => passes_before_filter fm (row_source row) before).
  change (accepted_chroma_ids fm before cp) with (accepted idc pc cp) in Hd.
  change (accepted_bm25_ids fm before br) with (accepted row_chunk_id pb br) in Hd.
  assert (Pc : forall k, chroma_positions fm before cp k = positions idc pc cp k)
    by reflexivity.
  assert (Pb : forall k, bm25_positions fm before br k = positions row_chunk_id pb br k)
    by reflexivity.
  assert (Hpre : In (chunk_id h2) (accepted idc pc cp) ->
                 exists d3', accepted idc pc cp
                             = d1 ++ chunk_id h1 :: d2 ++ chunk_id h2 :: d3').
  { intros H2.
    replace (d1 ++ chunk_id h1 :: d2 ++ chunk_id h2 :: d3)
      with ((d1 ++ chunk_id h1 :: d2) ++ chunk_id h2 :: d3) in Hd by reassoc.
    destruct (app_prefix_first _ _ _ _ _ Hd Hy H2) as [d3' E].
    exists d3'. rewrite E. reassoc. }
  split; [|split].
  - intros Hr2. rewrite Hc2, last_position_none, Pc in Hr2.
    apply (positions_in_accepted idc pc cp _ Hk2) in Hr2.
    destruct (Hpre Hr2) as [d3' E].
    rewrite Hc1, last_position_none, Pc.
    apply (positions_in_accepted idc pc cp _ Hk1).
    rewrite E. apply in_or_app. right. now left.
  - intros r1 r2 P1 P2. rewrite Pc in P1, P2.
    assert (H2 : In (chunk_id h2) (accepted idc pc cp)).
    { apply (positions_in_accepted idc pc cp _ Hk2). rewrite P2. discriminate. }
    destruct (Hpre H2) as [d3' E].
    exact (accepted_order idc pc cp _ _ _ _ _ r1 r2 Hk1 Hk2 E P1 P2).
  - intros r1 r2 N1 N2 P1 P2. rewrite Pb in P1, P2.
    rewrite Hc1, last_position_none, Pc in N1.
    assert (Hx' : ~ In (chunk_id h1) (accepted idc pc cp)).
    { intros H. apply (positions_in_accepted idc pc cp _ Hk1) in H. contradiction. }
    destruct (app_suffix_first _ _ _ _ _ Hd Hx') as (P' & _ & E).
    exact (accepted_order row_chunk_id pb br _ _ _ _ _ r1 r2 Hk1 Hk2 E P1 P2).
Qed.

(** ** C2 *)


(** The hits of the example corpus in ranked order: the two chunks both
    engines returned tie at [1/61 + 1/62] and keep the semantic order. *)
Example retrieve_hybrid_tie_example :
  map chunk_id Example.hits_no_cutoff
  = ["rome.pdf:46:0"; "late_roman.txt:0:3"; "gone.txt:0:0"; "rome.pdf:47:0"] /\
  map chunk_id Example.hits_before_200 = ["rome.pdf:46:0"; "rome.pdf:47:0"].
Proof. vm_compute. split; reflexivity. Qed.

End OrderClaims.

(* ====================================================================== *)
(** * Context assembly *)
(* ====================================================================== *)

Section ContextClaims.
Import Answer.

Lemma str_take_length (n : nat) (s : string) :
  String.length (str_take n s) = Nat.min n (String.length s).
Proof.
  revert s. induction n as [|n IH]; intros s; [reflexivity|].
  destruct s as [|c s]; [reflexivity|]. cbn [str_take String.length].
  rewrite IH. reflexivity.
Qed.

Lemma str_take_prefix (n : nat) (s : string) :
  exists rest, s = str_take n s +:+ rest.
Proof.
  revert s. induction n as [|n IH]; intros s; [now exists s|].
  destruct s as [|c s]; [now exists ""|].
  destruct (IH s) as [rest E]. exists rest. cbn. now rewrite <- E.
Qed.

Lemma context_line_split (i : Z) (hit : Hit) :
  context_line i hit = context_header i hit +:+ chunk_text_of hit +:+ LF.
Proof.
  unfold context_line, context_header. now rewrite !append_assoc.
Qed.

Lemma enumerate_nth {X : Type} (s : Z) (l : list X) (n : nat) :
  nth_error (enumerate s l) n
  = option_map (fun x => (s + Z.of_nat n, x)) (nth_error l n).
Proof.
  revert s n. induction l as [|x l IH]; intros s n.
  - destruct n; reflexivity.
  - destruct n as [|n]; cbn [enumerate nth_error option_map].
    + now rewrite Z.add_0_r.
    + rewrite IH. destruct (nth_error l n); cbn [option_map]; [|reflexivity].
      do 2 f_equal. lia.
Qed.

Lemma enumerate_length {X : Type} (s : Z) (l : list X) :
  List.length (enumerate s l) = List.length l.
Proof.
  revert s. induction l as [|x l IH]; intros s; [reflexivity|].
  cbn. now rewrite IH.
Qed.

(** The entry with bracket index [i] renders the hit at index [i - 1]. *)
Lemma context_lines_nth (chosen : list Hit) (i : Z) (hit : Hit) :
  1 <= i ->
  nth_error chosen (Z.to_nat (i - 1)) = Some hit ->
  nth_error (context_lines chosen) (Z.to_nat (i - 1)) = Some (context_line i hit).
Proof.
  intros Hi Hn. unfold context_lines.
  rewrite nth_error_map, enumerate_nth, Hn. cbn [option_map fst snd].
  do 2 f_equal. lia.
Qed.

Lemma py_slice_to_nonneg {X : Type} (l : list X) (limit : Z) :
  0 <= limit ->
  py_slice_to l limit
  = firstn (Z.to_nat (Z.min limit (Z.of_nat (List.length l)))) l.
Proof.
  intros H. unfold py_slice_to.
  destruct (Z.leb_spec 0 limit) as [_|]; [|lia].
  destruct (Z.le_ge_cases limit (Z.of_nat (List.length l))) as [Hle|Hge].
  - now rewrite Z.min_l.
  - rewrite Z.min_r, Nat2Z.id by assumption.
    rewrite firstn_all. apply firstn_all2. lia.
Qed.

(** ** C4 *)

(** C4 (amended). For every hit list and every limit [N >= 0],
    [build_context_block] returns exactly the first [min(N, len(hits))] hits,
    unchanged and in order, so at most [N] of them; the context block is the
    rendered entries joined by line feeds, one entry per chosen hit, and the
    entry with bracket index [i] is the one rendered from [chosen[i-1]]: its
    header names that hit's source, page and chunk id, and its text is that
    hit's text cut to its first 1200 characters. *)
Theorem build_context_block_alignment :
  forall (hits : list Hit) (limit : Z),
    0 <= limit ->
    let context_block := fst (build_context_block hits limit) in
    let chosen := snd (build_context_block hits limit) in
    chosen = firstn (Z.to_nat (Z.min limit (Z.of_nat (List.length hits)))) hits /\
    Z.of_nat (List.length chosen) <= limit /\
    context_block = py_join LF (context_lines chosen) /\
    List.length (context_lines chosen) = List.length chosen /\
    forall (i : Z) (hit : Hit),
      1 <= i ->
      nth_error chosen (Z.to_nat (i - 1)) = Some hit ->
      nth_error hits (Z.to_nat (i - 1)) = Some hit /\
      exists chunk_text rest,
        nth_error (context_lines chosen) (Z.to_nat (i - 1))
          = Some (context_header i hit +:+ chunk_text +:+ LF) /\
        text hit = chunk_text +:+ rest /\
        String.length chunk_text
          = Nat.min 1200 (String.length (text hit)) /\
        (String.length chunk_text <= 1200)%nat.
Proof.
  intros hits limit Hlim. cbn [build_context_block fst snd].
  rewrite (py_slice_to_nonneg hits limit Hlim).
  set (n := Z.to_nat (Z.min limit (Z.of_nat (List.length hits)))).
  split; [reflexivity|]. split.
  { rewrite length_firstn. unfold n. lia. }
  split; [reflexivity|]. split.
  { unfold context_lines. now rewrite length_map, enumerate_length. }
  intros i hit Hi Hn. split.
  { assert (Hlt : (Z.to_nat (i - 1) < n)%nat).
    { assert (H : (Z.to_nat (i - 1) < List.length (firstn n hits))%nat)
        by (apply nth_error_Some; rewrite Hn; discriminate).
      rewrite length_firstn in H. lia. }
    now rewrite nth_error_firstn, (proj2 (Nat.ltb_lt _ _) Hlt) in Hn. }
  destruct (str_take_prefix MAX_CHUNK_CHARS (text hit)) as [rest Hrest].
  exists (chunk_text_of hit), rest. split; [|split; [|split]].
  - rewrite (context_lines_nth _ i hit Hi Hn). now rewrite context_line_split.
  - exact Hrest.
  - apply str_take_length.
  - unfold chunk_text_of. rewrite str_take_length. apply Nat.le_min_l.
Qed.

Lemma build_context_block_alignment_witness :
  snd (build_context_block [Example.hit_rome; Example.hit_late; Example.hit_only] 2)
  = [Example.hit_rome; Example.hit_late].
Proof.
  assert (H : 0 <= 2) by lia.
  exact (proj1 (build_context_block_alignment
                  [Example.hit_rome; Example.hit_late; Example.hit_only] 2 H)).
Defined.

(** With the limit [-1] the slice drops the last hit: two hits are chosen,
    which is neither at most [-1] hits nor the first [min(-1, 3)] hits. *)
Lemma build_context_block_negative_limit :
  let hits := [Example.hit_rome; Example.hit_late; Example.hit_only] in
  let chosen := snd (build_context_block hits (-1)) in
  chosen = [Example.hit_rome; Example.hit_late] /\
  ~ (Z.of_nat (List.length chosen) <= -1) /\
  chosen <> firstn (Z.to_nat (Z.min (-1) (Z.of_nat (List.length hits)))) hits.
Proof.
  cbv zeta. split; [reflexivity|]. split.
  - cbn. lia.
  - cbn. discriminate.
Qed.

End ContextClaims.

(* ====================================================================== *)
(** * The tool agent loop *)
(* ====================================================================== *)

Example final_re_example :
  AsciiProtocol.FINAL_RE_search ("Thought: done." +:+ LF +:+ "finalanswer:  Rome fell in 455.")
  = Some "Rome fell in 455.".
Proof. reflexivity. Qed.

Example action_re_example :
  AsciiProtocol.ACTION_RE_search (AgentExample.llm_hybrid "")
  = Some ("hybrid_retrieve", AgentExample.query_args).
Proof. reflexivity. Qed.

Example action_re_bad_json_example :
  AsciiProtocol.ACTION_RE_search (AgentExample.llm_bad_json "")
  = Some ("hybrid_retrieve", "{query: Rome}") /\
  AsciiProtocol.FINAL_RE_search (AgentExample.llm_bad_json "") = None.
Proof. split; reflexivity. Qed.

Section AgentFacts.
Import Answer LlmAgent.

Variable Args : Type.
Variable llm_invoke : string -> string.
Variable FINAL_RE_search : string -> option string.
Variable ACTION_RE_search : string -> option (string * string).
Variable json_loads : string -> option Args.
Variable tool_bm25 : Args -> Exc (list Row).
Variable tool_chroma : Args -> Exc (list ChromaRow).
Variable tool_hybrid : Args -> Exc (string * list Hit * Z).
Variable tool_final_answer : Args -> Exc string.
Variable json_dumps : ToolResult -> string.
Variable call_llm_writer : string -> string.
Variable render_file_list : list Row -> string.

#[local] Abbreviation step :=
  (agent_step Args llm_invoke FINAL_RE_search ACTION_RE_search json_loads
     tool_bm25 tool_chroma tool_hybrid tool_final_answer json_dumps
     call_llm_writer render_file_list).

#[local] Abbreviation steps :=
  (run_steps Args llm_invoke FINAL_RE_search ACTION_RE_search json_loads
     tool_bm25 tool_chroma tool_hybrid tool_final_answer json_dumps
     call_llm_writer render_file_list).

#[local] Abbreviation tool_call :=
  (call_tool Args tool_bm25 tool_chroma tool_hybrid tool_final_answer).

#[local] Abbreviation after_reply := (LlmAgent.after_reply llm_invoke).

Lemma model_turns_append (st : State) (r : Role) (c : string) :
  model_turns (append_turn st r c) = model_turns st.
Proof. reflexivity. Qed.

Lemma model_turns_log_model (st : State) (c : string) :
  model_turns (log_event st (ModelTurn c)) = model_turns st + 1.
Proof.
  unfold model_turns, log_event; cbn [events].
  rewrite filter_app, length_app. cbn. lia.
Qed.

Lemma model_turns_log_tool (st : State) (t : Tool) :
  model_turns (log_event st (ToolCall t)) = model_turns st.
Proof.
  unfold model_turns, log_event; cbn [events].
  rewrite filter_app, length_app. cbn. lia.
Qed.

Lemma model_turns_log_writer (st : State) (p : string) :
  model_turns (log_event st (WriterCall p)) = model_turns st.
Proof.
  unfold model_turns, log_event; cbn [events].
  rewrite filter_app, length_app. cbn. lia.
Qed.

Lemma model_turns_capture (t : Tool) (r : ToolResult) (st : State) :
  model_turns (capture t r st) = model_turns st.
Proof. destruct t, r; reflexivity. Qed.

Lemma writer_calls_append (st : State) (r : Role) (c : string) :
  writer_calls (append_turn st r c) = writer_calls st.
Proof. reflexivity. Qed.

Lemma writer_calls_log (st : State) (e : Event) :
  writer_calls (log_event st e)
  = writer_calls st + match e with WriterCall _ => 1 | _ => 0 end.
Proof.
  unfold writer_calls, log_event; cbn [events].
  rewrite filter_app, length_app. destruct e; cbn; lia.
Qed.

Lemma writer_calls_capture (t : Tool) (r : ToolResult) (st : State) :
  writer_calls (capture t r st) = writer_calls st.
Proof. destruct t, r; reflexivity. Qed.

Lemma transcript_capture (t : Tool) (r : ToolResult) (st : State) :
  transcript (capture t r st) = transcript st.
Proof. destruct t, r; reflexivity. Qed.

Lemma model_turns_after_reply (st : State) :
  model_turns (after_reply st) = model_turns st + 1.
Proof. unfold after_reply. now rewrite model_turns_append, model_turns_log_model. Qed.

Lemma writer_calls_after_reply (st : State) :
  writer_calls (after_reply st) = writer_calls st.
Proof.
  unfold after_reply. rewrite writer_calls_append, writer_calls_log. lia.
Qed.

Lemma transcript_after_reply (st : State) :
  transcript (after_reply st)
  = transcript st ++ [(assistant, llm_invoke (convo_text_of (transcript st)))].
Proof. reflexivity. Qed.

(** ** C7 *)


(** ** The step budget *)

Lemma py_range_nil (a b : Z) : b <= a -> py_range a b = [].
Proof.
  intros H. unfold py_range. replace (Z.to_nat (b - a)) with 0%nat by lia.
  reflexivity.
Qed.

Lemma py_range_cons (a b : Z) : a < b -> py_range a b = a :: py_range (a + 1) b.
Proof.
  intros H. unfold py_range.
  replace (Z.to_nat (b - a)) with (S (Z.to_nat (b - (a + 1)))) by lia.
  cbn [seq map]. rewrite Z.add_0_r. f_equal.
  rewrite <- seq_shift, map_map. apply map_ext. intros i. lia.
Qed.

#[local] Abbreviation spec :=
  (terminal_spec FINAL_RE_search ACTION_RE_search call_llm_writer render_file_list).

#[local] Abbreviation invariant :=
  (loop_invariant FINAL_RE_search ACTION_RE_search).

Lemma observation_after_reply (st : State) (obs : string) (st' : State) :
  transcript st' = transcript (after_reply st) ++ [(tool, obs)] ->
  ends_with_observation st' (llm_invoke (convo_text_of (transcript st))).
Proof.
  intros H. exists (transcript st), obs. rewrite H, transcript_after_reply.
  now rewrite <- app_assoc.
Qed.

(** One pass through the loop body either ends the run in a state that
    fits the way it ended, or hands a fitting state to the next step. *)
Lemma agent_step_spec (question : string) (max_steps a : Z) (st : State) :
  1 <= a <= max_steps ->
  invariant max_steps a st ->
  match step question max_steps a st with
  | Return t st' => spec question max_steps t st' /\ model_turns st' = a
  | Continue st' => invariant max_steps (a + 1) st'
  end.
Proof.
  intros Ha (Hturns & Hwr & _).
  pose proof (model_turns_after_reply st) as T1.
  pose proof (writer_calls_after_reply st) as W1.
  pose proof (transcript_after_reply st) as R1.
  unfold agent_step. fold (after_reply st).
  set (reply := llm_invoke (convo_text_of (transcript st))) in *.
  set (st1 := after_reply st) in *.
  assert (Hends : ends_with_reply st1 reply) by (exists (transcript st); exact R1).
  destruct (FINAL_RE_search reply) as [text|] eqn:Hfinal.
  { split; [|lia]. cbn [terminal_spec]. split; [lia|].
    exists reply, text. repeat split; assumption. }
  assert (Hcont : forall obs st',
            transcript st' = transcript st1 ++ [(tool, obs)] ->
            model_turns st' = model_turns st1 ->
            writer_calls st' = writer_calls st1 ->
            ACTION_RE_search reply <> None \/ a < max_steps ->
            invariant max_steps (a + 1) st').
  { intros obs st' Htr Hmt Hwc Hact. split; [lia|]. split; [lia|]. right.
    exists reply. split; [eapply observation_after_reply; exact Htr|].
    split; [exact Hfinal|]. destruct Hact; [now left | right; lia]. }
  destruct (ACTION_RE_search reply) as [[tool_group json_group]|] eqn:Haction.
  - assert (Hact : Some (tool_group, json_group) <> None \/ a < max_steps)
      by (left; discriminate).
    destruct (json_loads json_group) as [args|].
    + destruct (TOOLS_get (py_strip tool_group)) as [t|].
      * destruct (call_tool _ _ _ _ _ t args) as [e|result].
        -- eapply Hcont; [reflexivity | | | exact Hact].
           ++ now rewrite model_turns_append, model_turns_log_tool.
           ++ rewrite writer_calls_append, writer_calls_log. lia.
        -- eapply Hcont; [| | | exact Hact].
           ++ cbn [append_turn transcript]. now rewrite transcript_capture.
           ++ now rewrite model_turns_append, model_turns_capture, model_turns_log_tool.
           ++ rewrite writer_calls_append, writer_calls_capture, writer_calls_log. lia.
      * eapply Hcont; [reflexivity | reflexivity | reflexivity | exact Hact].
    + eapply Hcont; [reflexivity | reflexivity | reflexivity | exact Hact].
  - destruct (Z.eqb_spec a max_steps) as [Heq|Hne].
    + assert (Hun : unparseable FINAL_RE_search ACTION_RE_search reply)
        by (split; assumption).
      destruct (last_context_block st1) as [[|c s]|] eqn:Hctx.
      * split; [|lia]. cbn [terminal_spec]. rewrite Hctx.
        repeat split; try lia. exists reply. now split.
      * split; [|rewrite model_turns_log_writer; lia]. cbn [terminal_spec].
        rewrite model_turns_log_writer, writer_calls_log.
        split; [lia|]. split; [lia|].
        exists reply, (String c s). cbn [log_event transcript last_context_block
                                          last_chosen_hits].
        repeat split; try assumption. discriminate.
      * split; [|lia]. cbn [terminal_spec]. rewrite Hctx.
        repeat split; try lia. exists reply. now split.
    + eapply Hcont; [reflexivity | reflexivity | reflexivity | right; lia].
Qed.

Lemma run_steps_spec (question : string) (max_steps : Z) (n : nat) :
  forall (a : Z) (st : State),
    1 <= a -> a + Z.of_nat n = max_steps + 1 ->
    invariant max_steps a st ->
    spec question max_steps
      (fst (steps question max_steps (py_range a (max_steps + 1)) st))
      (snd (steps question max_steps (py_range a (max_steps + 1)) st)) /\
    0 <= model_turns
           (snd (steps question max_steps (py_range a (max_steps + 1)) st))
      <= max_steps.
Proof.
  induction n as [|n IH]; intros a st Ha Hn Hinv.
  - rewrite py_range_nil by lia. cbn [run_steps fst snd terminal_spec].
    destruct Hinv as (Hturns & Hwr & Hlast).
    split; [|lia]. split; [exact Hwr|].
    destruct (Z.eq_dec a 1) as [->|Hne]; [left; lia|].
    destruct Hlast as [->|(reply & Hobs & Hfinal & Hact)]; [now elim Hne|].
    right. split; [lia|]. split; [lia|]. exists reply. split; [exact Hobs|].
    split; [exact Hfinal|]. destruct Hact; [assumption | lia].
  - rewrite py_range_cons by lia. cbn [run_steps].
    pose proof (agent_step_spec question max_steps a st) as Hs.
    destruct (step question max_steps a st) as [t st'|st'].
    + cbn [fst snd]. destruct Hs as [Hs Ht]; [lia | exact Hinv|].
      split; [exact Hs | lia].
    + apply IH; [lia | lia|]. apply Hs; [lia | exact Hinv].
Qed.

(** ** C5 *)


End AgentFacts.



Example run_agent_fallback_example :
  exists out,
    fst (AgentExample.run (fun _ => "I am not sure what to do.")
           "who captured Rome" 1) = LlmAgent.CouldNotDecide /\
    fst (AgentExample.run
           (fun convo =>
              match AsciiProtocol.ci_prefix "system" convo with
              | Some _ =>
                  if (String.length convo <? 1000)%nat
                  then AgentExample.llm_hybrid convo
                  else "I am not sure what to do."
              | None => ""
              end)
           "who captured Rome" 2) = LlmAgent.FallbackAnswer out.
Proof.
  eexists. split; vm_compute; reflexivity.
Qed.

(* ====================================================================== *)
(** * The router *)
(* ====================================================================== *)

Example detect_brand_tokens_example :
  RouterAgent.detect_brand_tokens
    ("which file mentions " +:+ DQ +:+ "HTTP_500" +:+ DQ +:+ " in the bicycle service?")
  = ["HTTP_500"; "which"; "file"; "mentions"; "the"; "bicycle"; "service"].
Proof. reflexivity. Qed.

Example add_quotes_example :
  RouterAgent.add_quotes_if_helpful "bixi OR bikes" ["bixi"; "bikes"]
  = DQ +:+ "bixi" +:+ DQ +:+ " OR " +:+ DQ +:+ "bikes" +:+ DQ.
Proof. reflexivity. Qed.

Example is_file_lookup_example :
  Answer.is_file_lookup "Which FILE mentions HTTP_500" = true /\
  Answer.is_file_lookup RouterExample.question = false.
Proof. split; reflexivity. Qed.

Section RouterClaims.
Import Answer RouterAgent.

Variable file_mtime : string -> option datetime.
Variable similarity_search_with_score : string -> Z -> list (Document * Q).
Variable search : string -> Z -> list Row.
Variable chunks_fts : list (string * string).
Variable call_llm : string -> string.
Variable file_lookup_mode :
  string -> Z -> option datetime -> list string -> string * list Effect.

#[local] Abbreviation retrieve :=
  (retrieve_hybrid file_mtime similarity_search_with_score search chunks_fts).

#[local] Abbreviation route :=
  (route_and_run file_mtime similarity_search_with_score search chunks_fts
     call_llm file_lookup_mode).

#[local] Abbreviation endpoint :=
  (Server.route_endpoint_qa file_mtime similarity_search_with_score search
     chunks_fts call_llm).

Lemma print_answer_no_effects (answer_text : string) (chosen : list Hit) :
  filter is_retrieved (print_answer answer_text chosen) = [] /\
  filter is_generated (print_answer answer_text chosen) = [].
Proof.
  unfold print_answer.
  induction (_ ++ _) as [|l ls [IH1 IH2]]; [split; reflexivity|].
  cbn [map filter is_retrieved is_generated]. now split.
Qed.

Lemma answer_from_retrieved (question : string) (k_ctx : Z) (hits : list Hit) :
  filter is_retrieved (answer_from call_llm question k_ctx hits) = [].
Proof.
  unfold answer_from. destruct (build_context_block hits k_ctx) as [ctx chosen].
  cbn [filter is_retrieved]. apply print_answer_no_effects.
Qed.

(** ** C6 *)

(** C6 (amended). In the router's Q&A branch the keyword depth of the retry
    exceeds that of the first attempt.  When the first hybrid retrieval
    returns hits there is no retry; when it returns none, exactly one retry
    follows, on the question with its tokens quoted and with keyword depth
    [max(bk, 60)].  When the retry returns no hits either, the router prints
    the fixed text "I couldn't retrieve any relevant chunks to answer that."
    and returns the mode "answer" without printing sources and without
    calling the generative model, and the HTTP route returns the mode
    "answer" with the text "I couldn't retrieve any relevant chunks." and an
    empty citation list.  The generative model is called only after a
    retrieval that returned hits. *)
Theorem qa_branch_retries_once_then_refuses :
  forall (question : string) (k_ctx : Z) (before_dt : option datetime),
    is_file_lookup question = false ->
    let tokens := detect_brand_tokens question in
    let ck := match tokens with [] => 8 | _ :: _ => 6 end in
    let bk := match tokens with [] => 20 | _ :: _ => 50 end in
    let q2 := add_quotes_if_helpful question tokens in
    let ck2 := Z.max (ck - 2) 2 in
    let bk2 := Z.max bk 60 in
    let hits1 := retrieve question before_dt ck bk in
    let hits2 := retrieve q2 before_dt ck2 bk2 in
    let run := route question k_ctx before_dt in
    bk < bk2 /\
    fst run = "answer" /\
    (hits1 <> [] ->
       filter is_retrieved (snd run) = [Retrieved question ck bk hits1]) /\
    (hits1 = [] ->
       filter is_retrieved (snd run)
       = [Retrieved question ck bk []; Retrieved q2 ck2 bk2 hits2]) /\
    (hits1 = [] -> hits2 = [] ->
       snd run = [Retrieved question ck bk []; Retrieved q2 ck2 bk2 [];
                  Printed (LF +:+ "I couldn't retrieve any relevant chunks to answer that."
                              +:+ LF)] /\
       filter is_generated (snd run) = [] /\
       endpoint question k_ctx before_dt
       = (Server.mkAnswerResponse "answer"
            "I couldn't retrieve any relevant chunks." [],
          [Retrieved question ck bk []; Retrieved q2 ck2 bk2 []])) /\
    (forall prompt, In (Generated prompt) (snd run) -> hits1 <> [] \/ hits2 <> []).
Proof.
  intros question k_ctx before Hqa tokens ck bk q2 ck2 bk2 hits1 hits2 run.
  assert (Hrun : run = qa_mode file_mtime similarity_search_with_score search
                         chunks_fts call_llm question k_ctx before tokens).
  { unfold run, route_and_run. now rewrite Hqa. }
  assert (Hdepth : bk < bk2) by (unfold bk2, bk; destruct tokens; lia).
  split; [exact Hdepth|].
  assert (Hshape :
    qa_mode file_mtime similarity_search_with_score search chunks_fts call_llm
      question k_ctx before tokens
    = match hits1 with
      | _ :: _ =>
          ("answer", Retrieved question ck bk hits1
                       :: answer_from call_llm question k_ctx hits1)
      | [] =>
          match hits2 with
          | [] => ("answer",
                   [Retrieved question ck bk hits1; Retrieved q2 ck2 bk2 hits2;
                    Printed NO_CHUNKS])
          | _ :: _ =>
              ("answer", Retrieved question ck bk hits1 :: Retrieved q2 ck2 bk2 hits2
                           :: answer_from call_llm question k_ctx hits2)
          end
      end).
  { unfold qa_mode, hits1, hits2, q2, ck2, bk2, ck, bk. destruct tokens; reflexivity. }
  rewrite Hrun, Hshape.
  split; [destruct hits1; [destruct hits2|]; reflexivity|].
  split; [|split; [|split]].
  - intros Hne. destruct hits1 as [|h hs]; [now elim Hne|].
    cbn [snd filter is_retrieved]. now rewrite answer_from_retrieved.
  - intros E. rewrite E. destruct hits2 as [|h hs]; cbn [snd filter is_retrieved].
    + reflexivity.
    + now rewrite answer_from_retrieved.
  - intros E1 E2. rewrite E1, E2. split; [reflexivity|]. split; [reflexivity|].
    unfold Server.route_endpoint_qa. fold tokens.
    assert (Hs : (let (ck_eff, bk_eff) :=
                    match tokens with [] => (8, 20) | _ :: _ => (6, 50) end in
                  (ck_eff, bk_eff)) = (ck, bk))
      by (unfold ck, bk; destruct tokens; reflexivity).
    unfold hits1, hits2, q2, ck2, bk2, ck, bk in *.
    destruct tokens; cbn zeta; rewrite E1, E2; reflexivity.
  - intros prompt Hin. destruct hits1 as [|h hs]; [|left; discriminate].
    destruct hits2 as [|h hs]; [|right; discriminate].
    cbn [snd] in Hin. destruct Hin as [H|[H|[H|[]]]]; discriminate.
Qed.

End RouterClaims.

Lemma qa_branch_retries_once_then_refuses_witness :
  fst RouterExample.run_empty = "answer" /\
  filter is_generated (snd RouterExample.run_empty) = [].
Proof.
  assert (Hqa : Answer.is_file_lookup RouterExample.question = false) by reflexivity.
  pose proof (qa_branch_retries_once_then_refuses
                Example.file_mtime RouterExample.no_docs RouterExample.no_rows []
                RouterExample.call_llm RouterExample.file_lookup_mode
                RouterExample.question 6 None Hqa) as H.
  cbv zeta in H. destruct H as (_ & Hmode & _ & _ & Hempty & _).
  split; [exact Hmode|].
  exact (proj1 (proj2 (Hempty eq_refl eq_refl))).
Defined.

(** With both stores empty the router refuses with its own fixed text,
    which is not the text "insufficient information", and so does the HTTP
    route. *)
Lemma refusal_text_is_not_insufficient_information :
  RouterExample.run_empty
  = ("answer",
     [Retrieved RouterExample.question 6 50 [];
      Retrieved (RouterAgent.add_quotes_if_helpful RouterExample.question
                   (RouterAgent.detect_brand_tokens RouterExample.question))
        4 60 [];
      Printed (LF +:+ "I couldn't retrieve any relevant chunks to answer that." +:+ LF)]) /\
  str_contains "insufficient information" RouterAgent.NO_CHUNKS = false /\
  Server.answer (fst RouterExample.respond_empty)
  = "I couldn't retrieve any relevant chunks." /\
  Server.answer (fst RouterExample.respond_empty) <> "insufficient information" /\
  Server.citations (fst RouterExample.respond_empty) = [].
Proof.
  vm_compute. repeat split. discriminate.
Qed.

(* ====================================================================== *)
(** * Facts about character classes and runs *)
(* ====================================================================== *)

Lemma all_chars_append (p : ascii -> bool) (a b : string) :
  all_chars p (a +:+ b) = all_chars p a && all_chars p b.
Proof.
  induction a as [|c a IH]; cbn; [reflexivity|].
  now rewrite IH, andb_assoc.
Qed.

Lemma sub_runs_removes (p : ascii -> bool) (s : string) :
  p " "%char = false ->
  all_chars (fun c => negb (p c)) (sub_runs p s) = true.
Proof.
  intros Hsp. induction s as [|c s IH]; cbn; [reflexivity|].
  destruct (p c) eqn:E.
  - destruct (head_is p s); cbn; [exact IH|]. now rewrite Hsp, IH.
  - cbn. now rewrite E, IH.
Qed.

Lemma sub_runs_keeps (p q : ascii -> bool) (s : string) :
  q " "%char = true ->
  all_chars q s = true -> all_chars q (sub_runs p s) = true.
Proof.
  intros Hsp. induction s as [|c s IH]; cbn; [reflexivity|].
  intros H. apply andb_prop in H as [Hc Hs].
  destruct (p c).
  - destruct (head_is p s); cbn; [auto|]. rewrite Hsp. auto.
  - cbn. rewrite Hc. auto.
Qed.

Lemma sub_runs_fixed (p : ascii -> bool) (s : string) :
  all_chars (fun c => negb (p c)) s = true -> sub_runs p s = s.
Proof.
  induction s as [|c s IH]; cbn; [reflexivity|].
  intros H. apply andb_prop in H as [Hc Hs].
  apply negb_true_iff in Hc. rewrite Hc. now rewrite IH.
Qed.

Lemma head_is_sub_runs (p : ascii -> bool) (s : string) :
  head_is p (sub_runs p s) = false \/ head_is (Ascii.eqb " ") (sub_runs p s) = true.
Proof.
  induction s as [|c s IH]; cbn; [now left|].
  destruct (p c) eqn:E.
  - destruct (head_is p s); [exact IH|]. right. reflexivity.
  - left. cbn. exact E.
Qed.

(* ====================================================================== *)
(** * [sanitize_for_fts] *)
(* ====================================================================== *)

Section SanitizeFacts.
Import Bm25Db.

Lemma is_space_space : is_space " "%char = true.
Proof. reflexivity. Qed.

Lemma is_fts_punct_space : is_fts_punct " "%char = false.
Proof. reflexivity. Qed.

Lemma head_is_sub_runs_same (p : ascii -> bool) (s : string) :
  head_is p s = false -> head_is p (sub_runs p s) = false.
Proof.
  destruct s as [|c s]; cbn; [reflexivity|].
  intros E. rewrite E. cbn. exact E.
Qed.

Lemma sub_runs_spaced (s : string) : spaced (sub_runs is_space s) = true.
Proof.
  induction s as [|c s IH]; cbn; [reflexivity|].
  destruct (is_space c) eqn:E.
  - destruct (head_is is_space s) eqn:H; [exact IH|].
    cbn. rewrite IH, (head_is_sub_runs_same _ _ H). reflexivity.
  - cbn. rewrite E, IH. reflexivity.
Qed.

Lemma py_lstrip_all (q : ascii -> bool) (s : string) :
  all_chars q s = true -> all_chars q (py_lstrip s) = true.
Proof.
  induction s as [|c s IH]; cbn; [reflexivity|].
  intros H. destruct (is_space c); [|exact H].
  apply andb_prop in H as [_ H]. auto.
Qed.

Lemma py_lstrip_spaced (s : string) :
  spaced s = true -> spaced (py_lstrip s) = true.
Proof.
  induction s as [|c s IH]; cbn; [reflexivity|].
  intros H. destruct (is_space c) eqn:E.
  - apply andb_prop in H as [_ H]. auto.
  - cbn. now rewrite E.
Qed.

Lemma py_lstrip_head (s : string) : head_is is_space (py_lstrip s) = false.
Proof.
  induction s as [|c s IH]; cbn; [reflexivity|].
  destruct (is_space c) eqn:E; [exact IH|]. exact E.
Qed.

Lemma py_rstrip_cons (c : ascii) (s : string) :
  py_rstrip (String c s) =
  match py_rstrip s with
  | EmptyString => if is_space c then "" else String c ""
  | String a t => String c (String a t)
  end.
Proof. cbn. now destruct (py_rstrip s). Qed.

Lemma py_rstrip_head_char (s : string) :
  py_rstrip s = "" \/
  exists c t t', s = String c t /\ py_rstrip s = String c t'.
Proof.
  destruct s as [|c s]; [now left|].
  rewrite py_rstrip_cons. destruct (py_rstrip s) as [|a t].
  - destruct (is_space c); [now left|]. right. now exists c, s, "".
  - right. now exists c, s, (String a t).
Qed.

Lemma py_rstrip_all (q : ascii -> bool) (s : string) :
  all_chars q s = true -> all_chars q (py_rstrip s) = true.
Proof.
  induction s as [|c s IH]; [reflexivity|].
  intros H. cbn in H. apply andb_prop in H as [Hc Hs].
  rewrite py_rstrip_cons. specialize (IH Hs).
  destruct (py_rstrip s) as [|a t].
  - destruct (is_space c); cbn; [reflexivity|]. now rewrite Hc.
  - change (all_chars q (String c (String a t))) with (q c && all_chars q (String a t)).
    now rewrite Hc, IH.
Qed.

Lemma py_rstrip_head (s : string) :
  head_is is_space s = false -> head_is is_space (py_rstrip s) = false.
Proof.
  destruct s as [|c s]; [reflexivity|].
  cbn [head_is]. intros E. rewrite py_rstrip_cons.
  destruct (py_rstrip s); [rewrite E|]; exact E.
Qed.

Lemma py_rstrip_single_spaced (s : string) :
  spaced s = true -> single_spaced (py_rstrip s) = true.
Proof.
  induction s as [|c s IH]; [reflexivity|].
  intros H. cbn in H. apply andb_prop in H as [Hc Hs].
  rewrite py_rstrip_cons. specialize (IH Hs).
  destruct (py_rstrip_head_char s) as [E | (a & t & t' & Es & E)]; rewrite E.
  - destruct (is_space c) eqn:Ec; cbn; [reflexivity|]. now rewrite Ec.
  - rewrite E in IH. cbn [single_spaced]. cbn [single_spaced] in IH. rewrite IH.
    destruct (is_space c) eqn:Ec; [|reflexivity].
    apply andb_prop in Hc as [Hc1 Hc2]. rewrite Hc1. subst s. cbn in Hc2.
    cbn. now rewrite Hc2.
Qed.

Lemma single_spaced_spaced (s : string) :
  single_spaced s = true -> spaced s = true.
Proof.
  induction s as [|c s IH]; cbn; [reflexivity|].
  intros H. apply andb_prop in H as [Hc Hs]. rewrite (IH Hs), andb_true_r.
  destruct (is_space c); [|reflexivity].
  apply andb_prop in Hc as [Hc1 Hc2]. rewrite Hc1. cbn.
  destruct s as [|a s]; [discriminate|]. cbn in *. now rewrite negb_true_iff in Hc2 |- *.
Qed.

Lemma sanitize_for_fts_normal (query : string) :
  fts_normal (sanitize_for_fts query) = true.
Proof.
  unfold fts_normal, sanitize_for_fts, py_strip.
  rewrite py_rstrip_all, py_rstrip_head, py_rstrip_single_spaced; try reflexivity.
  - apply py_lstrip_spaced, sub_runs_spaced.
  - apply py_lstrip_head.
  - apply py_lstrip_all, sub_runs_keeps; [reflexivity|].
    apply sub_runs_removes. reflexivity.
Qed.

Lemma py_lstrip_fixed (s : string) :
  head_is is_space s = false -> py_lstrip s = s.
Proof. destruct s as [|c s]; cbn; [reflexivity|]. now intros ->. Qed.

Lemma py_rstrip_fixed (s : string) :
  single_spaced s = true -> py_rstrip s = s.
Proof.
  induction s as [|c s IH]; [reflexivity|].
  intros H. cbn in H. apply andb_prop in H as [Hc Hs].
  rewrite py_rstrip_cons, (IH Hs).
  destruct s as [|a t]; [|reflexivity].
  destruct (is_space c); [|reflexivity].
  apply andb_prop in Hc as [_ Hc]. discriminate.
Qed.

Lemma sub_runs_space_fixed (s : string) :
  spaced s = true -> sub_runs is_space s = s.
Proof.
  induction s as [|c s IH]; cbn; [reflexivity|].
  intros H. apply andb_prop in H as [Hc Hs]. rewrite (IH Hs).
  destruct (is_space c); [|reflexivity].
  apply andb_prop in Hc as [Hc1 Hc2]. apply negb_true_iff in Hc2. rewrite Hc2.
  apply Ascii.eqb_eq in Hc1. now subst c.
Qed.

Lemma sanitize_for_fts_fixed (s : string) :
  fts_normal s = true -> sanitize_for_fts s = s.
Proof.
  unfold fts_normal, sanitize_for_fts, py_strip. intros H.
  apply andb_prop in H as [H H3]. apply andb_prop in H as [H1 H2].
  apply negb_true_iff in H2.
  rewrite (sub_runs_fixed _ _ H1), (sub_runs_space_fixed _ (single_spaced_spaced _ H3)).
  rewrite (py_lstrip_fixed _ H2). now apply py_rstrip_fixed.
Qed.

(** X1 (bm25_db.sanitize_for_fts): the sanitized query never contains a
    character of the punctuation class, has no white space at either end,
    and its words are separated by exactly one space. *)
Theorem sanitize_for_fts_shape (query : string) :
  let q := sanitize_for_fts query in
  all_chars (fun c => negb (is_fts_punct c)) q = true /\
  head_is is_space q = false /\
  single_spaced q = true.
Proof.
  pose proof (sanitize_for_fts_normal query) as H.
  unfold fts_normal in H.
  apply andb_prop in H as [H H3]. apply andb_prop in H as [H1 H2].
  apply negb_true_iff in H2. cbn zeta. auto.
Qed.

(** X2 (bm25_db.sanitize_for_fts): sanitizing is idempotent, and the
    queries it leaves unchanged are exactly those already in the
    sanitized shape. *)
Theorem sanitize_for_fts_idempotent (query : string) :
  sanitize_for_fts (sanitize_for_fts query) = sanitize_for_fts query /\
  (sanitize_for_fts query = query <-> fts_normal query = true).
Proof.
  split.
  - apply sanitize_for_fts_fixed, sanitize_for_fts_normal.
  - split.
    + intros E. rewrite <- E. apply sanitize_for_fts_normal.
    + apply sanitize_for_fts_fixed.
Qed.

Lemma py_rstrip_empty_iff (s : string) :
  py_rstrip s = "" <-> all_chars is_space s = true.
Proof.
  induction s as [|c s IH]; [now split|].
  rewrite py_rstrip_cons. cbn [all_chars].
  destruct (py_rstrip s) as [|a t].
  - rewrite (proj1 IH eq_refl), andb_true_r. destruct (is_space c); now split.
  - split; [discriminate|]. intros H. apply andb_prop in H as [_ H].
    apply IH in H. discriminate.
Qed.

Lemma py_lstrip_all_space (s : string) :
  all_chars is_space (py_lstrip s) = all_chars is_space s.
Proof.
  induction s as [|c s IH]; cbn; [reflexivity|].
  destruct (is_space c) eqn:E; cbn; [exact IH|]. now rewrite E.
Qed.

Lemma py_strip_empty_iff (s : string) :
  py_strip s = "" <-> all_chars is_space s = true.
Proof.
  unfold py_strip. now rewrite py_rstrip_empty_iff, py_lstrip_all_space.
Qed.

Lemma sub_runs_all_space (p : ascii -> bool) (s : string) :
  all_chars is_space (sub_runs p s) =
  all_chars (fun c => p c || is_space c) s.
Proof.
  induction s as [|c s IH]; cbn; [reflexivity|].
  destruct (p c) eqn:E; cbn.
  - destruct (head_is p s); cbn; exact IH.
  - now rewrite IH.
Qed.

(** X3 (bm25_db.sanitize_for_fts, bm25_db.search): the sanitized query is
    empty, which is when [search] goes to the substring scan without
    trying a full-text match, exactly when the query consists only of
    punctuation of the class and white space. *)
Theorem sanitize_for_fts_empty_iff (query : string) :
  sanitize_for_fts query = "" <->
  all_chars (fun c => is_fts_punct c || is_space c) query = true.
Proof.
  unfold sanitize_for_fts.
  rewrite py_strip_empty_iff, !sub_runs_all_space.
  assert (E : forall s,
             all_chars (fun c => is_space c || is_space c) s = all_chars is_space s).
  { induction s as [|c s IH]; cbn; [reflexivity|]. now rewrite IH, orb_diag. }
  rewrite E, sub_runs_all_space. reflexivity.
Qed.

End SanitizeFacts.

(* ====================================================================== *)
(** * The keyword store: [add_chunks] *)
(* ====================================================================== *)

Lemma str_in_iff (x : string) (l : list string) : str_in x l = true <-> In x l.
Proof.
  unfold str_in. rewrite existsb_exists. split.
  - intros (y & Hy & E). apply String.eqb_eq in E. now subst.
  - intros H. exists x. split; [assumption | apply String.eqb_refl].
Qed.

Lemma str_in_false_iff (x : string) (l : list string) :
  str_in x l = false <-> ~ In x l.
Proof.
  rewrite <- str_in_iff. destruct (str_in x l); split; intros H;
    try discriminate; try reflexivity.
  now destruct H.
Qed.

Section StoreFacts.
Import Bm25Db.

Lemma usable_id_some (chunk : Document) (cid : string) :
  usable_id chunk = Some cid ->
  md_id (metadata chunk) = Some cid /\ cid <> "".
Proof.
  unfold usable_id. destruct (md_id (metadata chunk)) as [[|a s]|];
    intros E; inversion E; subst. split; [reflexivity | discriminate].
Qed.

(** One round of the loop, read on [usable_id]. *)
Lemma add_chunk_step (conn : Db) (n : Z) (chunk : Document) :
  add_chunk (conn, n) chunk =
  match usable_id chunk with
  | None => (conn, n)
  | Some cid =>
      if str_in cid (get_existing_ids conn) then (conn, n)
      else (mkDb (chunk_meta conn ++ [meta_row_of cid chunk])
                 (chunks_fts conn ++ [fts_row_of cid chunk]), n + 1)
  end.
Proof.
  destruct conn as [meta fts]. unfold add_chunk, usable_id, get_existing_ids.
  destruct (md_id (metadata chunk)) as [[|a s]|];
    cbn [or_empty get_default py_not_str]; try reflexivity.
  unfold insert_or_ignore_meta. cbn [mr_chunk_id chunk_meta chunks_fts].
  destruct (str_in (String a s) (map mr_chunk_id meta)); reflexivity.
Qed.

(** The loop writes the rows of [new_rows], in order, after the rows that
    were there, and counts them. *)
Lemma add_chunks_from (chunks : list Document) (conn : Db) (n : Z) :
  fold_left add_chunk chunks (conn, n) =
  (mkDb (chunk_meta conn
           ++ map (fun p => meta_row_of (fst p) (snd p))
                (new_rows (get_existing_ids conn) chunks))
        (chunks_fts conn
           ++ map (fun p => fts_row_of (fst p) (snd p))
                (new_rows (get_existing_ids conn) chunks)),
   n + Z.of_nat (List.length (new_rows (get_existing_ids conn) chunks))).
Proof.
  revert conn n. induction chunks as [|c rest IH]; intros conn n.
  - cbn. rewrite !app_nil_r, Z.add_0_r. now destruct conn.
  - cbn [fold_left new_rows]. rewrite add_chunk_step.
    destruct (usable_id c) as [cid|]; [|apply IH].
    destruct (str_in cid (get_existing_ids conn)); [apply IH|].
    rewrite IH. unfold get_existing_ids. cbn [chunk_meta chunks_fts].
    rewrite map_app. cbn [map meta_row_of mr_chunk_id List.length fst snd].
    rewrite <- !app_assoc. cbn [app]. f_equal. lia.
Qed.

Lemma add_chunks_rows (conn : Db) (chunks : list Document) :
  add_chunks conn chunks =
  (mkDb (chunk_meta conn
           ++ map (fun p => meta_row_of (fst p) (snd p))
                (new_rows (get_existing_ids conn) chunks))
        (chunks_fts conn
           ++ map (fun p => fts_row_of (fst p) (snd p))
                (new_rows (get_existing_ids conn) chunks)),
   Z.of_nat (List.length (new_rows (get_existing_ids conn) chunks))).
Proof. unfold add_chunks. now rewrite add_chunks_from. Qed.

Lemma new_rows_in (chunks : list Document) (seen : list string)
    (cid : string) (c : Document) :
  In (cid, c) (new_rows seen chunks) ->
  In c chunks /\ usable_id c = Some cid /\ ~ In cid seen.
Proof.
  revert seen. induction chunks as [|d rest IH]; intros seen; cbn; [tauto|].
  destruct (usable_id d) as [i|] eqn:E.
  - destruct (str_in i seen) eqn:S.
    + intros H. apply IH in H. tauto.
    + intros [H | H].
      * inversion H; subst. apply str_in_false_iff in S. tauto.
      * apply IH in H as (H1 & H2 & H3). repeat split; auto.
        intros Hs. apply H3, in_or_app. now left.
  - intros H. apply IH in H. tauto.
Qed.

Lemma new_rows_nodup (chunks : list Document) (seen : list string) :
  NoDup (map fst (new_rows seen chunks)).
Proof.
  revert seen. induction chunks as [|d rest IH]; intros seen; cbn; [constructor|].
  destruct (usable_id d) as [i|]; [|apply IH].
  destruct (str_in i seen); [apply IH|].
  cbn. constructor; [|apply IH].
  intros H. apply in_map_iff in H as ([j c] & Hj & H). cbn in Hj. subst j.
  apply new_rows_in in H as (_ & _ & H). apply H, in_or_app. right. now left.
Qed.

Lemma new_rows_covers (chunks : list Document) (seen : list string)
    (cid : string) (c : Document) :
  In c chunks -> usable_id c = Some cid ->
  In cid seen \/ In cid (map fst (new_rows seen chunks)).
Proof.
  revert seen. induction chunks as [|d rest IH]; intros seen; cbn; [tauto|].
  intros [-> | Hin] Hu.
  - rewrite Hu. destruct (str_in cid seen) eqn:S.
    + left. now apply str_in_iff.
    + right. now left.
  - destruct (usable_id d) as [i|].
    + destruct (str_in i seen); [now apply IH|].
      destruct (IH (seen ++ [i]) Hin Hu) as [H | H].
      * apply in_app_or in H as [H | [H | []]]; [now left|].
        right. left. exact H.
      * right. right. exact H.
    + now apply IH.
Qed.

Lemma new_rows_none (chunks : list Document) (seen : list string) :
  (forall c cid, In c chunks -> usable_id c = Some cid -> In cid seen) ->
  new_rows seen chunks = [].
Proof.
  revert seen. induction chunks as [|d rest IH]; intros seen H; cbn; [reflexivity|].
  destruct (usable_id d) as [i|] eqn:E.
  - rewrite (proj2 (str_in_iff i seen) (H d i (or_introl eq_refl) E)).
    apply IH. intros c cid Hc. apply H. now right.
  - apply IH. intros c cid Hc. apply H. now right.
Qed.

Lemma existing_ids_after (conn : Db) (chunks : list Document) :
  get_existing_ids (fst (add_chunks conn chunks)) =
  get_existing_ids conn ++ map fst (new_rows (get_existing_ids conn) chunks).
Proof.
  rewrite add_chunks_rows. unfold get_existing_ids. cbn [fst chunk_meta].
  rewrite map_app, map_map. reflexivity.
Qed.

Lemma fts_ids_after (conn : Db) (chunks : list Document) :
  map fr_chunk_id (chunks_fts (fst (add_chunks conn chunks))) =
  map fr_chunk_id (chunks_fts conn)
    ++ map fst (new_rows (get_existing_ids conn) chunks).
Proof.
  rewrite add_chunks_rows. cbn [fst chunks_fts].
  rewrite map_app, map_map. reflexivity.
Qed.

Lemma NoDup_app_new (a b : list string) :
  NoDup a -> NoDup b -> (forall x, In x b -> ~ In x a) -> NoDup (a ++ b).
Proof.
  intros Ha Hb Hd. induction a as [|x a IH]; [exact Hb|].
  inversion Ha as [|? ? Hx Ha']; subst. cbn. constructor.
  - intros H. apply in_app_or in H as [H | H]; [now apply Hx|].
    apply (Hd x H). now left.
  - apply IH; [exact Ha'|]. intros y Hy Hy'. apply (Hd y Hy). now right.
Qed.

(** X4 (bm25_db.add_chunks): the rows that were in the two tables stay as
    they are, in place, and new rows are only appended; if the primary key
    held and the full-text table had one row per row of [chunk_meta], both
    still hold afterwards. *)
Theorem add_chunks_keeps_store_consistent (conn : Db) (chunks : list Document) :
  consistent conn ->
  let conn' := fst (add_chunks conn chunks) in
  consistent conn' /\
  (exists new_meta, chunk_meta conn' = chunk_meta conn ++ new_meta) /\
  (exists new_fts, chunks_fts conn' = chunks_fts conn ++ new_fts).
Proof.
  intros [Hnd Hsync] conn'. subst conn'. split; [split|split].
  - rewrite existing_ids_after. apply NoDup_app_new; [exact Hnd | apply new_rows_nodup |].
    intros x Hx. apply in_map_iff in Hx as ([i c] & <- & Hx).
    now apply new_rows_in in Hx.
  - now rewrite existing_ids_after, fts_ids_after, Hsync.
  - rewrite add_chunks_rows. cbn [fst chunk_meta]. eauto.
  - rewrite add_chunks_rows. cbn [fst chunks_fts]. eauto.
Qed.

Lemma new_rows_length (chunks : list Document) (seen : list string) :
  (List.length (new_rows seen chunks) <= List.length chunks)%nat.
Proof.
  revert seen. induction chunks as [|d rest IH]; intros seen; cbn; [lia|].
  destruct (usable_id d) as [i|].
  - destruct (str_in i seen); [specialize (IH seen) | specialize (IH (seen ++ [i]))];
      cbn; lia.
  - specialize (IH seen). lia.
Qed.

(** X5 (bm25_db.add_chunks, bm25_db.get_existing_ids): the number returned
    is the number of ids the call adds to [chunk_meta]; it lies between 0
    and the number of chunks; and the ids present afterwards are those
    present before together with the non-empty ids of the chunks. *)
Theorem add_chunks_counts_new_ids (conn : Db) (chunks : list Document) :
  let conn' := fst (add_chunks conn chunks) in
  let inserted := snd (add_chunks conn chunks) in
  inserted = Z.of_nat (List.length (get_existing_ids conn'))
             - Z.of_nat (List.length (get_existing_ids conn)) /\
  0 <= inserted <= Z.of_nat (List.length chunks) /\
  (forall cid,
     In cid (get_existing_ids conn') <->
     In cid (get_existing_ids conn) \/
     exists c, In c chunks /\ usable_id c = Some cid).
Proof.
  cbn zeta. rewrite existing_ids_after. rewrite add_chunks_rows. cbn [snd].
  split; [|split].
  - rewrite length_app, length_map. lia.
  - pose proof (new_rows_length chunks (get_existing_ids conn)). lia.
  - intros cid. rewrite in_app_iff. split.
    + intros [H | H]; [now left|]. right.
      apply in_map_iff in H as ([i c] & <- & H).
      apply new_rows_in in H as (H1 & H2 & _). now exists c.
    + intros [H | (c & Hc & Hu)]; [now left|].
      apply (new_rows_covers _ _ _ _ Hc Hu).
Qed.

(** X6 (bm25_db.add_chunks): adding the same chunks a second time inserts
    nothing and leaves the database as it is. *)
Theorem add_chunks_idempotent (conn : Db) (chunks : list Document) :
  add_chunks (fst (add_chunks conn chunks)) chunks
  = (fst (add_chunks conn chunks), 0).
Proof.
  rewrite (add_chunks_rows (fst (add_chunks conn chunks))).
  rewrite new_rows_none.
  - cbn. rewrite !app_nil_r. now destruct (fst (add_chunks conn chunks)).
  - intros c cid Hc Hu. rewrite existing_ids_after. apply in_or_app.
    apply (new_rows_covers _ _ _ _ Hc Hu).
Qed.

Lemma new_rows_first (l1 l2 : list Document) (c : Document) (cid : string)
    (seen : list string) :
  usable_id c = Some cid ->
  ~ In cid seen ->
  (forall d, In d l1 -> usable_id d <> Some cid) ->
  In (cid, c) (new_rows seen (l1 ++ c :: l2)).
Proof.
  intros Hu. revert seen. induction l1 as [|d l1 IH]; intros seen Hs Hl; cbn.
  - rewrite Hu. apply str_in_false_iff in Hs. rewrite Hs. now left.
  - assert (Hd : usable_id d <> Some cid) by (apply Hl; now left).
    assert (Hl' : forall d, In d l1 -> usable_id d <> Some cid)
      by (intros ? ?; apply Hl; now right).
    destruct (usable_id d) as [i|]; [|now apply IH].
    destruct (str_in i seen); [now apply IH|]. right. apply IH; [|exact Hl'].
    intros H. apply in_app_or in H as [H | [H | []]]; [now apply Hs|].
    apply Hd. now subst.
Qed.

Lemma NoDup_map_unique {A B : Type} (f : A -> B) (l : list A) (a b : A) :
  NoDup (map f l) -> In a l -> In b l -> f a = f b -> a = b.
Proof.
  induction l as [|x l IH]; cbn; [tauto|].
  intros Hnd Ha Hb E. inversion Hnd as [|? ? Hx Hnd']; subst.
  destruct Ha as [-> | Ha], Hb as [-> | Hb]; auto.
  - exfalso. apply Hx. rewrite E. now apply in_map.
  - exfalso. apply Hx. rewrite <- E. now apply in_map.
Qed.

(** X7 (bm25_db.add_chunks): when several chunks of a batch carry the same
    id, and the id is not stored yet, the row kept in the full-text table
    is the one of the first such chunk: source, page and text of the later
    ones are dropped. *)
Theorem add_chunks_first_chunk_wins (conn : Db) (l1 l2 : list Document)
    (c : Document) (cid : string) :
  consistent conn ->
  usable_id c = Some cid ->
  ~ In cid (get_existing_ids conn) ->
  (forall d, In d l1 -> usable_id d <> Some cid) ->
  let conn' := fst (add_chunks conn (l1 ++ c :: l2)) in
  In (fts_row_of cid c) (chunks_fts conn') /\
  (forall row, In row (chunks_fts conn') -> fr_chunk_id row = cid ->
               row = fts_row_of cid c).
Proof.
  intros [Hnd Hsync] Hu Hnew Hl1 conn'.
  assert (Hin : In (fts_row_of cid c) (chunks_fts conn')).
  { subst conn'. rewrite add_chunks_rows. cbn [fst chunks_fts].
    apply in_or_app. right.
    apply (in_map (fun p => fts_row_of (fst p) (snd p)) _ (cid, c)).
    now apply new_rows_first. }
  split; [exact Hin|]. intros row Hrow Hid.
  apply (NoDup_map_unique fr_chunk_id (chunks_fts conn')); auto.
  subst conn'. rewrite fts_ids_after, Hsync.
  apply NoDup_app_new; [exact Hnd | apply new_rows_nodup |].
  intros x Hx. apply in_map_iff in Hx as ([i d] & <- & Hx).
  now apply new_rows_in in Hx.
Qed.

End StoreFacts.

(* ====================================================================== *)
(** * The keyword indexer: [main] *)
(* ====================================================================== *)

Section IndexMainFacts.
Import Bm25Db IndexBm25Main.

Variable load_documents : string -> list Document.
Variable split_documents : list Document -> list Document.

#[local] Abbreviation run := (main load_documents split_documents).

Lemma append_colon_nonempty (a b : string) : a +:+ ":" +:+ b <> "".
Proof. destruct a; discriminate. Qed.

Lemma usable_id_set_id (c : Document) (v : string) :
  v <> "" -> usable_id (set_id c v) = Some (or_empty (md_id (metadata (set_id c v)))).
Proof. destruct v; [now intros [] | reflexivity]. Qed.

(** Every chunk leaves [assign_chunk_ids] with a non-empty id. *)
Lemma assign_loop_usable (last : option string) (idx : Z) (chunks : list Document) :
  Forall (fun c => usable_id c = Some (or_empty (md_id (metadata c))))
    (IndexBm25.assign_loop last idx chunks).
Proof.
  revert last idx.
  induction chunks as [|c rest IH]; intros; cbn [IndexBm25.assign_loop];
    constructor.
  - apply usable_id_set_id, append_colon_nonempty.
  - apply IH.
Qed.

Lemma new_rows_all (chunks : list Document) (seen : list string) :
  Forall (fun c => usable_id c = Some (or_empty (md_id (metadata c)))) chunks ->
  List.length (new_rows seen chunks) = List.length chunks <->
  NoDup (chunk_ids chunks) /\ (forall i, In i (chunk_ids chunks) -> ~ In i seen).
Proof.
  intros Hall. revert seen.
  induction Hall as [|d rest Hd Hall IH]; intros seen; cbn -[In].
  - split; [intros _; split; [constructor | intros ? []] | reflexivity].
  - rewrite Hd. set (i := or_empty (md_id (metadata d))).
    destruct (str_in i seen) eqn:S.
    + split.
      * intros E. pose proof (new_rows_length rest seen). lia.
      * intros [_ H]. apply str_in_iff in S. exfalso. apply (H i); [now left | exact S].
    + apply str_in_false_iff in S. cbn [List.length]. split.
      * intros E. injection E as E. apply IH in E as [Hnd Hdis]. split.
        -- constructor; [|exact Hnd]. intros Hin.
           apply (Hdis i Hin), in_or_app. right. now left.
        -- intros j [<- | Hj]; [exact S|]. intros Hs.
           apply (Hdis j Hj), in_or_app. now left.
      * intros [Hnd Hdis]. inversion Hnd as [|? ? Hi Hnd']; subst. f_equal.
        apply IH. split; [exact Hnd'|].
        intros j Hj Hs. apply in_app_or in Hs as [Hs | [<- | []]].
        -- apply (Hdis j); [now right | exact Hs].
        -- now apply Hi.
Qed.

Lemma assigned_ids_nodup_iff (chunks : list Document) :
  NoDup (chunk_ids (IndexBm25.assign_chunk_ids chunks)) <-> contiguous chunks.
Proof.
  unfold IndexBm25.assign_chunk_ids, contiguous.
  rewrite pipelines_same_loop, assign_loop_ids, NoDup_map_render,
    nodup_run_indices_iff.
  now rewrite separated_iff_keys.
Qed.

Lemma is_new_false (have : list string) (c : Document) (i : string) :
  usable_id c = Some i -> In i have -> is_new have c = false.
Proof.
  intros Hu Hin. apply usable_id_some in Hu as [Hu _].
  unfold is_new. rewrite Hu. apply negb_false_iff. now apply str_in_iff.
Qed.

Lemma filter_nil_iff {A : Type} (f : A -> bool) (l : list A) :
  filter f l = [] <-> forall x, In x l -> f x = false.
Proof.
  induction l as [|a l IH]; cbn; [tauto|].
  destruct (f a) eqn:E; split.
  - discriminate.
  - intros H. specialize (H a (or_introl eq_refl)). congruence.
  - intros H x [<- | Hx]; [exact E | now apply IH].
  - intros H. apply IH. intros x Hx. apply H. now right.
Qed.

(** X8 (index_bm25.main): a second run over the same folder, with the same
    documents and chunks and without [--reset], finds every chunk id in
    the database, inserts nothing and leaves the database as the first
    run left it. *)
Theorem main_rerun_changes_nothing (reset : bool) (root : string) (conn : Db) :
  let conn1 := fst (run reset root conn) in
  run false root conn1 =
  (conn1, match load_documents root with
          | [] => NoDocuments
          | _ :: _ => UpToDate
          end).
Proof.
  cbn zeta. unfold main.
  destruct (load_documents root) as [|d docs]; [reflexivity|].
  set (chunks := IndexBm25.assign_chunk_ids (split_documents (d :: docs))).
  set (conn0 := if reset then empty_db else conn).
  assert (Hall : Forall (fun c => usable_id c = Some (or_empty (md_id (metadata c))))
                   chunks) by apply assign_loop_usable.
  destruct (filter (is_new (get_existing_ids conn0)) chunks) as [|n news] eqn:F.
  - cbn [fst]. now rewrite F.
  - destruct (add_chunks conn0 (n :: news)) as [conn1 inserted] eqn:A. cbn [fst].
    assert (F' : filter (is_new (get_existing_ids conn1)) chunks = []).
    { apply filter_nil_iff. intros c Hc.
      pose proof (proj1 (Forall_forall _ _) Hall c Hc) as Hu.
      apply (is_new_false _ _ _ Hu).
      replace conn1 with (fst (add_chunks conn0 (n :: news))) by now rewrite A.
      rewrite existing_ids_after.
      destruct (is_new (get_existing_ids conn0) c) eqn:N.
      - apply in_or_app.
        apply (new_rows_covers (n :: news) _ _ c); [|exact Hu].
        rewrite <- F. apply filter_In. now split.
      - apply in_or_app. left.
        apply usable_id_some in Hu as [Hu _]. unfold is_new in N. rewrite Hu in N.
        apply negb_false_iff in N. now apply str_in_iff. }
    now rewrite F'.
Qed.

Lemma filter_all {A : Type} (f : A -> bool) (l : list A) :
  (forall x, In x l -> f x = true) -> filter f l = l.
Proof.
  induction l as [|a l IH]; cbn; [reflexivity|]. intros H.
  rewrite (H a (or_introl eq_refl)). f_equal. apply IH. intros x Hx. apply H. now right.
Qed.

(** X9 (index_bm25.main, index_bm25.assign_chunk_ids, bm25_db.add_chunks):
    a run with [--reset] stores one row per chunk exactly when the chunks
    of each (source, page) are contiguous; otherwise chunks that repeat an
    id are left out of the index, and the count reported is smaller than
    the number of chunks. *)
Theorem main_reset_stores_every_chunk_iff_contiguous (root : string) (conn : Db) :
  let chunks := split_documents (load_documents root) in
  match run true root conn with
  | (conn', Inserted inserted) =>
      Z.of_nat (List.length (chunk_meta conn')) = inserted /\
      0 < inserted <= Z.of_nat (List.length chunks) /\
      (inserted = Z.of_nat (List.length chunks) <-> contiguous chunks)
  | (conn', UpToDate) => chunks = [] /\ conn' = empty_db
  | (conn', NoDocuments) => load_documents root = [] /\ conn' = empty_db
  end.
Proof.
  cbn zeta. unfold main.
  destruct (load_documents root) as [|d docs]; [now split|].
  set (chunks := split_documents (d :: docs)).
  pose proof (assign_loop_usable None 0 chunks) as Hall.
  fold (IndexBm25.assign_chunk_ids chunks) in Hall.
  assert (Hlen : List.length (IndexBm25.assign_chunk_ids chunks) = List.length chunks).
  { unfold IndexBm25.assign_chunk_ids.
    rewrite pipelines_same_loop. apply assign_loop_length. }
  rewrite filter_all.
  2:{ intros c _. unfold is_new, empty_db, get_existing_ids. cbn.
      now destruct (md_id (metadata c)). }
  destruct (IndexBm25.assign_chunk_ids chunks) as [|a rest] eqn:E.
  - split; [|reflexivity]. destruct chunks; [reflexivity | discriminate].
  - rewrite add_chunks_rows. cbn [empty_db get_existing_ids chunk_meta chunks_fts map app].
    rewrite app_nil_l, length_map.
    pose proof (new_rows_length (a :: rest) []) as Hle.
    pose proof (new_rows_all (a :: rest) [] Hall) as Hiff.
    split; [reflexivity|]. split.
    + split; [|lia].
      inversion Hall as [|? ? Ha _]; subst. cbn [new_rows]. rewrite Ha.
      cbn [str_in existsb List.length]. lia.
    + rewrite <- assigned_ids_nodup_iff, E, <- Hlen. split.
      * intros H. apply Nat2Z.inj in H. now apply Hiff in H.
      * intros H. f_equal. apply Hiff. split; [exact H | intros ? _ []].
Qed.

End IndexMainFacts.

(* ====================================================================== *)
(** * Sorted sets of strings *)
(* ====================================================================== *)

Lemma ascii_compare_cases (a b : ascii) :
  (Ascii.compare a b = Eq /\ a = b) \/
  (Ascii.compare a b = Lt /\ (N_of_ascii a < N_of_ascii b)%N) \/
  (Ascii.compare a b = Gt /\ (N_of_ascii b < N_of_ascii a)%N).
Proof.
  unfold Ascii.compare.
  destruct (N.compare_spec (N_of_ascii a) (N_of_ascii b)) as [E | L | G].
  - left. split; [reflexivity|].
    rewrite <- (ascii_N_embedding a), <- (ascii_N_embedding b). now rewrite E.
  - right. left. now split.
  - right. right. now split.
Qed.

Lemma str_lt_trans (a b c : string) : str_lt a b -> str_lt b c -> str_lt a c.
Proof.
  unfold str_lt. revert b c.
  induction a as [|x a IH]; intros [|y b] [|z c]; cbn; try discriminate; auto.
  destruct (ascii_compare_cases x y) as [[E ->] | [[E L] | [E G]]]; rewrite E;
    try discriminate.
  - destruct (ascii_compare_cases y z) as [[E' ->] | [[E' L'] | [E' G']]];
      rewrite E'; try discriminate; auto. apply IH.
  - intros _.
    destruct (ascii_compare_cases y z) as [[E' ->] | [[E' L'] | [E' G']]];
      rewrite E'; try discriminate; intros _.
    + now rewrite E.
    + destruct (ascii_compare_cases x z) as [[E2 ->] | [[E2 L2] | [E2 G2]]];
        rewrite E2; try reflexivity; lia.
Qed.

Lemma str_compare_refl (a : string) : String.compare a a = Eq.
Proof.
  induction a as [|c a IH]; cbn; [reflexivity|].
  unfold Ascii.compare. now rewrite N.compare_refl.
Qed.

Lemma str_lt_neq (a b : string) : str_lt a b -> a <> b.
Proof.
  unfold str_lt. intros H ->. rewrite str_compare_refl in H. discriminate.
Qed.

Lemma insert_str_in (x y : string) (l : list string) :
  In y (insert_str x l) <-> y = x \/ In y l.
Proof.
  induction l as [|z l IH]; cbn; [intuition|].
  destruct (String.compare x z) eqn:E; cbn.
  - apply String.compare_eq_iff in E. subst z. intuition.
  - intuition.
  - rewrite IH. intuition.
Qed.

Lemma insert_str_sorted (x : string) (l : list string) :
  StronglySorted str_lt l -> StronglySorted str_lt (insert_str x l).
Proof.
  induction l as [|z l IH]; intros Hs; cbn.
  - repeat constructor.
  - inversion Hs as [|? ? Hl Hall]; subst.
    destruct (String.compare x z) eqn:E.
    + exact Hs.
    + constructor; [exact Hs|]. constructor; [exact E|].
      eapply Forall_impl; [|exact Hall]. intros b Hb.
      now apply str_lt_trans with z.
    + constructor; [now apply IH|].
      apply Forall_forall. intros b Hb. apply insert_str_in in Hb as [-> | Hb].
      * unfold str_lt. rewrite String.compare_antisym, E. reflexivity.
      * rewrite Forall_forall in Hall. now apply Hall.
Qed.

Lemma py_sorted_set_sorted (l : list string) : StronglySorted str_lt (py_sorted_set l).
Proof.
  induction l as [|x l IH]; cbn; [constructor | now apply insert_str_sorted].
Qed.

Lemma py_sorted_set_in (x : string) (l : list string) :
  In x (py_sorted_set l) <-> In x l.
Proof.
  induction l as [|y l IH]; cbn; [tauto|].
  rewrite insert_str_in, IH. intuition.
Qed.

Lemma sorted_lt_nodup (l : list string) : StronglySorted str_lt l -> NoDup l.
Proof.
  induction 1 as [|x l Hs IH Hall]; constructor; [|exact IH].
  intros Hin. rewrite Forall_forall in Hall. now apply (str_lt_neq x x (Hall x Hin)).
Qed.

(* ====================================================================== *)
(** * Runs of a character class *)
(* ====================================================================== *)

Lemma runs_class (p : ascii -> bool) (s : string) :
  Forall (fun r => all_chars p r = true /\ r <> "") (runs p s).
Proof.
  induction s as [|c s IH]; cbn; [constructor|].
  destruct (p c) eqn:E; [|exact IH].
  destruct (head_is p s).
  - destruct (runs p s) as [|r rest].
    + constructor; [|constructor]. cbn. rewrite E. split; [reflexivity | discriminate].
    + inversion IH as [|? ? [Hr _] Hrest]; subst. constructor; [|exact Hrest].
      cbn. rewrite E, Hr. split; [reflexivity | discriminate].
  - constructor; [|exact IH]. cbn. rewrite E. split; [reflexivity | discriminate].
Qed.

Lemma runs_keep (p q : ascii -> bool) (s : string) :
  all_chars q s = true -> Forall (fun r => all_chars q r = true) (runs p s).
Proof.
  induction s as [|c s IH]; cbn; [constructor|].
  intros H. apply andb_prop in H as [Hc Hs]. specialize (IH Hs).
  destruct (p c); [|exact IH].
  destruct (head_is p s).
  - destruct (runs p s) as [|r rest].
    + constructor; [|constructor]. cbn. now rewrite Hc.
    + inversion IH as [|? ? Hr Hrest]; subst. constructor; [|exact Hrest].
      cbn. now rewrite Hc, Hr.
  - constructor; [|exact IH]. cbn. now rewrite Hc.
Qed.

Lemma sub_runs_class (p : ascii -> bool) (s : string) :
  all_chars (fun c => negb (p c) || Ascii.eqb c " ") (sub_runs p s) = true.
Proof.
  induction s as [|c s IH]; cbn; [reflexivity|].
  destruct (p c) eqn:E.
  - destruct (head_is p s); [exact IH|]. cbn. rewrite IH. now rewrite orb_true_r.
  - cbn. now rewrite E, IH.
Qed.

Lemma all_chars_and (p q : ascii -> bool) (s : string) :
  all_chars (fun c => p c && q c) s = all_chars p s && all_chars q s.
Proof.
  induction s as [|c s IH]; cbn; [reflexivity|]. rewrite IH.
  destruct (p c), (q c), (all_chars p s), (all_chars q s); reflexivity.
Qed.

Lemma all_chars_impl (p q : ascii -> bool) (s : string) :
  (forall c, p c = true -> q c = true) ->
  all_chars p s = true -> all_chars q s = true.
Proof.
  intros Hpq. induction s as [|c s IH]; cbn; [reflexivity|].
  intros H. apply andb_prop in H as [Hc Hs]. now rewrite (Hpq c Hc), IH.
Qed.

Lemma drop_last_all (q : ascii -> bool) (s : string) :
  all_chars q s = true -> all_chars q (drop_last s) = true.
Proof.
  induction s as [|c s IH]; [reflexivity|].
  intros H. cbn in H. apply andb_prop in H as [Hc Hs].
  destruct s as [|d s]; [reflexivity|].
  change (drop_last (String c (String d s))) with (String c (drop_last (String d s))).
  cbn [all_chars]. now rewrite Hc, IH.
Qed.

Lemma drop_last_length (s : string) :
  String.length (drop_last s) = Nat.pred (String.length s).
Proof.
  induction s as [|c s IH]; [reflexivity|].
  destruct s as [|d s]; [reflexivity|].
  change (drop_last (String c (String d s))) with (String c (drop_last (String d s))).
  cbn [String.length] in *. now rewrite IH.
Qed.

Lemma lower_char_not_upper (c : ascii) :
  AnswerQuery.is_upper (lower_char c) = false.
Proof. destruct c as [[] [] [] [] [] [] [] []]; reflexivity. Qed.

Lemma py_lower_no_upper (s : string) :
  all_chars (fun c => negb (AnswerQuery.is_upper c)) (py_lower s) = true.
Proof.
  induction s as [|c s IH]; cbn; [reflexivity|].
  now rewrite lower_char_not_upper, IH.
Qed.

(* ====================================================================== *)
(** * [answer.build_bm25_content_query] *)
(* ====================================================================== *)

Section ContentQueryFacts.
Import AnswerQuery.

(** A character of a term: kept by the pattern, and not a capital. *)
#[local] Abbreviation term_char := (fun c => is_kept_char c && negb (is_upper c)).

Lemma split_normalize_chars (query : string) :
  Forall (fun r => all_chars term_char r = true) (py_split (normalize query)).
Proof.
  unfold py_split, normalize.
  set (s := sub_runs (fun c => negb (is_kept_char c)) (py_lower query)).
  assert (Hs : all_chars (fun c => (is_kept_char c || Ascii.eqb c " ")
                                   && negb (is_upper c)) s = true).
  { rewrite all_chars_and. apply andb_true_intro. split.
    - subst s. eapply all_chars_impl; [|apply sub_runs_class].
      intros c. cbn. now rewrite negb_involutive.
    - subst s. apply sub_runs_keeps; [reflexivity | apply py_lower_no_upper]. }
  pose proof (runs_class (fun c => negb (is_space c)) s) as H1.
  pose proof (runs_keep (fun c => negb (is_space c)) _ s Hs) as H2.
  rewrite Forall_forall in *. intros r Hr.
  specialize (H1 r Hr) as [H1 _]. specialize (H2 r Hr).
  assert (H : all_chars (fun c => negb (is_space c)
                 && ((is_kept_char c || Ascii.eqb c " ") && negb (is_upper c))) r = true).
  { rewrite all_chars_and. now rewrite H1, H2. }
  eapply all_chars_impl; [|exact H]. intros c. cbn.
  destruct (Ascii.eqb c " ") eqn:E.
  - apply Ascii.eqb_eq in E. subst c. discriminate.
  - now rewrite orb_false_r, andb_comm, andb_true_iff.
Qed.

(** X10 (answer.build_bm25_content_query): the terms joined with OR are in
    strictly increasing order, so no term occurs twice; they are the kept
    tokens together with the singular form of every kept token that ends
    in s and has more than three characters. *)
Theorem content_terms_sorted_and_exact (query : string) :
  StronglySorted str_lt (content_terms query) /\
  NoDup (content_terms query) /\
  (forall x,
     In x (content_terms query) <->
     In x (content_tokens query) \/
     exists token,
       In token (content_tokens query) /\
       ends_with_char "s" token = true /\
       (3 < String.length token)%nat /\
       x = drop_last token).
Proof.
  unfold content_terms. split; [apply py_sorted_set_sorted|]. split.
  - apply sorted_lt_nodup, py_sorted_set_sorted.
  - intros x. rewrite py_sorted_set_in, in_app_iff. unfold singulars.
    rewrite in_map_iff. split; intros [H | H]; auto; right.
    + destruct H as (t & <- & Ht). apply filter_In in Ht as [Ht Hc].
      apply andb_prop in Hc as [Hs Hl]. apply Nat.ltb_lt in Hl.
      exists t. auto.
    + destruct H as (t & Ht & Hs & Hl & ->). exists t. split; [reflexivity|].
      apply filter_In. split; [exact Ht|].
      rewrite Hs. now apply Nat.ltb_lt.
Qed.

(** X11 (answer.build_bm25_content_query): every term has at least three
    characters, all of them digits or letters of the kept class and none
    of them an ASCII capital; singular forms are not checked against the
    stop words, so a term can be one ("docss" gives "docs"). *)
Theorem content_terms_shape :
  (forall query,
     Forall (fun x => (3 <= String.length x)%nat /\ all_chars term_char x = true)
       (content_terms query)) /\
  In "docs" STOPWORDS /\
  content_terms "docss" = ["docs"; "docss"].
Proof.
  split; [|split; [|reflexivity]].
  2:{ cbn. tauto. }
  intros query. apply Forall_forall. intros x Hx.
  unfold content_terms in Hx. apply (proj1 (py_sorted_set_in _ _)) in Hx.
  pose proof (split_normalize_chars query) as Hc. rewrite Forall_forall in Hc.
  assert (Htok : forall t, In t (content_tokens query) ->
                           (3 <= String.length t)%nat /\ all_chars term_char t = true).
  { intros t Ht. apply filter_In in Ht as [Ht Hf].
    apply andb_prop in Hf as [Hl _]. apply Nat.leb_le in Hl. auto. }
  apply in_app_or in Hx as [Hx | Hx]; [now apply Htok|].
  apply in_map_iff in Hx as (t & <- & Ht). apply filter_In in Ht as [Ht Hf].
  apply andb_prop in Hf as [_ Hl]. apply Nat.ltb_lt in Hl.
  destruct (Htok t Ht) as [_ Hall]. split.
  - rewrite drop_last_length. lia.
  - now apply drop_last_all.
Qed.

End ContentQueryFacts.

(* ====================================================================== *)
(** * [router_agent.build_bm25_query] *)
(* ====================================================================== *)

Lemma ends_with_char_snoc (c : ascii) (s : string) :
  ends_with_char c (s +:+ String c "") = true.
Proof.
  induction s as [|a s IH]; cbn; [apply Ascii.eqb_refl|].
  destruct (s +:+ String c "") eqn:E; [|exact IH].
  destruct s; discriminate.
Qed.

Lemma append_length (a b : string) :
  String.length (a +:+ b) = (String.length a + String.length b)%nat.
Proof. induction a as [|c a IH]; cbn; [reflexivity | now rewrite IH]. Qed.

Lemma snoc_neq (s t : string) : t <> "" -> s +:+ t <> s.
Proof.
  intros Ht E. apply (f_equal String.length) in E. rewrite append_length in E.
  destruct t; [now apply Ht | cbn in E; lia].
Qed.

Section RouterQueryFacts.
Import RouterAgentQuery.

#[local] Abbreviation nonstop := (fun t => str_in t STOPWORDS = false).

(** What the list [tokens] holds once the matches [l] are processed. *)
#[local] Abbreviation term_of l x :=
  ((In x l /\ nonstop x) \/
   (exists t, In t l /\ nonstop t /\ ends_with_char "s" t = false /\ x = t +:+ "s")).

Lemma term_of_snoc (l : list string) (t x : string) :
  term_of (l ++ [t]) x <->
  term_of l x \/ (nonstop t /\ (x = t \/ (ends_with_char "s" t = false /\ x = t +:+ "s"))).
Proof.
  split.
  - intros [[Hin Hn] | (u & Hin & Hn & He & ->)].
    + apply in_app_or in Hin as [Hin | [<- | []]]; [left; left; auto | right; auto].
    + apply in_app_or in Hin as [Hin | [<- | []]].
      * left. right. exists u. auto.
      * right. auto.
  - intros [[[Hin Hn] | (u & Hin & Hn & He & ->)] | [Hn [-> | [He ->]]]].
    + left. split; [apply in_or_app; now left | exact Hn].
    + right. exists u. repeat split; auto. apply in_or_app; now left.
    + left. split; [apply in_or_app; right; now left | exact Hn].
    + right. exists t. repeat split; auto. apply in_or_app; right; now left.
Qed.

Lemma token_loop_invariant (l : list string) :
  let st := fold_left token_step l ([], []) in
  (forall x, In x (snd st) <-> In x (fst st)) /\
  NoDup (fst st) /\
  (forall x, In x (fst st) <-> term_of l x).
Proof.
  induction l as [|t l IH] using rev_ind.
  - cbn. repeat split; try tauto; try constructor.
    intros [[[] _] | (u & [] & _)].
  - cbn zeta in *. rewrite fold_left_app. cbn [fold_left].
    destruct (fold_left token_step l ([], [])) as [tokens seen].
    cbn [fst snd] in IH. destruct IH as (Ha & Hb & Hc).
    unfold token_step.
    destruct (str_in t STOPWORDS) eqn:St.
    { cbn [fst snd]. repeat split; auto; try apply Ha.
      - intros Hx. apply term_of_snoc. left. now apply Hc.
      - intros Hx. apply term_of_snoc in Hx as [Hx | [Hn _]]; [now apply Hc | congruence]. }
    destruct (str_in t seen) eqn:Ss.
    { cbn [fst snd]. repeat split; auto; try apply Ha.
      - intros Hx. apply term_of_snoc. left. now apply Hc.
      - intros Hx. apply term_of_snoc in Hx as [Hx | [_ Hx]]; [now apply Hc|].
        apply str_in_iff, Ha in Ss.
        destruct Hx as [-> | [He ->]]; [exact Ss|].
        apply Hc. apply Hc in Ss as [[Hin Hn] | (u & _ & _ & _ & ->)].
        + right. exists t. auto.
        + rewrite ends_with_char_snoc in He. discriminate. }
    apply str_in_false_iff in Ss.
    assert (Hnt : ~ In t tokens) by (intros H; now apply Ss, Ha).
    assert (Hnd1 : NoDup (tokens ++ [t])).
    { apply NoDup_app_new; [exact Hb | repeat constructor; intros [] |].
      intros x [<- | []]. exact Hnt. }
    assert (Ha1 : forall x, In x (t :: seen) <-> In x (tokens ++ [t])).
    { intros x. rewrite in_app_iff. cbn. rewrite Ha. intuition. }
    destruct (ends_with_char "s" t) eqn:Et.
    { cbn [fst snd]. repeat split; auto; try apply Ha1.
      - intros Hx. apply term_of_snoc. apply in_app_or in Hx as [Hx | [<- | []]].
        + left. now apply Hc.
        + right. auto.
      - intros Hx. apply term_of_snoc in Hx as [Hx | [_ [-> | [He _]]]].
        + apply in_or_app. left. now apply Hc.
        + apply in_or_app. right. now left.
        + congruence. }
    destruct (str_in (t +:+ "s") (t :: seen)) eqn:Sp.
    { cbn [fst snd]. repeat split; auto; try apply Ha1.
      - intros Hx. apply term_of_snoc. apply in_app_or in Hx as [Hx | [<- | []]].
        + left. now apply Hc.
        + right. auto.
      - intros Hx. apply term_of_snoc in Hx as [Hx | [_ [-> | [_ ->]]]].
        + apply in_or_app. left. now apply Hc.
        + apply in_or_app. right. now left.
        + apply Ha1. now apply str_in_iff. }
    apply str_in_false_iff in Sp. cbn [fst snd]. split; [|split].
    + intros x. split.
      * intros [<- | H]; apply in_or_app; [right; now left | left; now apply Ha1].
      * intros H. apply in_app_or in H as [H | [<- | []]];
          [right; now apply Ha1 | now left].
    + apply NoDup_app_new; [exact Hnd1 | repeat constructor; intros [] |].
      intros x [<- | []]. intros H. now apply Sp, Ha1.
    + intros x. rewrite term_of_snoc. split.
      * intros H. apply in_app_or in H as [H | [<- | []]].
        -- apply in_app_or in H as [H | [<- | []]].
           ++ left. now apply Hc.
           ++ right. auto.
        -- right. auto.
      * intros [H | [_ [-> | [_ ->]]]].
        -- apply in_or_app. left. apply in_or_app. left. now apply Hc.
        -- apply in_or_app. left. apply in_or_app. right. now left.
        -- apply in_or_app. right. now left.
Qed.

(** X12 (router_agent.build_bm25_query): the terms joined with OR are
    pairwise distinct; a term is a match that is not a glue word, or such
    a match that does not end in s with an s added, and each of these is a
    term. *)
Theorem build_bm25_query_terms (freeform : string) :
  NoDup (query_tokens freeform) /\
  (forall x,
     In x (query_tokens freeform) <->
     kept freeform x \/
     exists token,
       kept freeform token /\ ends_with_char "s" token = false /\
       x = token +:+ "s").
Proof.
  unfold query_tokens, kept.
  destruct (token_loop_invariant (TOKEN_RE_finditer (py_lower freeform)))
    as (_ & Hb & Hc).
  split; [exact Hb|]. intros x. rewrite Hc. split.
  - intros [H | (t & H1 & H2 & H3 & H4)]; [now left|]. right. exists t. auto.
  - intros [H | (t & [H1 H2] & H3 & H4)]; [now left|]. right. exists t. auto.
Qed.

(** X13 (router_agent.build_bm25_query): the fallback, which hands back the
    question unchanged and in its original case, is taken exactly when the
    question has no match that is not a glue word; in every other case the
    result is the terms joined with OR. *)
Theorem build_bm25_query_fallback (freeform : string) :
  (query_tokens freeform = [] <-> forall token, ~ kept freeform token) /\
  (query_tokens freeform = [] -> build_bm25_query freeform = freeform) /\
  (query_tokens freeform <> [] ->
   build_bm25_query freeform = py_join " OR " (query_tokens freeform)).
Proof.
  unfold query_tokens, kept, build_bm25_query.
  destruct (token_loop_invariant (TOKEN_RE_finditer (py_lower freeform)))
    as (_ & _ & Hc).
  unfold query_tokens.
  destruct (fst (fold_left token_step (TOKEN_RE_finditer (py_lower freeform)) ([], [])))
    as [|x rest]; split.
  - split; [|reflexivity]. intros _ t Ht. apply (Hc t). now left.
  - split; [reflexivity | now intros []].
  - split; [discriminate|]. intros H. exfalso.
    destruct (proj1 (Hc x) (or_introl eq_refl)) as [Hk | (t & H1 & H2 & _)].
    + now apply (H x).
    + now apply (H t).
  - split; [discriminate | reflexivity].
Qed.

Lemma replace_char_step (a b c : ascii) (s : string) :
  py_replace (String c s) (String a "") (String b "") =
  String (if Ascii.eqb a c then b else c) (py_replace s (String a "") (String b "")).
Proof.
  unfold py_replace. cbn. destruct (Ascii.eqb a c); reflexivity.
Qed.

Lemma replace_char_length (a b : ascii) (s : string) :
  String.length (py_replace s (String a "") (String b "")) = String.length s.
Proof.
  induction s as [|c s IH]; [reflexivity|].
  rewrite replace_char_step. cbn [String.length]. now rewrite IH.
Qed.

Lemma replace_char_removes (a b : ascii) (s : string) :
  a <> b ->
  all_chars (fun c => negb (Ascii.eqb c a)) (py_replace s (String a "") (String b "")) = true.
Proof.
  intros Hab. induction s as [|c s IH]; [reflexivity|].
  rewrite replace_char_step. cbn [all_chars]. rewrite IH, andb_true_r.
  destruct (Ascii.eqb a c) eqn:E; apply negb_true_iff, Ascii.eqb_neq.
  - now intros ->.
  - apply Ascii.eqb_neq in E. now intros ->.
Qed.

Lemma str_take_all (q : ascii -> bool) (n : nat) (s : string) :
  all_chars q s = true -> all_chars q (str_take n s) = true.
Proof.
  revert s. induction n as [|n IH]; intros [|c s]; cbn; auto.
  intros H. apply andb_prop in H as [Hc Hs]. now rewrite Hc, IH.
Qed.

(** X14 (router_agent.preview): for a bound that is not negative the preview
    has at most three characters more than the bound, and it never
    contains a line feed; a text that is not longer than the bound is
    shown whole, with its line feeds turned into spaces. *)
Theorem preview_bounded_one_line (text : option string) (max_len : Z) :
  0 <= max_len ->
  let p := preview text max_len in
  Z.of_nat (String.length p) <= max_len + 3 /\
  all_chars (fun c => negb (Ascii.eqb c (ascii_of_nat 10))) p = true /\
  (Z.of_nat (String.length (or_empty text)) <= max_len ->
   p = py_replace (or_empty text) LF " ").
Proof.
  intros Hm. unfold preview, LF, Answer.LF.
  pose proof (replace_char_length (ascii_of_nat 10) " " (or_empty text)) as Hlen.
  pose proof (replace_char_removes (ascii_of_nat 10) " " (or_empty text)) as Hno.
  set (t := py_replace (or_empty text) (String (ascii_of_nat 10) "") " ") in *.
  cbn zeta. destruct (Z.of_nat (String.length t) <=? max_len) eqn:E.
  - apply Z.leb_le in E. split; [lia|]. split; [|reflexivity].
    apply Hno. discriminate.
  - apply Z.leb_gt in E. unfold str_slice_to.
    rewrite (proj2 (Z.leb_le 0 max_len) Hm). split; [|split].
    + rewrite append_length, str_take_length. cbn [String.length]. lia.
    + rewrite all_chars_append. rewrite str_take_all; [reflexivity|].
      apply Hno. discriminate.
    + intros H. rewrite Hlen in E. lia.
Qed.

End RouterQueryFacts.

(* ====================================================================== *)
(** * [router_agent.detect_brand_tokens] *)
(* ====================================================================== *)

Section BrandTokenFacts.
Import RouterAgent.

Lemma dedup_from_in (l seen : list string) (x : string) :
  In x (dedup_from seen l) <-> In x l /\ ~ In x seen.
Proof.
  revert seen. induction l as [|t l IH]; intros seen; cbn -[In]; [cbn; tauto|].
  fold (str_in t seen). destruct (str_in t seen) eqn:S.
  - rewrite IH. apply str_in_iff in S. cbn. split.
    + intros [H1 H2]. auto.
    + intros [[<- | H1] H2]; [contradiction | auto].
  - apply str_in_false_iff in S. cbn [In]. rewrite IH. cbn [In]. split.
    + intros [<- | [H1 H2]]; [auto|]. split; [auto|]. intros H. apply H2. now right.
    + intros [[<- | H1] H2]; [now left|].
      destruct (string_dec t x) as [<- | Hne]; [now left|].
      right. split; [exact H1|]. intros [E | H]; [now apply Hne | now apply H2].
Qed.

Lemma dedup_from_nodup (l seen : list string) : NoDup (dedup_from seen l).
Proof.
  revert seen. induction l as [|t l IH]; intros seen; cbn; [constructor|].
  destruct (existsb (String.eqb t) seen); [apply IH|].
  constructor; [|apply IH].
  intros H. apply dedup_from_in in H as [_ H]. apply H. now left.
Qed.

Lemma emit_long (cur : string) :
  Forall (fun t => (3 <= String.length t)%nat) (emit cur).
Proof.
  unfold emit. destruct (3 <=? String.length cur)%nat eqn:E; constructor.
  - now apply Nat.leb_le.
  - constructor.
Qed.

Lemma brandy_from_long (s cur : string) :
  Forall (fun t => (3 <= String.length t)%nat) (brandy_from cur s).
Proof.
  revert cur. induction s as [|c s IH]; intros cur; cbn; [apply emit_long|].
  destruct cur as [|a cur].
  - destruct (is_letter c); apply IH.
  - destruct (is_brand_char c); [apply IH|].
    apply Forall_app. split; [apply emit_long | apply IH].
Qed.

Lemma quoted_from_nonempty (s : string) (cur : option string) :
  Forall (fun t => t <> "") (quoted_from cur s).
Proof.
  revert cur. induction s as [|c s IH]; intros cur; cbn [quoted_from];
    [constructor|].
  destruct (Ascii.eqb c (ascii_of_nat 34)).
  - destruct cur as [[|a t]|]; try apply IH.
    constructor; [discriminate | apply IH].
  - destruct cur; apply IH.
Qed.

(** X15 (router_agent.detect_brand_tokens): the tokens are pairwise distinct
    and none is empty; they are the quoted phrases together with the
    brand-like tokens of the question. *)
Theorem detect_brand_tokens_distinct (query : string) :
  NoDup (detect_brand_tokens query) /\
  Forall (fun t => t <> "") (detect_brand_tokens query) /\
  (forall x,
     In x (detect_brand_tokens query) <->
     In x (QUOTED_findall query) \/ In x (BRANDY_finditer query)).
Proof.
  unfold detect_brand_tokens. split; [apply dedup_from_nodup|]. split.
  - apply Forall_forall. intros x Hx. apply dedup_from_in in Hx as [Hx _].
    apply in_app_or in Hx as [Hx | Hx].
    + pose proof (quoted_from_nonempty query None) as H.
      rewrite Forall_forall in H. now apply H.
    + pose proof (brandy_from_long query "") as H.
      rewrite Forall_forall in H. specialize (H x Hx).
      intros ->. cbn in H. lia.
  - intros x. rewrite dedup_from_in, in_app_iff. cbn. tauto.
Qed.

End BrandTokenFacts.

(* ====================================================================== *)
(** * Hybrid retrieval: one hit per chunk, and the effect of the cutoff *)
(* ====================================================================== *)

Section RetrievalExtras.
Import Answer FusionSpec.

Variable file_mtime : string -> option datetime.
Variable similarity_search_with_score : string -> Z -> list (Document * Q).
Variable search : string -> Z -> list Row.
Variable chunks_fts : list (string * string).

#[local] Abbreviation retrieve :=
  (retrieve_hybrid file_mtime similarity_search_with_score search chunks_fts).
#[local] Abbreviation from :=
  (retrieve_from file_mtime chunks_fts).

Lemma retrieve_from_ids_perm (before : option datetime)
    (cp : list (Document * Q)) (br : list Row) :
  Permutation (map chunk_id (from before cp br))
    (first_seen [] (discovery_order file_mtime before cp br)).
Proof.
  unfold retrieve_from, rank_fused, discovery_order.
  rewrite <- chroma_meta_ids, <- (bm25_contributions_ids file_mtime chunks_fts before cp br).
  rewrite <- fuse_keys.
  - rewrite <- (well_keyed_values_keys _ (fuse_well_keyed _ _)).
    apply Permutation_map, py_sorted_desc_perm.
  - apply chroma_meta_nonempty.
  - apply bm25_contributions_nonempty.
Qed.

Lemma retrieve_from_ids_nodup (before : option datetime)
    (cp : list (Document * Q)) (br : list Row) :
  NoDup (map chunk_id (from before cp br)).
Proof.
  unfold retrieve_from, rank_fused.
  apply (Permutation_NoDup
           (l := map chunk_id (dict_values
                   (fuse (chroma_meta_list_of file_mtime before cp)
                         (bm25_contributions file_mtime chunks_fts before cp br))))).
  - apply Permutation_map, Permutation_sym, py_sorted_desc_perm.
  - rewrite (well_keyed_values_keys _ (fuse_well_keyed _ _)).
    apply fuse_well_keyed.
Qed.

Lemma retrieve_from_ids (before : option datetime)
    (cp : list (Document * Q)) (br : list Row) (k : string) :
  In k (map chunk_id (from before cp br)) <->
  In k (discovery_order file_mtime before cp br).
Proof.
  rewrite <- (first_seen_in (discovery_order file_mtime before cp br)).
  split; apply Permutation_in.
  - apply retrieve_from_ids_perm.
  - apply Permutation_sym, retrieve_from_ids_perm.
Qed.

Lemma filter_length_le {A : Type} (f : A -> bool) (l : list A) :
  (List.length (filter f l) <= List.length l)%nat.
Proof.
  induction l as [|a l IH]; cbn; [lia|]. destruct (f a); cbn; lia.
Qed.

(** X16 (answer.retrieve_hybrid): the result holds at most one hit per chunk
    id and none with an empty id; the ids returned are exactly the
    non-empty ids either engine returned from a file that passes the date
    filter; so there are never more hits than engine results. *)
Theorem retrieve_hybrid_one_hit_per_chunk (query : string)
    (before_dt : option datetime) (ck bk : Z) :
  let hits := retrieve query before_dt ck bk in
  let chroma_pairs := similarity_search_with_score query ck in
  let bm25_rows := search query bk in
  NoDup (map chunk_id hits) /\
  Forall (fun h => chunk_id h <> "") hits /\
  (forall k,
     In k (map chunk_id hits) <->
     In k (accepted_chroma_ids file_mtime before_dt chroma_pairs) \/
     In k (accepted_bm25_ids file_mtime before_dt bm25_rows)) /\
  (List.length hits <= List.length chroma_pairs + List.length bm25_rows)%nat.
Proof.
  cbn zeta. unfold retrieve_hybrid.
  set (cp := similarity_search_with_score query ck).
  set (br := search query bk).
  split; [apply retrieve_from_ids_nodup|]. split; [|split].
  - apply Forall_forall. intros h Hh. apply retrieve_from_in in Hh as [Hk _].
    intros E. rewrite E in Hk. discriminate.
  - intros k. rewrite retrieve_from_ids. unfold discovery_order. apply in_app_iff.
  - rewrite <- (length_map chunk_id).
    rewrite (Permutation_length (retrieve_from_ids_perm before_dt cp br)).
    transitivity (List.length (discovery_order file_mtime before_dt cp br)).
    + apply NoDup_incl_length.
      * apply (Permutation_NoDup (retrieve_from_ids_perm before_dt cp br)).
        apply retrieve_from_ids_nodup.
      * intros k Hk. now apply first_seen_in.
    + unfold discovery_order, accepted_chroma_ids, accepted_bm25_ids.
      rewrite length_app, !length_map.
      pose proof (filter_length_le
        (fun dd : Document * Q =>
           negb (py_not_str (doc_chunk_id (fst dd))) &&
           passes_before_filter file_mtime (meta_source (fst dd)) before_dt) cp).
      pose proof (filter_length_le
        (fun row : Row =>
           negb (py_not_str (row_chunk_id row)) &&
           passes_before_filter file_mtime (row_source row) before_dt) br).
      lia.
Qed.

Lemma rrf_sum_filter_mono {X : Type} (f1 f2 : Z * X -> bool) (l : list (Z * X)) :
  (forall ix, In ix l -> 1 <= fst ix) ->
  (forall ix, f1 ix = true -> f2 ix = true) ->
  (rrf_sum (map fst (filter f1 l)) <= rrf_sum (map fst (filter f2 l)))%Q.
Proof.
  intros Hge Himp. induction l as [|a l IH]; cbn [filter map rrf_sum fold_right].
  - apply Qle_refl.
  - assert (IH' : (rrf_sum (map fst (filter f1 l)) <= rrf_sum (map fst (filter f2 l)))%Q)
      by (apply IH; intros ix Hix; apply Hge; now right).
    assert (Hpos : (0 < rrf_increment (fst a))%Q)
      by (apply rrf_increment_pos, Hge; now left).
    unfold rrf_sum in *.
    destruct (f1 a) eqn:E1.
    + rewrite (Himp a E1). cbn [map fold_right]. lra.
    + destruct (f2 a); cbn [map fold_right]; lra.
Qed.

Lemma enumerate_all_ge {X : Type} (l : list X) (ix : Z * X) :
  In ix (enumerate 1 l) -> 1 <= fst ix.
Proof. destruct ix as [i x]. apply enumerate_ge. Qed.

Lemma filter_in_mono {A : Type} (f1 f2 : A -> bool) (l : list A) (x : A) :
  (forall a, f1 a = true -> f2 a = true) ->
  In x (filter f1 l) -> In x (filter f2 l).
Proof.
  intros Himp H. apply filter_In in H as [H1 H2]. apply filter_In. auto.
Qed.

(** A looser filter keeps every hit, with a score at least as high. *)
Lemma retrieve_from_filter_mono (b1 b2 : option datetime)
    (cp : list (Document * Q)) (br : list Row) (h : Hit) :
  (forall src, passes_before_filter file_mtime src b1 = true ->
               passes_before_filter file_mtime src b2 = true) ->
  In h (from b1 cp br) ->
  exists h2, In h2 (from b2 cp br) /\ chunk_id h2 = chunk_id h /\
             (rrf_score h <= rrf_score h2)%Q.
Proof.
  intros Hp Hin.
  assert (Hid : In (chunk_id h) (map chunk_id (from b2 cp br))).
  { apply retrieve_from_ids. apply (in_map chunk_id) in Hin.
    apply retrieve_from_ids in Hin. unfold discovery_order in *.
    apply in_app_or in Hin. apply in_or_app.
    unfold accepted_chroma_ids, accepted_bm25_ids in *.
    destruct Hin as [Hin | Hin]; [left | right];
      apply in_map_iff in Hin as (x & Hx & Hin); apply in_map_iff; exists x;
      (split; [exact Hx|]); revert Hin; apply filter_in_mono; intros a Ha;
      apply andb_prop in Ha as [Ha1 Ha2]; rewrite Ha1; cbn; now apply Hp. }
  apply in_map_iff in Hid as (h2 & Hk & Hin2). exists h2.
  split; [exact Hin2|]. split; [exact Hk|].
  apply retrieve_from_entry in Hin as (_ & Hs1 & _).
  apply retrieve_from_entry in Hin2 as (_ & Hs2 & _).
  rewrite Hs1, Hs2, Hk. unfold chroma_positions, bm25_positions.
  apply Qplus_le_compat; apply rrf_sum_filter_mono;
    try (intros ix Hix; now apply enumerate_all_ge in Hix);
    intros ix Hix; apply andb_prop in Hix as [Hx1 Hx2]; rewrite Hx1; cbn;
    now apply Hp.
Qed.

(** X17 (answer.retrieve_hybrid, answer.passes_before_filter): for the same
    question and depths, an earlier cutoff never adds a chunk and never
    raises a score: every hit returned with the cutoff [d1] is returned,
    with a score at least as high, with any later cutoff [d2], and also
    without a cutoff. *)
Theorem earlier_cutoff_never_adds_hits (query : string) (d1 d2 : datetime)
    (ck bk : Z) (h : Hit) :
  d1 <= d2 ->
  In h (retrieve query (Some d1) ck bk) ->
  (exists h2, In h2 (retrieve query (Some d2) ck bk) /\
              chunk_id h2 = chunk_id h /\ (rrf_score h <= rrf_score h2)%Q) /\
  (exists h0, In h0 (retrieve query None ck bk) /\
              chunk_id h0 = chunk_id h /\ (rrf_score h <= rrf_score h0)%Q).
Proof.
  intros Hd Hin. unfold retrieve_hybrid in *. split.
  - apply (retrieve_from_filter_mono (Some d1)); [|exact Hin].
    intros src. unfold passes_before_filter.
    destruct (file_mtime src) as [m|]; [|discriminate].
    rewrite !Z.ltb_lt. lia.
  - apply (retrieve_from_filter_mono (Some d1)); [|exact Hin].
    reflexivity.
Qed.

End RetrievalExtras.

Lemma earlier_cutoff_never_adds_hits_witness :
  200 <= 400 /\
  In Example.hit_rome Example.hits_before_200 /\
  exists h2,
    In h2 (Answer.retrieve_hybrid Example.file_mtime
             Example.similarity_search_with_score Example.search
             Example.chunks_fts "who captured Rome" (Some 400) 8 20) /\
    Answer.chunk_id h2 = "rome.pdf:46:0".
Proof.
  assert (Hd : 200 <= 400) by lia.
  assert (Hin : In Example.hit_rome Example.hits_before_200)
    by (vm_compute; tauto).
  split; [exact Hd|]. split; [exact Hin|].
  destruct (proj1 (earlier_cutoff_never_adds_hits Example.file_mtime
                     Example.similarity_search_with_score Example.search
                     Example.chunks_fts "who captured Rome" 200 400 8 20
                     Example.hit_rome Hd Hin)) as (h2 & H1 & H2 & _).
  exists h2. split; [exact H1 | exact H2].
Defined.

(* ====================================================================== *)
(** * Grouping by a key *)
(* ====================================================================== *)

Section GroupFacts.
Context {V : Type}.
Variable key : V -> string.

#[local] Abbreviation step := (fun d v => setdefault_append (key v) v d).
#[local] Abbreviation of_key k := (fun v => String.eqb (key v) k).

Lemma setdefault_append_get (k : string) (v : V) (d : dict (list V)) :
  dict_get k (setdefault_append (key v) v d) =
  if String.eqb k (key v)
  then Some (match dict_get k d with Some g => g ++ [v] | None => [v] end)
  else dict_get k d.
Proof.
  unfold setdefault_append.
  destruct (String.eqb_spec k (key v)) as [-> | Hne].
  - destruct (dict_get (key v) d); rewrite dict_get_set, String.eqb_refl; reflexivity.
  - apply String.eqb_neq in Hne.
    destruct (dict_get (key v) d); rewrite dict_get_set, Hne; reflexivity.
Qed.

Lemma setdefault_append_keys (v : V) (d : dict (list V)) :
  dict_keys (setdefault_append (key v) v d) =
  if dict_mem (key v) d then dict_keys d else dict_keys d ++ [key v].
Proof.
  unfold setdefault_append.
  destruct (dict_get (key v) d) eqn:E; rewrite dict_keys_set; reflexivity.
Qed.

Lemma group_fold_get (l : list V) (d : dict (list V)) (k : string) :
  dict_get k (fold_left step l d) =
  match dict_get k d, filter (of_key k) l with
  | None, [] => None
  | None, g => Some g
  | Some g0, g => Some (g0 ++ g)
  end.
Proof.
  revert d. induction l as [|v l IH]; intros d; cbn [fold_left filter].
  - destruct (dict_get k d); [now rewrite app_nil_r | reflexivity].
  - rewrite IH, setdefault_append_get, (String.eqb_sym (key v) k).
    destruct (String.eqb k (key v)).
    + destruct (dict_get k d); [now rewrite <- app_assoc | reflexivity].
    + reflexivity.
Qed.

Lemma group_by_get (l : list V) (k : string) :
  dict_get k (group_by key l) =
  match filter (of_key k) l with
  | [] => None
  | g => Some g
  end.
Proof. unfold group_by. now rewrite group_fold_get. Qed.

Lemma group_fold_nodup (l : list V) (d : dict (list V)) :
  NoDup (dict_keys d) -> NoDup (dict_keys (fold_left step l d)).
Proof.
  revert d. induction l as [|v l IH]; intros d Hd; cbn [fold_left]; [exact Hd|].
  apply IH. rewrite setdefault_append_keys.
  destruct (dict_mem (key v) d) eqn:E; [exact Hd|].
  apply NoDup_app_new; [exact Hd | repeat constructor; intros [] |].
  intros x [<- | []] Hin. rewrite dict_mem_in_keys in E.
  apply (str_in_iff (key v)) in Hin. unfold str_in in Hin. congruence.
Qed.

Lemma group_by_nodup (l : list V) : NoDup (dict_keys (group_by key l)).
Proof. apply group_fold_nodup. constructor. Qed.

(** An entry of the grouping holds the elements with its key, in their
    order, and there is at least one. *)
Lemma group_by_entry (l : list V) (k : string) (g : list V) :
  In (k, g) (group_by key l) -> g = filter (of_key k) l /\ g <> [].
Proof.
  intros Hin. apply dict_in_get in Hin; [|apply group_by_nodup].
  rewrite group_by_get in Hin.
  destruct (filter (of_key k) l) eqn:E; [discriminate|].
  inversion Hin; subst. split; [reflexivity | discriminate].
Qed.

Lemma group_by_keys (l : list V) (k : string) :
  In k (dict_keys (group_by key l)) <-> In k (map key l).
Proof.
  rewrite <- str_in_iff. unfold str_in. rewrite <- dict_mem_in_keys.
  unfold dict_mem. rewrite group_by_get.
  split.
  - destruct (filter (of_key k) l) as [|v g] eqn:E; [discriminate|].
    intros _. assert (H : In v (filter (of_key k) l)) by (rewrite E; now left).
    apply filter_In in H as [H1 H2]. apply String.eqb_eq in H2. subst k.
    now apply in_map.
  - intros H. apply in_map_iff in H as (v & <- & Hv).
    assert (H : In v (filter (of_key (key v)) l))
      by (apply filter_In; split; [exact Hv | apply String.eqb_refl]).
    destruct (filter (of_key (key v)) l); [destruct H | reflexivity].
Qed.

End GroupFacts.

(* ====================================================================== *)
(** * Sorting on a key with its own order, [max], and lists of results *)
(* ====================================================================== *)

Section SortedByFacts.
Context {A K : Type}.
Variable key : A -> K.
Variable le : K -> K -> bool.
Hypothesis le_total : forall a b, le a b = false -> le b a = true.
Hypothesis le_trans : forall a b c, le a b = true -> le b c = true -> le a c = true.

#[local] Abbreviation ge_key := (fun a b => le (key b) (key a) = true).

Lemma insert_desc_by_perm (x : A) (l : list A) :
  Permutation (insert_desc_by key le x l) (x :: l).
Proof.
  induction l as [|y rest IH]; cbn; [reflexivity|].
  destruct (le (key y) (key x)); [reflexivity|].
  rewrite IH. apply perm_swap.
Qed.

Lemma py_sorted_desc_by_perm (l : list A) :
  Permutation (py_sorted_desc_by key le l) l.
Proof.
  induction l as [|x rest IH]; cbn; [reflexivity|].
  rewrite insert_desc_by_perm. now constructor.
Qed.

Lemma insert_desc_by_sorted (x : A) (l : list A) :
  StronglySorted ge_key l -> StronglySorted ge_key (insert_desc_by key le x l).
Proof.
  induction l as [|y rest IH]; intros Hs; cbn.
  - repeat constructor.
  - inversion Hs as [|? ? Hrest Hall]; subst.
    destruct (le (key y) (key x)) eqn:E.
    + constructor; [assumption|]. constructor; [exact E|].
      eapply Forall_impl; [|exact Hall]. intros b Hb. cbn in *.
      now apply le_trans with (key y).
    + constructor; [now apply IH|].
      apply Forall_forall. intros b Hb.
      apply (Permutation_in _ (insert_desc_by_perm x rest)) in Hb.
      destruct Hb as [<- | Hb].
      * now apply le_total.
      * rewrite Forall_forall in Hall. now apply Hall.
Qed.

Lemma py_sorted_desc_by_sorted (l : list A) :
  StronglySorted ge_key (py_sorted_desc_by key le l).
Proof.
  induction l as [|x rest IH]; cbn; [constructor | now apply insert_desc_by_sorted].
Qed.

(** Stability: the elements whose key equals [q] keep their order. *)
Lemma insert_desc_by_filter (q : K) (x : A) (l : list A) :
  filter (fun a => le (key a) q && le q (key a)) (insert_desc_by key le x l)
  = filter (fun a => le (key a) q && le q (key a)) (x :: l).
Proof.
  induction l as [|y rest IH]; [reflexivity|].
  cbn [insert_desc_by].
  destruct (le (key y) (key x)) eqn:E; [reflexivity|].
  cbn [filter] in *. rewrite IH.
  destruct (le (key x) q && le q (key x)) eqn:Ex; [|reflexivity].
  destruct (le (key y) q && le q (key y)) eqn:Ey; [|reflexivity].
  exfalso. apply andb_prop in Ex as [_ Ex]. apply andb_prop in Ey as [Ey _].
  rewrite (le_trans _ _ _ Ey Ex) in E. discriminate.
Qed.

Lemma py_sorted_desc_by_stable (q : K) (l : list A) :
  filter (fun a => le (key a) q && le q (key a)) (py_sorted_desc_by key le l)
  = filter (fun a => le (key a) q && le q (key a)) l.
Proof.
  induction l as [|x rest IH]; [reflexivity|].
  cbn [py_sorted_desc_by fold_right]. rewrite insert_desc_by_filter.
  cbn [filter]. fold (py_sorted_desc_by key le rest). now rewrite IH.
Qed.

End SortedByFacts.

Lemma Qle_bool_total (a b : Q) : Qle_bool a b = false -> Qle_bool b a = true.
Proof.
  intros H. apply Qle_bool_iff, Qlt_le_weak, Qnot_le_lt.
  intros Hle. apply Qle_bool_iff in Hle. congruence.
Qed.

Lemma Qle_bool_trans (a b c : Q) :
  Qle_bool a b = true -> Qle_bool b c = true -> Qle_bool a c = true.
Proof.
  rewrite !Qle_bool_iff. apply Qle_trans.
Qed.

Lemma tuple_le_total (a b : bool * Q) : tuple_le a b = false -> tuple_le b a = true.
Proof.
  destruct a as [[] x], b as [[] y]; unfold tuple_le; cbn [fst snd];
    try discriminate; try reflexivity; apply Qle_bool_total.
Qed.

Lemma tuple_le_trans (a b c : bool * Q) :
  tuple_le a b = true -> tuple_le b c = true -> tuple_le a c = true.
Proof.
  destruct a as [[] x], b as [[] y], c as [[] z]; unfold tuple_le; cbn [fst snd];
    try discriminate; try reflexivity; apply Qle_bool_trans.
Qed.

Lemma StronglySorted_weaken {A : Type} (R R' : A -> A -> Prop) (l : list A) :
  (forall a b, In a l -> In b l -> R a b -> R' a b) ->
  StronglySorted R l -> StronglySorted R' l.
Proof.
  intros Himp Hs. induction Hs as [|x l Hs IH Hall]; constructor.
  - apply IH. intros a b Ha Hb. apply Himp; now right.
  - rewrite Forall_forall in *. intros b Hb.
    apply Himp; [now left | now right | now apply Hall].
Qed.

Lemma max_from_spec {A : Type} (key : A -> Q) (l : list A) (best : A) :
  In (max_from key best l) (best :: l) /\
  (key best <= key (max_from key best l))%Q /\
  Forall (fun x => (key x <= key (max_from key best l))%Q) l.
Proof.
  revert best. induction l as [|x l IH]; intros best; cbn [max_from].
  - split; [now left|]. split; [apply Qle_refl | constructor].
  - destruct (Qle_bool (key x) (key best)) eqn:E.
    + destruct (IH best) as (Hin & Hb & Hall). split; [|split].
      * destruct Hin as [<- | Hin]; [now left | right; now right].
      * exact Hb.
      * constructor; [|exact Hall]. apply Qle_bool_iff in E.
        now apply Qle_trans with (key best).
    + destruct (IH x) as (Hin & Hb & Hall). split; [|split].
      * right. exact Hin.
      * apply Qle_bool_total, Qle_bool_iff in E.
        now apply Qle_trans with (key x).
      * constructor; [exact Hb | exact Hall].
Qed.

Lemma py_max_spec {A : Type} (key : A -> Q) (l : list A) (m : A) :
  py_max key l = Some m ->
  In m l /\ Forall (fun x => (key x <= key m)%Q) l.
Proof.
  destruct l as [|x l]; [discriminate|]. cbn. intros [= <-].
  destruct (max_from_spec key l x) as (Hin & Hb & Hall). split; [exact Hin|].
  constructor; assumption.
Qed.

Lemma all_some_spec {A B : Type} (f : A -> option B) (l : list A) :
  (forall x, In x l -> exists y, f x = Some y) ->
  exists out, all_some (map f l) = Some out /\
              Forall2 (fun x y => f x = Some y) l out.
Proof.
  induction l as [|x l IH]; intros H; cbn.
  - exists []. split; [reflexivity | constructor].
  - destruct (H x (or_introl eq_refl)) as (y & Hy).
    destruct IH as (out & E & F); [intros z Hz; apply H; now right|].
    rewrite Hy, E. exists (y :: out). split; [reflexivity|]. now constructor.
Qed.

Lemma Forall2_in_right {A B : Type} (R : A -> B -> Prop) (l : list A) (out : list B)
    (y : B) :
  Forall2 R l out -> In y out -> exists x, In x l /\ R x y.
Proof.
  induction 1 as [|a b l out Hab _ IH]; intros Hin; [destruct Hin|].
  destruct Hin as [<- | Hin].
  - exists a. split; [now left | exact Hab].
  - destruct (IH Hin) as (x & Hx & Hr). exists x. split; [now right | exact Hr].
Qed.

Lemma Forall2_map_eq {A B C : Type} (R : A -> B -> Prop) (f : A -> C) (g : B -> C)
    (l : list A) (out : list B) :
  (forall x y, R x y -> f x = g y) ->
  Forall2 R l out -> map f l = map g out.
Proof.
  intros H. induction 1 as [|a b l out Hab _ IH]; cbn; [reflexivity|].
  now rewrite (H a b Hab), IH.
Qed.

(* ====================================================================== *)
(** * [server.files_from_bm25] and [server.files_from_hybrid] *)
(* ====================================================================== *)

Section ServerFilesFacts.
Import Answer ServerFiles.

#[local] Abbreviation bm25_key := (fun f => (has_bm25 f, inject_Z (- top_page f))).
#[local] Abbreviation hybrid_key := (fun f => (has_bm25 f, rrf f)).

Lemma file_of_rows_groups (rows : list Row) :
  exists out,
    all_some (map file_of_rows (group_by row_source rows)) = Some out /\
    Forall2 (fun item f => file_of_rows item = Some f) (group_by row_source rows) out.
Proof.
  apply all_some_spec. intros [src g] Hin.
  apply group_by_entry in Hin as [_ Hne].
  destruct g as [|first rest]; [now destruct Hne|]. cbn. eauto.
Qed.

Lemma file_of_rows_path (item : string * list Row) (f : FileHit) :
  file_of_rows item = Some f -> fst item = fh_path f.
Proof.
  destruct item as [src [|first rest]]; cbn; [discriminate|]. now intros [= <-].
Qed.

(** X18 (server.files_from_bm25): the function never fails; it returns one
    entry per distinct source of the rows, and the entry of a file shows
    the page and the first 160 characters of the snippet of the first row
    of that file, in the order the engine returned the rows. *)
Theorem files_from_bm25_one_per_source (rows : list Row) :
  exists files,
    files_from_bm25 rows = Some files /\
    NoDup (map fh_path files) /\
    (forall p, In p (map fh_path files) <-> In p (map row_source rows)) /\
    (forall f, In f files ->
       exists first rest,
         rows_of (fh_path f) rows = first :: rest /\
         top_page f = row_page first /\
         fh_preview f = str_take 160 (row_snippet first) /\
         rrf f = 0%Q /\ has_bm25 f = true).
Proof.
  destruct (file_of_rows_groups rows) as (out & E & F).
  unfold files_from_bm25. rewrite E. cbn [option_map].
  eexists. split; [reflexivity|].
  pose proof (py_sorted_desc_by_perm bm25_key tuple_le out) as Hp.
  assert (Hpaths : map fh_path out = dict_keys (group_by row_source rows)).
  { symmetry. unfold dict_keys.
    apply (Forall2_map_eq _ fst fh_path _ _ file_of_rows_path F). }
  split; [|split].
  - apply (Permutation_NoDup (Permutation_map fh_path (Permutation_sym Hp))).
    rewrite Hpaths. apply group_by_nodup.
  - intros p. rewrite <- (group_by_keys row_source rows), <- Hpaths.
    split; apply Permutation_in.
    + apply Permutation_map, Hp.
    + apply Permutation_map, Permutation_sym, Hp.
  - intros f Hf. apply (Permutation_in _ Hp) in Hf.
    destruct (Forall2_in_right _ _ _ _ F Hf) as ([src g] & Hin & Hfile).
    apply group_by_entry in Hin as [Hg _].
    destruct g as [|first rest]; [discriminate|]. cbn in Hfile.
    injection Hfile as <-. cbn [fh_path top_page fh_preview rrf has_bm25].
    exists first, rest. unfold rows_of. rewrite <- Hg. auto.
Qed.

(** X19 (server.files_from_bm25): the entries are in ascending order of the
    page shown. *)
Theorem files_from_bm25_ascending_pages (rows : list Row) :
  match files_from_bm25 rows with
  | Some files => StronglySorted (fun a b => top_page a <= top_page b) files
  | None => False
  end.
Proof.
  destruct (file_of_rows_groups rows) as (out & E & F).
  unfold files_from_bm25. rewrite E. cbn [option_map].
  pose proof (py_sorted_desc_by_perm bm25_key tuple_le out) as Hp.
  apply (StronglySorted_weaken
           (fun a b => tuple_le (bm25_key b) (bm25_key a) = true)).
  - intros a b Ha Hb.
    assert (Hall : forall f, In f out -> has_bm25 f = true).
    { intros f Hf. destruct (Forall2_in_right _ _ _ _ F Hf) as ([src g] & _ & Hfile).
      destruct g as [|first rest]; [discriminate|]. cbn in Hfile.
      now injection Hfile as <-. }
    apply (Permutation_in _ Hp), Hall in Ha, Hb.
    unfold tuple_le. cbn [fst snd]. rewrite Ha, Hb.
    rewrite Qle_bool_iff, <- Zle_Qle. lia.
  - apply py_sorted_desc_by_sorted; [apply tuple_le_total | apply tuple_le_trans].
Qed.

Lemma file_of_hits_groups (hits : list Hit) :
  exists out,
    all_some (map file_of_hits (group_by source hits)) = Some out /\
    Forall2 (fun item f => file_of_hits item = Some f) (group_by source hits) out.
Proof.
  apply all_some_spec. intros [src g] Hin.
  apply group_by_entry in Hin as [_ Hne].
  destruct g as [|h rest]; [now destruct Hne|]. cbn. eauto.
Qed.

Lemma file_of_hits_path (item : string * list Hit) (f : FileHit) :
  file_of_hits item = Some f -> fst item = fh_path f.
Proof.
  destruct item as [src g]. unfold file_of_hits.
  destruct (py_max rrf_score g); [|discriminate]. now intros [= <-].
Qed.

(** X20 (server.files_from_hybrid): the function never fails; it returns one
    entry per distinct source of the hits; the entry of a file carries the
    highest score among the hits of that file, with the page and the
    one-line preview of a hit that has this score, and its keyword flag is
    set exactly when some hit of the file has a keyword rank. *)
Theorem files_from_hybrid_best_per_source (hits : list Hit) :
  exists files,
    files_from_hybrid hits = Some files /\
    NoDup (map fh_path files) /\
    (forall p, In p (map fh_path files) <-> In p (map source hits)) /\
    (forall f, In f files ->
       has_bm25 f = existsb has_rank (hits_of (fh_path f) hits) /\
       (forall h, In h (hits_of (fh_path f) hits) -> (rrf_score h <= rrf f)%Q) /\
       exists best,
         In best (hits_of (fh_path f) hits) /\
         rrf f = rrf_score best /\
         top_page f = page best /\
         fh_preview f = str_take 160 (py_replace (text best) LF " ")).
Proof.
  destruct (file_of_hits_groups hits) as (out & E & F).
  unfold files_from_hybrid. rewrite E. cbn [option_map].
  eexists. split; [reflexivity|].
  pose proof (py_sorted_desc_by_perm hybrid_key tuple_le out) as Hp.
  assert (Hpaths : map fh_path out = dict_keys (group_by source hits)).
  { symmetry. unfold dict_keys.
    apply (Forall2_map_eq _ fst fh_path _ _ file_of_hits_path F). }
  split; [|split].
  - apply (Permutation_NoDup (Permutation_map fh_path (Permutation_sym Hp))).
    rewrite Hpaths. apply group_by_nodup.
  - intros p. rewrite <- (group_by_keys source hits), <- Hpaths.
    split; apply Permutation_in.
    + apply Permutation_map, Hp.
    + apply Permutation_map, Permutation_sym, Hp.
  - intros f Hf. apply (Permutation_in _ Hp) in Hf.
    destruct (Forall2_in_right _ _ _ _ F Hf) as ([src g] & Hin & Hfile).
    apply group_by_entry in Hin as [Hg _]. unfold file_of_hits in Hfile.
    destruct (py_max rrf_score g) as [best|] eqn:M; [|discriminate].
    injection Hfile as <-. cbn [fh_path top_page fh_preview rrf has_bm25].
    apply py_max_spec in M as [Hbest Hall]. unfold hits_of. rewrite <- Hg.
    split; [reflexivity|]. split.
    + rewrite Forall_forall in Hall. exact Hall.
    + exists best. auto.
Qed.

(** X21 (server.files_from_hybrid): in the list returned, a file with a
    keyword hit is never behind a file without one, and among files that
    agree on that the scores are in descending order. *)
Theorem files_from_hybrid_keyword_files_first (hits : list Hit) :
  match files_from_hybrid hits with
  | Some files => StronglySorted file_before files
  | None => False
  end.
Proof.
  destruct (file_of_hits_groups hits) as (out & E & F).
  unfold files_from_hybrid. rewrite E. cbn [option_map].
  apply (StronglySorted_weaken
           (fun a b => tuple_le (hybrid_key b) (hybrid_key a) = true)).
  - intros a b _ _. unfold tuple_le, file_before. cbn [fst snd].
    destruct (has_bm25 a), (has_bm25 b); try discriminate;
      rewrite ?Qle_bool_iff; intros H; split; auto; discriminate.
  - apply py_sorted_desc_by_sorted; [apply tuple_le_total | apply tuple_le_trans].
Qed.

End ServerFilesFacts.

(* ====================================================================== *)
(** * Instances *)
(* ====================================================================== *)

Lemma add_chunks_keeps_store_consistent_witness :
  Bm25Db.consistent Bm25Db.empty_db /\
  Bm25Db.consistent
    (fst (Bm25Db.add_chunks Bm25Db.empty_db
            (IndexBm25.assign_chunk_ids [doc_a; doc_b; doc_a']))).
Proof.
  assert (H : Bm25Db.consistent Bm25Db.empty_db)
    by (split; [constructor | reflexivity]).
  split; [exact H|].
  exact (proj1 (add_chunks_keeps_store_consistent Bm25Db.empty_db
                  (IndexBm25.assign_chunk_ids [doc_a; doc_b; doc_a']) H)).
Defined.

Lemma add_chunks_first_chunk_wins_witness :
  Bm25Db.consistent Bm25Db.empty_db /\
  Bm25Db.usable_id (set_id doc_a "a.pdf:1:0") = Some "a.pdf:1:0" /\
  In (Bm25Db.fts_row_of "a.pdf:1:0" (set_id doc_a "a.pdf:1:0"))
     (Bm25Db.chunks_fts
        (fst (Bm25Db.add_chunks Bm25Db.empty_db
                ([] ++ set_id doc_a "a.pdf:1:0"
                   :: [set_id doc_b "b.txt:0:0"; set_id doc_a' "a.pdf:1:0"])))).
Proof.
  assert (H : Bm25Db.consistent Bm25Db.empty_db)
    by (split; [constructor | reflexivity]).
  assert (Hu : Bm25Db.usable_id (set_id doc_a "a.pdf:1:0") = Some "a.pdf:1:0")
    by reflexivity.
  split; [exact H|]. split; [exact Hu|].
  refine (proj1 (add_chunks_first_chunk_wins Bm25Db.empty_db []
                   [set_id doc_b "b.txt:0:0"; set_id doc_a' "a.pdf:1:0"]
                   (set_id doc_a "a.pdf:1:0") "a.pdf:1:0" H Hu _ _)).
  - intros [].
  - intros d [].
Defined.

Lemma preview_bounded_one_line_witness :
  0 <= 4 /\
  RouterAgentQuery.preview (Some ("ab" +:+ LF +:+ "cdef")) 4 = "ab c..." /\
  Z.of_nat (String.length (RouterAgentQuery.preview (Some ("ab" +:+ LF +:+ "cdef")) 4))
  <= 4 + 3.
Proof.
  assert (H : 0 <= 4) by lia.
  split; [exact H|]. split; [reflexivity|].
  exact (proj1 (preview_bounded_one_line (Some ("ab" +:+ LF +:+ "cdef")) 4 H)).
Defined.

(* ====================================================================== *)
(** * The agent protocol ([llm_agent.py]): observations and patterns *)
(* ====================================================================== *)

(** The observation appended after a tool call that succeeded starts with
    "Observation:" and is at most 4026 characters long: 12 for the label,
    4000 of the JSON text and 14 for the truncation mark. *)
Lemma observation_bounded (json_dumps : LlmAgent.ToolResult -> string)
    (result : LlmAgent.ToolResult) :
  starts_with "Observation:" (LlmAgent.observation json_dumps result) = true /\
  (String.length (LlmAgent.observation json_dumps result) <= 4026)%nat /\
  ((String.length (json_dumps result) <= 4000)%nat ->
   LlmAgent.observation json_dumps result = "Observation:" +:+ json_dumps result).
Proof.
  unfold LlmAgent.observation. split; [reflexivity|].
  rewrite append_length. cbn [String.length].
  destruct (4000 <? String.length (json_dumps result))%nat eqn:E.
  - apply Nat.ltb_lt in E. split.
    + rewrite append_length, str_take_length. cbn [String.length]. lia.
    + lia.
  - apply Nat.ltb_ge in E. split; [lia | reflexivity].
Qed.

Section ProtocolFacts.
Import AsciiProtocol.

Lemma py_rstrip_suffix (a b : string) :
  py_rstrip (a +:+ b) = a +:+ b -> py_rstrip b = b.
Proof.
  induction a as [|c a IH]; cbn [String.append]; [auto|].
  rewrite py_rstrip_cons. intros H.
  destruct (py_rstrip (a +:+ b)) as [|x t] eqn:E.
  - destruct (is_space c); [discriminate|].
    injection H as H. symmetry in H.
    destruct a; [cbn in H; now subst | discriminate].
  - injection H as H. apply IH. exact H.
Qed.

Lemma ci_prefix_suffix (pat s rest : string) :
  ci_prefix pat s = Some rest -> exists p, s = p +:+ rest.
Proof.
  revert s. induction pat as [|x pat IH]; intros s H; cbn in H.
  - injection H as <-. now exists "".
  - destruct s as [|c s]; [discriminate|].
    destruct (Ascii.eqb x (to_lower c)); [|discriminate].
    destruct (IH s H) as (p & ->). now exists (String c p).
Qed.

Lemma py_lstrip_suffix (s : string) : exists p, s = p +:+ py_lstrip s.
Proof.
  induction s as [|c s (p & IH)]; [now exists ""|]. cbn.
  destruct (is_space c).
  - exists (String c p). cbn. now rewrite <- IH.
  - now exists "".
Qed.

Lemma py_lstrip_empty_iff (s : string) :
  py_lstrip s = "" <-> all_chars is_space s = true.
Proof.
  induction s as [|c s IH]; cbn; [tauto|].
  destruct (is_space c); cbn; [exact IH|]. split; discriminate.
Qed.

Lemma final_group_stripped (rest text : string) :
  py_rstrip rest = rest ->
  final_group rest = Some text ->
  text <> "" /\ py_strip text = text.
Proof.
  intros Hr. unfold final_group.
  destruct rest as [|c r]; [discriminate|].
  destruct (py_lstrip (String c r)) as [|a t] eqn:E.
  - apply py_lstrip_empty_iff, py_rstrip_empty_iff in E. congruence.
  - intros [= <-]. split; [discriminate|].
    destruct (py_lstrip_suffix (String c r)) as (p & Hp). rewrite E in Hp.
    rewrite Hp in Hr. apply py_rstrip_suffix in Hr.
    unfold py_strip. rewrite (py_lstrip_fixed (String a t)); [exact Hr|].
    rewrite <- E. apply py_lstrip_head.
Qed.

Lemma FINAL_RE_search_stripped (s text : string) :
  py_rstrip s = s ->
  FINAL_RE_search s = Some text ->
  text <> "" /\ py_strip text = text.
Proof.
  induction s as [|c s IH]; intros Hr.
  - cbn. discriminate.
  - cbn [FINAL_RE_search].
    destruct (ci_prefix "finalanswer:" (String c s)) as [rest|] eqn:P.
    + destruct (final_group rest) as [t|] eqn:G.
      * intros [= <-]. destruct (ci_prefix_suffix _ _ _ P) as (p & Hp).
        rewrite Hp in Hr. apply py_rstrip_suffix in Hr.
        now apply (final_group_stripped rest).
      * apply IH. now apply (py_rstrip_suffix (String c "") s).
    + apply IH. now apply (py_rstrip_suffix (String c "") s).
Qed.

Lemma py_rstrip_idempotent (s : string) : py_rstrip (py_rstrip s) = py_rstrip s.
Proof.
  induction s as [|c s IH]; [reflexivity|].
  rewrite py_rstrip_cons. destruct (py_rstrip s) as [|a t] eqn:E.
  - destruct (is_space c) eqn:Ec; [reflexivity|].
    rewrite py_rstrip_cons. cbn. now rewrite Ec.
  - rewrite py_rstrip_cons, IH. reflexivity.
Qed.

(** X22 (llm_agent.run_agent, FINAL_RE): the model's reply is stripped before
    the pattern is applied, so the final text of a reply that is taken as
    a final answer is never empty and has no white space at either end; a
    reply that is nothing but the label "FinalAnswer:" is not taken as a
    final answer. *)
Theorem final_answer_text_never_empty :
  (forall reply,
     match FINAL_RE_search (py_strip reply) with
     | Some text => text <> "" /\ py_strip text = text
     | None => True
     end) /\
  FINAL_RE_search (py_strip ("FinalAnswer: " +:+ LF)) = None.
Proof.
  split; [|reflexivity]. intros reply.
  destruct (FINAL_RE_search (py_strip reply)) as [text|] eqn:E; [|exact I].
  apply (FINAL_RE_search_stripped (py_strip reply)); [|exact E].
  unfold py_strip. apply py_rstrip_idempotent.
Qed.

Lemma span_spec (p : ascii -> bool) (s a b : string) :
  span p s = (a, b) -> all_chars p a = true.
Proof.
  revert a b. induction s as [|c s IH]; intros a b; cbn.
  - now intros [= <- <-].
  - destruct (p c) eqn:E.
    + destruct (span p s) as [a' b'] eqn:S. intros [= <- <-]. cbn.
      rewrite E. now apply (IH a' b').
    + now intros [= <- <-].
Qed.

Lemma upto_close_spec (s body : string) :
  upto_close s = Some body ->
  exists x, body = x +:+ "}" /\
            all_chars (fun c => negb (Ascii.eqb c "}")) x = true.
Proof.
  revert body. induction s as [|c s IH]; intros body; cbn; [discriminate|].
  destruct (Ascii.eqb c "}") eqn:E.
  - intros [= <-]. now exists "".
  - destruct (upto_close s) as [b|]; [|discriminate]. cbn. intros [= <-].
    destruct (IH b eq_refl) as (x & -> & Hx). exists (String c x).
    split; [reflexivity|]. cbn. now rewrite E, Hx.
Qed.

Lemma word_not_space (c : ascii) : is_word c = true -> is_space c = false.
Proof.
  destruct c as [[] [] [] [] [] [] [] []]; vm_compute; intros H;
    first [reflexivity | discriminate].
Qed.

Lemma py_strip_word (w : string) : all_chars is_word w = true -> py_strip w = w.
Proof.
  intros H. unfold py_strip.
  assert (Hns : all_chars (fun c => negb (is_space c)) w = true).
  { eapply all_chars_impl; [|exact H]. intros c Hc. now rewrite word_not_space. }
  rewrite py_lstrip_fixed.
  - clear H. induction w as [|c w IH]; [reflexivity|].
    cbn in Hns. apply andb_prop in Hns as [Hc Hw]. rewrite py_rstrip_cons, (IH Hw).
    apply negb_true_iff in Hc. rewrite Hc. now destruct w.
  - destruct w as [|c w]; [reflexivity|]. cbn in *.
    apply andb_prop in Hns as [Hc _]. now apply negb_true_iff in Hc.
Qed.

Lemma action_groups_shape (rest tool json : string) :
  action_groups rest = Some (tool, json) ->
  tool <> "" /\ all_chars is_word tool = true /\
  exists x, json = "{" +:+ x +:+ "}" /\
            all_chars (fun c => negb (Ascii.eqb c "}")) x = true.
Proof.
  unfold action_groups.
  destruct (span is_word (py_lstrip rest)) as [w r2] eqn:S.
  destruct w as [|a w]; [discriminate|].
  destruct (span is_space r2) as [ws r3].
  destruct (last_char ws) as [c|]; [|discriminate].
  destruct (Ascii.eqb c (ascii_of_nat 10)); [|discriminate].
  destruct (ci_prefix "args:" r3) as [r4|]; [|discriminate].
  destruct (py_lstrip r4) as [|b r5]; [discriminate|].
  destruct (Ascii.eqb b "{"); [|discriminate].
  destruct (upto_close r5) as [body|] eqn:U; [|discriminate].
  cbn. intros [= <- <-]. split; [discriminate|]. split.
  - now apply span_spec in S.
  - destruct (upto_close_spec _ _ U) as (x & -> & Hx). now exists x.
Qed.

(** X23 (llm_agent.run_agent, ACTION_RE): when a reply carries an action, the
    tool name is a non-empty word, which [strip()] leaves as it is, and the
    argument text runs from an opening brace to the first closing brace
    after it; so an argument object that holds a nested object is cut
    before its end. *)
Theorem action_groups_stop_at_first_brace (reply : string) :
  match ACTION_RE_search reply with
  | Some (tool, json) =>
      tool <> "" /\ all_chars is_word tool = true /\ py_strip tool = tool /\
      exists x, json = "{" +:+ x +:+ "}" /\
                all_chars (fun c => negb (Ascii.eqb c "}")) x = true
  | None => True
  end.
Proof.
  induction reply as [|c s IH]; [exact I|].
  cbn [ACTION_RE_search].
  destruct (ci_prefix "action:" (String c s)) as [rest|].
  - destruct (action_groups rest) as [[tool json]|] eqn:G; [|exact IH].
    apply action_groups_shape in G as (H1 & H2 & H3).
    repeat split; auto. now apply py_strip_word.
  - exact IH.
Qed.

End ProtocolFacts.

(* ====================================================================== *)
(** * The agent loop: tool executions *)
(* ====================================================================== *)

Section AgentToolFacts.
Import Answer LlmAgent.

Variable Args : Type.
Variable llm_invoke : string -> string.
Variable FINAL_RE_search : string -> option string.
Variable ACTION_RE_search : string -> option (string * string).
Variable json_loads : string -> option Args.
Variable tool_bm25 : Args -> Exc (list Row).
Variable tool_chroma : Args -> Exc (list ChromaRow).
Variable tool_hybrid : Args -> Exc (string * list Hit * Z).
Variable tool_final_answer : Args -> Exc string.
Variable json_dumps : ToolResult -> string.
Variable call_llm_writer : string -> string.
Variable render_file_list : list Row -> string.

#[local] Abbreviation step :=
  (agent_step Args llm_invoke FINAL_RE_search ACTION_RE_search json_loads
     tool_bm25 tool_chroma tool_hybrid tool_final_answer json_dumps
     call_llm_writer render_file_list).

#[local] Abbreviation steps :=
  (run_steps Args llm_invoke FINAL_RE_search ACTION_RE_search json_loads
     tool_bm25 tool_chroma tool_hybrid tool_final_answer json_dumps
     call_llm_writer render_file_list).

#[local] Abbreviation trace :=
  (run_agent_trace Args llm_invoke FINAL_RE_search ACTION_RE_search json_loads
     tool_bm25 tool_chroma tool_hybrid tool_final_answer json_dumps
     call_llm_writer render_file_list).

Lemma tool_calls_append (st : State) (r : Role) (c : string) :
  tool_calls (append_turn st r c) = tool_calls st.
Proof. reflexivity. Qed.

Lemma tool_calls_log (st : State) (e : Event) :
  tool_calls (log_event st e)
  = tool_calls st + match e with ToolCall _ => 1 | _ => 0 end.
Proof.
  unfold tool_calls, log_event; cbn [events].
  rewrite filter_app, length_app. destruct e; cbn; lia.
Qed.

Lemma tool_calls_capture (t : Tool) (r : ToolResult) (st : State) :
  tool_calls (capture t r st) = tool_calls st.
Proof. destruct t, r; reflexivity. Qed.

(** One pass through the loop body is one model turn and at most one tool
    execution; a pass that returns executes no tool. *)
Lemma agent_step_counts (question : string) (max_steps a : Z) (st : State) :
  match step question max_steps a st with
  | Return _ st' =>
      model_turns st' = model_turns st + 1 /\ tool_calls st' = tool_calls st
  | Continue st' =>
      model_turns st' = model_turns st + 1 /\
      tool_calls st <= tool_calls st' <= tool_calls st + 1
  end.
Proof.
  unfold agent_step. cbv zeta.
  repeat match goal with
         | |- context [match ?x with _ => _ end] =>
             lazymatch type of x with
             | StepResult => fail
             | _ => destruct x
             end
         end;
    repeat first
      [ rewrite model_turns_append | rewrite model_turns_capture
      | rewrite model_turns_log_tool | rewrite model_turns_log_writer
      | rewrite model_turns_log_model
      | rewrite tool_calls_append | rewrite tool_calls_capture
      | rewrite tool_calls_log ];
    lia.
Qed.

Lemma run_steps_counts (question : string) (max_steps : Z) (l : list Z) (st : State) :
  let t := fst (steps question max_steps l st) in
  let st' := snd (steps question max_steps l st) in
  tool_calls st' - tool_calls st <= model_turns st' - model_turns st /\
  (t <> OutOfSteps ->
   tool_calls st' - tool_calls st <= model_turns st' - model_turns st - 1).
Proof.
  revert st. induction l as [|a l IH]; intros st; cbn zeta; cbn [run_steps].
  - cbn [fst snd]. split; [lia | now intros []].
  - pose proof (agent_step_counts question max_steps a st) as Hs.
    destruct (step question max_steps a st) as [t st1 | st1].
    + cbn [fst snd]. lia.
    + specialize (IH st1). cbn zeta in IH. destruct IH as [IH1 IH2].
      split; [lia|]. intros Ht. specialize (IH2 Ht). lia.
Qed.

(** X24 (llm_agent.run_agent): a run executes at most one tool per model
    turn: the number of tool executions never exceeds the number of model
    turns, and the turn on which the run returns an answer, a fallback or
    the could-not-decide message executes none. *)
Theorem run_agent_one_tool_per_turn (question : string) (max_steps : Z) :
  let t := fst (trace question max_steps) in
  let st := snd (trace question max_steps) in
  0 <= tool_calls st <= model_turns st /\
  (t <> OutOfSteps -> tool_calls st <= model_turns st - 1).
Proof.
  cbn zeta. unfold run_agent_trace.
  pose proof (run_steps_counts question max_steps (py_range 1 (max_steps + 1))
                (initial_state question)) as [H1 H2].
  change (tool_calls (initial_state question)) with 0 in *.
  change (model_turns (initial_state question)) with 0 in *.
  split.
  - split; [unfold tool_calls; lia | lia].
  - intros Ht. specialize (H2 Ht). lia.
Qed.

End AgentToolFacts.

(* ====================================================================== *)
(** * The file-lookup branch of the router *)
(* ====================================================================== *)

Section RouterFilesFacts.
Import Answer RouterAgent RouterAgentFiles.

Variable file_mtime : string -> option datetime.
Variable similarity_search_with_score : string -> Z -> list (Document * Q).
Variable search : string -> Z -> list Row.
Variable chunks_fts : list (string * string).
Variable format_4f : Q -> string.

#[local] Abbreviation lookup :=
  (file_lookup file_mtime similarity_search_with_score search chunks_fts format_4f).
#[local] Abbreviation route :=
  (RouterAgentFiles.route_and_run file_mtime similarity_search_with_score search
     chunks_fts format_4f).
#[local] Abbreviation printed := (print_file_list format_4f).

Lemma map_printed_quiet (lines : list string) :
  filter is_retrieved (map Printed lines) = [] /\
  existsb is_generated (map Printed lines) = false.
Proof. induction lines as [|l ls [IH1 IH2]]; cbn; auto. Qed.

Lemma print_file_list_quiet (files : list (string * list Hit)) :
  filter is_retrieved (printed files) = [] /\
  existsb is_generated (printed files) = false.
Proof. apply map_printed_quiet. Qed.

Ltac quiet :=
  cbn [fst snd existsb is_generated filter is_retrieved orb List.length];
  repeat match goal with
         | |- context [filter is_retrieved (print_file_list ?f ?x)] =>
             rewrite (proj1 (print_file_list_quiet x))
         | |- context [existsb is_generated (print_file_list ?f ?x)] =>
             rewrite (proj2 (print_file_list_quiet x))
         end;
  cbn [List.length]; repeat split; try lia; try reflexivity.

Lemma file_lookup_quiet (question : string) (k_ctx : Z)
    (before_dt : option datetime) (brand_tokens : list string) :
  fst (lookup question k_ctx before_dt brand_tokens) = "files" /\
  existsb is_generated (snd (lookup question k_ctx before_dt brand_tokens)) = false /\
  (List.length (filter is_retrieved (snd (lookup question k_ctx before_dt brand_tokens)))
   <= 2)%nat /\
  (first_pass_rows file_mtime search question before_dt brand_tokens <> [] ->
   filter is_retrieved (snd (lookup question k_ctx before_dt brand_tokens)) = []).
Proof.
  unfold file_lookup.
  destruct (first_pass_rows file_mtime search question before_dt brand_tokens)
    as [|row rows].
  - assert (Hnil : @nil Row <> [] ->
                   forall e : list Effect, filter is_retrieved e = [])
      by (intros H; now destruct H).
    destruct (detect_brand_tokens question) as [|tok toks]; cbv zeta;
      (destruct (retrieve_hybrid _ _ _ _ question before_dt _ _) as [|h1 hs1];
       [destruct (retrieve_hybrid _ _ _ _ _ before_dt _ _) as [|h2 hs2];
        [destruct (filter_rows file_mtime before_dt (search _ 100)) as [|r2 rs2]|]|]);
      (split; [reflexivity|]); (split; [quiet|]); (split; [quiet|]);
      intros H; now destruct H.
  - quiet.
Qed.

(** X25 (router_agent.route_and_run): a question that reads as a file lookup
    is answered with the mode "files" and without a call of the
    generative model, whichever path the branch takes; it runs at most two
    hybrid retrievals, and none when the first keyword pass finds rows
    that pass the date filter. *)
Theorem file_lookup_never_generates (call_llm : string -> string)
    (question : string) (k_ctx : Z) (before_dt : option datetime) :
  is_file_lookup question = true ->
  let r := route call_llm question k_ctx before_dt in
  fst r = "files" /\
  existsb is_generated (snd r) = false /\
  (List.length (filter is_retrieved (snd r)) <= 2)%nat /\
  (first_pass_rows file_mtime search question before_dt
     (detect_brand_tokens question) <> [] ->
   filter is_retrieved (snd r) = []).
Proof.
  intros H. unfold RouterAgentFiles.route_and_run, RouterAgent.route_and_run.
  rewrite H. apply file_lookup_quiet.
Qed.

Lemma filter_map_comm {A B : Type} (f : B -> bool) (g : A -> B) (l : list A) :
  filter f (map g l) = map g (filter (fun x => f (g x)) l).
Proof.
  induction l as [|a l IH]; cbn; [reflexivity|].
  destruct (f (g a)); cbn; now rewrite IH.
Qed.

Lemma file_lines_two (l : list (string * list Hit)) (start : Z) :
  (forall kv, In kv l -> snd kv <> []) ->
  List.length
    (flat_map (fun ikv => file_lines format_4f (fst ikv) (snd ikv)) (enumerate start l))
  = (2 * List.length l)%nat.
Proof.
  revert start. induction l as [|[src hs] l IH]; intros start H; [reflexivity|].
  cbn [enumerate flat_map]. rewrite length_app, IH by (intros kv Hkv; apply H; now right).
  specialize (H (src, hs) (or_introl eq_refl)). cbn [fst snd] in *.
  unfold file_lines. destruct hs as [|h hs]; [now destruct H|]. cbn. lia.
Qed.

(** X26 (router_agent.route_and_run, router_agent.print_file_list): the list
    printed on the keyword path names at most ten files, each once; the
    entry of a file holds the rows of that file in the order the engine
    returned them; the files are in descending order of their number of
    rows; and two lines are printed per file between the heading and the
    closing rule. *)
Theorem files_of_rows_ranked (bm25_rows : list Row) :
  let ranked := files_of_rows bm25_rows in
  (List.length ranked <= 10)%nat /\
  NoDup (map fst ranked) /\
  (forall src hs, In (src, hs) ranked ->
     hs <> [] /\ hs = map fake_hit (ServerFiles.rows_of src bm25_rows)) /\
  StronglySorted
    (fun a b => (List.length (snd b) <= List.length (snd a))%nat) ranked /\
  List.length (printed ranked) = (3 + 2 * List.length ranked)%nat.
Proof.
  cbn zeta. unfold files_of_rows, rank_by_count.
  set (G := group_by source (map fake_hit bm25_rows)).
  set (key := fun kv : string * list Hit => inject_Z (Z.of_nat (List.length (snd kv)))).
  set (S := py_sorted_desc key G).
  assert (Hslice : py_slice_to S 10 = firstn 10 S) by reflexivity.
  rewrite Hslice.
  assert (Hsplit : S = firstn 10 S ++ skipn 10 S) by (symmetry; apply firstn_skipn).
  pose proof (py_sorted_desc_perm key G) as Hp. fold S in Hp.
  assert (Hin : forall kv, In kv (firstn 10 S) -> In kv G).
  { intros kv Hkv. apply (Permutation_in _ Hp). rewrite Hsplit.
    apply in_or_app. now left. }
  assert (Hent : forall src hs, In (src, hs) (firstn 10 S) ->
                 hs <> [] /\ hs = map fake_hit (ServerFiles.rows_of src bm25_rows)).
  { intros src hs Hkv. apply Hin, group_by_entry in Hkv as [Hg Hne].
    split; [exact Hne|]. rewrite Hg. unfold ServerFiles.rows_of.
    now rewrite filter_map_comm. }
  split; [apply firstn_le_length|]. split; [|split; [exact Hent|split]].
  - apply (NoDup_app_remove_r _ (map fst (skipn 10 S))).
    rewrite <- map_app, <- Hsplit.
    apply (Permutation_NoDup (Permutation_map fst (Permutation_sym Hp))).
    apply group_by_nodup.
  - apply (sorted_prefix _ _ (skipn 10 S)). rewrite <- Hsplit.
    apply (StronglySorted_weaken (score_ge key)).
    + intros a b _ _. unfold score_ge, key. rewrite <- Zle_Qle. lia.
    + apply py_sorted_desc_sorted.
  - unfold print_file_list. rewrite length_map, !length_app, file_lines_two.
    + cbn [List.length]. lia.
    + intros [src hs] Hkv. cbn [snd]. now apply (Hent src hs).
Qed.

End RouterFilesFacts.

Lemma file_lookup_never_generates_witness :
  Answer.is_file_lookup "which file mentions Rome" = true /\
  fst (RouterAgentFiles.route_and_run Example.file_mtime
         Example.similarity_search_with_score Example.search Example.chunks_fts
         (fun _ => "0.0000") RouterExample.call_llm
         "which file mentions Rome" 6 None) = "files".
Proof.
  assert (H : Answer.is_file_lookup "which file mentions Rome" = true)
    by reflexivity.
  split; [exact H|].
  exact (proj1 (file_lookup_never_generates Example.file_mtime
                  Example.similarity_search_with_score Example.search
                  Example.chunks_fts (fun _ => "0.0000") RouterExample.call_llm
                  "which file mentions Rome" 6 None H)).
Defined.

(* ====================================================================== *)
(** * Removing a folder from the keyword store *)
(* ====================================================================== *)

Lemma fromkeys_in (l : list string) (x : string) : In x (fromkeys l) <-> In x l.
Proof.
  induction l as [|a l IH]; cbn; [tauto|].
  rewrite filter_In, IH, negb_true_iff, String.eqb_neq.
  destruct (string_dec a x) as [-> | Hne]; tauto.
Qed.

Section ManageFacts.
Import Bm25Db ManageIndexes.

Variable sql_like : string -> string -> bool.
Variable path_exists : string -> bool.

Lemma delete_where_spec (cond : MetaRow -> bool) (conn : Db) :
  consistent conn ->
  consistent (fst (delete_where cond conn)) /\
  chunk_meta (fst (delete_where cond conn))
  = filter (fun r => negb (cond r)) (chunk_meta conn) /\
  snd (delete_where cond conn)
  = Z.of_nat (List.length (chunk_meta conn))
    - Z.of_nat (List.length (chunk_meta (fst (delete_where cond conn)))).
Proof.
  intros [Hnd Hsync]. unfold delete_where. cbn [fst snd chunk_meta chunks_fts].
  set (ids := map mr_chunk_id (filter cond (chunk_meta conn))).
  assert (Hcond : forall r, In r (chunk_meta conn) ->
                    negb (cond r) = negb (str_in (mr_chunk_id r) ids)).
  { intros r Hr. f_equal. destruct (cond r) eqn:C.
    - symmetry. apply str_in_iff. apply in_map. apply filter_In. now split.
    - symmetry. apply str_in_false_iff. intros Hin.
      apply in_map_iff in Hin as (r' & Hid & Hr').
      apply filter_In in Hr' as [Hr' C'].
      assert (r' = r) by (apply (NoDup_map_unique mr_chunk_id (chunk_meta conn)); auto).
      subst r'. congruence. }
  assert (Hmeta : filter (fun r => negb (cond r)) (chunk_meta conn)
                  = filter (fun r => negb (str_in (mr_chunk_id r) ids)) (chunk_meta conn))
    by (apply filter_ext_in; exact Hcond).
  split; [split|split].
  - unfold get_existing_ids. cbn [chunk_meta]. rewrite Hmeta.
    rewrite <- (filter_map_comm (fun i => negb (str_in i ids)) mr_chunk_id).
    apply NoDup_filter. exact Hnd.
  - unfold get_existing_ids. cbn [chunk_meta chunks_fts]. rewrite Hmeta.
    rewrite <- (filter_map_comm (fun i => negb (str_in i ids)) mr_chunk_id).
    rewrite <- (filter_map_comm (fun i => negb (str_in i ids)) fr_chunk_id).
    now rewrite Hsync.
  - reflexivity.
  - pose proof (filter_length cond (chunk_meta conn)) as H. lia.
Qed.

(** X27 (manage_indexes.bm25_delete_root, manage_indexes.bm25_count_for_root):
    on a store in which the primary key holds and the full-text table has
    one row per row of [chunk_meta], deleting a root keeps both, leaves no
    row under that root, keeps every other row in place, and returns the
    number of rows [bm25_count_for_root] counted before. *)
Theorem bm25_delete_root_removes_the_root (root : string) (conn : Db) :
  consistent conn ->
  let conn' := fst (bm25_delete_root sql_like root conn) in
  consistent conn' /\
  bm25_count_for_root sql_like root conn' = 0 /\
  snd (bm25_delete_root sql_like root conn) = bm25_count_for_root sql_like root conn /\
  chunk_meta conn'
  = filter (fun r => negb (under_root sql_like root r)) (chunk_meta conn).
Proof.
  intros Hc. cbn zeta. unfold bm25_delete_root.
  destruct (delete_where_spec (under_root sql_like root) conn Hc) as (H1 & H2 & H3).
  split; [exact H1|]. split; [|split; [reflexivity | exact H2]].
  unfold bm25_count_for_root. rewrite H2.
  replace (filter (under_root sql_like root)
             (filter (fun r => negb (under_root sql_like root r)) (chunk_meta conn)))
    with (@nil MetaRow); [reflexivity|].
  symmetry. apply filter_nil_iff. intros r Hr. apply filter_In in Hr as [_ Hr].
  now apply negb_true_iff in Hr.
Qed.

Lemma prune_fold_spec (l : list string) (conn : Db) (n : Z) :
  consistent conn ->
  let st := fold_left prune_source l (conn, n) in
  consistent (fst st) /\
  chunk_meta (fst st)
  = filter (fun r => negb (str_in (mr_source r) l)) (chunk_meta conn) /\
  snd st = n + Z.of_nat (List.length (chunk_meta conn))
           - Z.of_nat (List.length (chunk_meta (fst st))).
Proof.
  revert conn n. induction l as [|s l IH]; intros conn n Hc; cbn zeta; cbn [fold_left].
  - cbn [fst snd]. split; [exact Hc|]. split; [|lia].
    symmetry. apply filter_all. reflexivity.
  - destruct (delete_where (fun r => String.eqb (mr_source r) s) conn) as [c1 k] eqn:D.
    assert (Hstep : prune_source (conn, n) s = (c1, n + k))
      by (unfold prune_source; now rewrite D).
    rewrite Hstep.
    destruct (delete_where_spec (fun r => String.eqb (mr_source r) s) conn Hc)
      as (H1 & H2 & H3).
    rewrite D in H1, H2, H3. cbn [fst snd] in H1, H2, H3.
    destruct (IH c1 (n + k) H1) as (I1 & I2 & I3). cbn zeta in *.
    split; [exact I1|]. split.
    + rewrite I2, H2. clear. induction (chunk_meta conn) as [|r rs IHr]; [reflexivity|].
      cbn [filter str_in existsb]. rewrite (String.eqb_sym (mr_source r) s).
      destruct (String.eqb s (mr_source r)) eqn:E; cbn [negb orb].
      * exact IHr.
      * cbn [filter]. fold (str_in (mr_source r) l).
        destruct (str_in (mr_source r) l); cbn [negb]; now rewrite IHr.
    + rewrite I3, H3. lia.
Qed.

(** X28 (manage_indexes.bm25_prune_missing): on such a store, pruning keeps
    the primary key and the pairing of the two tables; afterwards every
    row under the root names a file that is on disk; the rows of files
    that are on disk, and the rows outside the root, are all kept; and
    the number returned is the number of rows removed from [chunk_meta]. *)
Theorem bm25_prune_missing_keeps_existing_files (root : string) (conn : Db) :
  consistent conn ->
  let conn' := fst (bm25_prune_missing sql_like path_exists root conn) in
  consistent conn' /\
  (forall r, In r (chunk_meta conn') ->
     In r (chunk_meta conn) /\
     (under_root sql_like root r = true -> path_exists (mr_source r) = true)) /\
  (forall r, In r (chunk_meta conn) ->
     path_exists (mr_source r) = true \/ under_root sql_like root r = false ->
     In r (chunk_meta conn')) /\
  snd (bm25_prune_missing sql_like path_exists root conn)
  = Z.of_nat (List.length (chunk_meta conn))
    - Z.of_nat (List.length (chunk_meta conn')).
Proof.
  intros Hc. cbn zeta. unfold bm25_prune_missing.
  destruct (prune_fold_spec (to_prune sql_like path_exists root conn) conn 0 Hc)
    as (H1 & H2 & H3). cbn zeta in *.
  assert (Hin : forall r, In r (chunk_meta conn) ->
            (str_in (mr_source r) (to_prune sql_like path_exists root conn) = true <->
             under_root sql_like root r = true /\ path_exists (mr_source r) = false)).
  { intros r Hr. rewrite str_in_iff. unfold to_prune.
    rewrite filter_In, fromkeys_in, negb_true_iff, in_map_iff. split.
    - intros [(r' & Hs & Hr') Hex]. apply filter_In in Hr' as [_ Hu].
      split; [|exact Hex]. unfold under_root in *. now rewrite <- Hs.
    - intros [Hu Hex]. split; [|exact Hex]. exists r. split; [reflexivity|].
      apply filter_In. now split. }
  split; [exact H1|]. split; [|split; [|lia]].
  - intros r Hr. rewrite H2 in Hr. apply filter_In in Hr as [Hr Hn].
    split; [exact Hr|]. intros Hu.
    destruct (path_exists (mr_source r)) eqn:E; [reflexivity|].
    apply negb_true_iff in Hn.
    assert (str_in (mr_source r) (to_prune sql_like path_exists root conn) = true)
      by (apply (Hin r Hr); now split).
    congruence.
  - intros r Hr Hkeep. rewrite H2. apply filter_In. split; [exact Hr|].
    apply negb_true_iff.
    destruct (str_in (mr_source r) (to_prune sql_like path_exists root conn)) eqn:E;
      [|reflexivity].
    apply (Hin r Hr) in E as [Hu Hex]. destruct Hkeep; congruence.
Qed.

End ManageFacts.

(* ====================================================================== *)
(** * Escaping for the substring scan ([bm25_db.like_scan]) *)
(* ====================================================================== *)

Section EscapeFacts.
Import Bm25Db.

Lemma replace_one_step (a c : ascii) (new s : string) :
  py_replace (String c s) (String a "") new =
  (if Ascii.eqb a c then new else String c "") +:+ py_replace s (String a "") new.
Proof.
  unfold py_replace. cbn. destruct (Ascii.eqb a c); reflexivity.
Qed.

Lemma replace_one_append (a : ascii) (new x y : string) :
  py_replace (x +:+ y) (String a "") new =
  py_replace x (String a "") new +:+ py_replace y (String a "") new.
Proof.
  induction x as [|c x IH]; [reflexivity|].
  cbn [String.append]. rewrite !replace_one_step, IH. now rewrite append_assoc.
Qed.

Lemma esc_head (c : ascii) :
  py_replace
    (py_replace (if Ascii.eqb "\" c then "\\" else String c "") "%" "\%")
    "_" "\_"
  = esc_char c.
Proof. destruct c as [[] [] [] [] [] [] [] []]; reflexivity. Qed.

Lemma esc_like_cons (c : ascii) (s : string) :
  _esc_like (String c s) = esc_char c +:+ _esc_like s.
Proof.
  unfold _esc_like. rewrite replace_one_step, !replace_one_append.
  now rewrite esc_head.
Qed.

Lemma like_literal_esc_char (c : ascii) (rest : string) :
  like_literal (esc_char c +:+ rest) = String c (like_literal rest).
Proof.
  unfold esc_char.
  destruct (Ascii.eqb_spec c "\") as [-> | H1]; [reflexivity|].
  destruct (Ascii.eqb_spec c "%") as [-> | H2]; [reflexivity|].
  destruct (Ascii.eqb_spec c "_") as [-> | H3]; [reflexivity|].
  cbn. apply Ascii.eqb_neq in H1. now rewrite H1.
Qed.

(** X29 (bm25_db.like_scan, _esc_like): the three chained replacements
    escape each character exactly once: a backslash is put before every
    backslash, percent sign and underscore of the token and nothing else
    changes, so under ESCAPE '\' the parameter stands for the token
    itself, character by character. *)
Theorem esc_like_round_trip (s : string) :
  _esc_like s = esc_chars s /\ like_literal (_esc_like s) = s.
Proof.
  induction s as [|c s [IH1 IH2]]; [split; reflexivity|].
  rewrite esc_like_cons. split.
  - cbn [esc_chars]. now rewrite IH1.
  - now rewrite like_literal_esc_char, IH2.
Qed.

End EscapeFacts.

(* ====================================================================== *)
(** * The file-lookup part of the HTTP route *)
(* ====================================================================== *)

Section ServerRouteFacts.
Import Answer ServerFiles ServerRoute.

Variable file_mtime : string -> option datetime.
Variable similarity_search_with_score : string -> Z -> list (Document * Q).
Variable search : string -> Z -> list Row.
Variable chunks_fts : list (string * string).
Variable call_llm : string -> string.

#[local] Abbreviation endpoint :=
  (route_endpoint file_mtime similarity_search_with_score search chunks_fts call_llm).
#[local] Abbreviation first_rows := (brand_first_bm25 file_mtime search).

Lemma files_from_bm25_some (rows : list Row) :
  exists files, files_from_bm25 rows = Some files /\ NoDup (map fh_path files).
Proof.
  destruct (file_of_rows_groups rows) as (out & E & F).
  unfold files_from_bm25. rewrite E. cbn [option_map].
  eexists. split; [reflexivity|].
  apply (Permutation_NoDup
           (Permutation_map fh_path
              (Permutation_sym (py_sorted_desc_by_perm _ tuple_le out)))).
  replace (map fh_path out) with (dict_keys (group_by row_source rows)).
  - apply group_by_nodup.
  - unfold dict_keys. apply (Forall2_map_eq _ fst fh_path _ _ file_of_rows_path F).
Qed.

Lemma files_from_hybrid_some (hits : list Hit) :
  exists files, files_from_hybrid hits = Some files /\ NoDup (map fh_path files).
Proof.
  destruct (file_of_hits_groups hits) as (out & E & F).
  unfold files_from_hybrid. rewrite E. cbn [option_map].
  eexists. split; [reflexivity|].
  apply (Permutation_NoDup
           (Permutation_map fh_path
              (Permutation_sym (py_sorted_desc_by_perm _ tuple_le out)))).
  replace (map fh_path out) with (dict_keys (group_by source hits)).
  - apply group_by_nodup.
  - unfold dict_keys. apply (Forall2_map_eq _ fst fh_path _ _ file_of_hits_path F).
Qed.

(** X30 (server.route_endpoint, server.brand_first_bm25): for a question that
    reads as a file lookup the endpoint always answers with a files
    response of mode "files", never with an exception, in which no file
    occurs twice; it does not call the generative model; it runs no
    hybrid retrieval when the keyword pass finds rows that pass the date
    filter, and one otherwise. *)
Theorem route_endpoint_file_lookup (q : string) (k : Z)
    (before_dt : option datetime) :
  is_file_lookup q = true ->
  let r := endpoint q k before_dt in
  (exists files,
     fst r = FilesResponse "files" files /\ NoDup (map fh_path files)) /\
  existsb is_generated (snd r) = false /\
  (first_rows q before_dt <> [] -> snd r = []) /\
  (first_rows q before_dt = [] ->
   exists hits, snd r = [Retrieved q 2 100 hits]).
Proof.
  intros H. cbn zeta. unfold route_endpoint, route_files. rewrite H.
  destruct (first_rows q before_dt) as [|row rows].
  - destruct (retrieve_hybrid _ _ _ _ q before_dt 2 100) as [|h hs] eqn:R.
    + cbn [fst snd]. split; [|split; [reflexivity|split]].
      * exists []. split; [reflexivity | constructor].
      * now intros [].
      * intros _. now exists [].
    + destruct (files_from_hybrid_some (h :: hs)) as (files & E & Hnd).
      rewrite E. cbn [fst snd files_response]. split; [|split; [reflexivity|split]].
      * now exists files.
      * now intros [].
      * intros _. now exists (h :: hs).
  - destruct (files_from_bm25_some (row :: rows)) as (files & E & Hnd).
    rewrite E. cbn [fst snd files_response].
    split; [|split; [reflexivity|split]].
    + now exists files.
    + reflexivity.
    + discriminate.
Qed.

End ServerRouteFacts.

Lemma route_endpoint_file_lookup_witness :
  Answer.is_file_lookup "which file mentions Rome" = true /\
  existsb is_generated
    (snd (ServerRoute.route_endpoint Example.file_mtime
            Example.similarity_search_with_score Example.search
            Example.chunks_fts RouterExample.call_llm
            "which file mentions Rome" 6 None)) = false.
Proof.
  assert (H : Answer.is_file_lookup "which file mentions Rome" = true)
    by reflexivity.
  split; [exact H|].
  exact (proj1 (proj2 (route_endpoint_file_lookup Example.file_mtime
                         Example.similarity_search_with_score Example.search
                         Example.chunks_fts RouterExample.call_llm
                         "which file mentions Rome" 6 None H))).
Defined.

Lemma bm25_delete_root_removes_the_root_witness :
  Bm25Db.consistent
    (Bm25Db.mkDb
       [Bm25Db.mkMetaRow "a.pdf:1:0" "a.pdf" 1; Bm25Db.mkMetaRow "b.txt:0:0" "b.txt" 0]
       [Bm25Db.mkFtsRow "a.pdf:1:0" "a.pdf" "1" "alpha";
        Bm25Db.mkFtsRow "b.txt:0:0" "b.txt" "0" "beta"]) /\
  Bm25Db.chunk_meta
    (fst (ManageIndexes.bm25_delete_root (fun text pattern => starts_with "a" text)
            "a"
            (Bm25Db.mkDb
               [Bm25Db.mkMetaRow "a.pdf:1:0" "a.pdf" 1;
                Bm25Db.mkMetaRow "b.txt:0:0" "b.txt" 0]
               [Bm25Db.mkFtsRow "a.pdf:1:0" "a.pdf" "1" "alpha";
                Bm25Db.mkFtsRow "b.txt:0:0" "b.txt" "0" "beta"])))
  = [Bm25Db.mkMetaRow "b.txt:0:0" "b.txt" 0].
Proof.
  assert (H : Bm25Db.consistent
                (Bm25Db.mkDb
                   [Bm25Db.mkMetaRow "a.pdf:1:0" "a.pdf" 1;
                    Bm25Db.mkMetaRow "b.txt:0:0" "b.txt" 0]
                   [Bm25Db.mkFtsRow "a.pdf:1:0" "a.pdf" "1" "alpha";
                    Bm25Db.mkFtsRow "b.txt:0:0" "b.txt" "0" "beta"])).
  { split; [|reflexivity]. cbn. constructor.
    - intros [E | []]. discriminate.
    - constructor; [intros [] | constructor]. }
  split; [exact H|].
  exact (proj2 (proj2 (proj2
           (bm25_delete_root_removes_the_root
              (fun text pattern => starts_with "a" text) "a" _ H)))).
Defined.

Lemma bm25_prune_missing_keeps_existing_files_witness :
  Bm25Db.consistent
    (Bm25Db.mkDb
       [Bm25Db.mkMetaRow "a.pdf:1:0" "a.pdf" 1; Bm25Db.mkMetaRow "b.txt:0:0" "b.txt" 0]
       [Bm25Db.mkFtsRow "a.pdf:1:0" "a.pdf" "1" "alpha";
        Bm25Db.mkFtsRow "b.txt:0:0" "b.txt" "0" "beta"]) /\
  snd (ManageIndexes.bm25_prune_missing (fun text pattern => true)
         (fun s => String.eqb s "b.txt") ""
         (Bm25Db.mkDb
            [Bm25Db.mkMetaRow "a.pdf:1:0" "a.pdf" 1;
             Bm25Db.mkMetaRow "b.txt:0:0" "b.txt" 0]
            [Bm25Db.mkFtsRow "a.pdf:1:0" "a.pdf" "1" "alpha";
             Bm25Db.mkFtsRow "b.txt:0:0" "b.txt" "0" "beta"]))
  = 2 - 1.
Proof.
  assert (H : Bm25Db.consistent
                (Bm25Db.mkDb
                   [Bm25Db.mkMetaRow "a.pdf:1:0" "a.pdf" 1;
                    Bm25Db.mkMetaRow "b.txt:0:0" "b.txt" 0]
                   [Bm25Db.mkFtsRow "a.pdf:1:0" "a.pdf" "1" "alpha";
                    Bm25Db.mkFtsRow "b.txt:0:0" "b.txt" "0" "beta"])).
  { split; [|reflexivity]. cbn. constructor.
    - intros [E | []]. discriminate.
    - constructor; [intros [] | constructor]. }
  split; [exact H|].
  exact (proj2 (proj2 (proj2
           (bm25_prune_missing_keeps_existing_files
              (fun text pattern => true) (fun s => String.eqb s "b.txt") "" _ H)))).
Defined.
